(** * Claims text-embeddings pipeline: chunker, local vector store, search API

    A shallow embedding of the three library modules of the repository
    ([lib/text_chunker.py], [lib/local_vector_db.py], [lib/search_api.py]),
    of the parts of [lib/embeddings_generator.py], [lib/vector_database.py]
    and [embeddings_pipeline.py] that connect them, and the properties of
    the specification that concern them.

    Conventions of the embedding.
    - A Python [str] is a [string]; its characters are the code points
      0..255, so the character classes below are the Latin-1 part of the
      classes Python uses.
    - A Python [int] is a [Z].  A Python [float] is a rational [Q]:
      arithmetic is exact, rounding, infinities and NaN are not modelled.
    - A Python [dict] is an association list in insertion order whose keys
      are unique ([dict_set] overwrites in place or appends).
    - A [try/except Exception] block is a computation in a sum type
      [exn + A] followed by its handler.
    - A [while] loop is a function with a fuel argument that counts
      iterations; [None] means that the fuel ran out. *)

From Stdlib Require Import ZArith List Bool Ascii String QArith Lia.
From Stdlib Require Import DecimalString DecimalN Permutation Sorted.
Import ListNotations.

#[local] Open Scope string_scope.
#[local] Open Scope list_scope.
#[local] Open Scope Z_scope.

(* ===================================================================== *)
(** * Python values, strings, slices and dictionaries *)
(* ===================================================================== *)

Module Py.

(** [len(s)] *)
Definition len (s : string) : Z := Z.of_nat (String.length s).

(** Normalisation of one bound of a slice [l[i:j]]: a negative bound counts
    from the end, and every bound is clamped to [0, len]. *)
Definition slice_index (n i : Z) : Z :=
  if i <? 0 then Z.max (i + n) 0 else Z.min i n.

(** [l[i:j]] on a list. *)
Definition slice {A : Type} (l : list A) (i j : Z) : list A :=
  let n := Z.of_nat (List.length l) in
  let a := slice_index n i in
  let b := slice_index n j in
  firstn (Z.to_nat (b - a)) (skipn (Z.to_nat a) l).

(** [s[i:j]] on a string. *)
Definition str_slice (s : string) (i j : Z) : string :=
  string_of_list_ascii (slice (list_ascii_of_string s) i j).

Definition code (c : ascii) : Z := Z.of_nat (nat_of_ascii c).

Definition between (lo hi : Z) (c : ascii) : bool :=
  (lo <=? code c) && (code c <=? hi).

(** Whitespace as [str.strip()], [str.isspace()] and the regular
    expression class [\s] see it: TAB..CR, FS..US, space, NEL and NBSP. *)
Definition isspace (c : ascii) : bool :=
  between 9 13 c || between 28 31 c || between 32 32 c
  || between 133 133 c || between 160 160 c.

Fixpoint lstrip_list (l : list ascii) : list ascii :=
  match l with
  | c :: l' => if isspace c then lstrip_list l' else l
  | [] => []
  end.

(** [s.strip()] *)
Definition strip (s : string) : string :=
  string_of_list_ascii
    (rev (lstrip_list (rev (lstrip_list (list_ascii_of_string s))))).

(** Values stored in metadata dictionaries and filter maps. *)
#[local] Set Warnings "-register-all".
Inductive pyval : Type :=
| VNone
| VBool (b : bool)
| VInt (z : Z)
| VFloat (q : Q)
| VStr (s : string)
| VList (l : list pyval)
| VDict (d : list (string * pyval)).

Section Dict.
Context {V : Type}.

(** [d.get(k)] / [k in d] / [d[k]] *)
Fixpoint dict_get (k : string) (d : list (string * V)) : option V :=
  match d with
  | [] => None
  | (k', v) :: d' => if String.eqb k k' then Some v else dict_get k d'
  end.

Definition dict_mem (k : string) (d : list (string * V)) : bool :=
  match dict_get k d with Some _ => true | None => false end.

(** [d[k] = v]: an existing key keeps its position, a new key goes last. *)
Fixpoint dict_set (k : string) (v : V) (d : list (string * V))
  : list (string * V) :=
  match d with
  | [] => [(k, v)]
  | (k', v') :: d' =>
      if String.eqb k k' then (k, v) :: d' else (k', v') :: dict_set k v d'
  end.

(** [list(d.keys())] and [d.values()] *)
Definition dict_keys (d : list (string * V)) : list string := map fst d.
Definition dict_values (d : list (string * V)) : list V := map snd d.

(** [{**d, **e}]: the items of [e] written into [d] one after the other. *)
Definition dict_update (d e : list (string * V)) : list (string * V) :=
  fold_left (fun acc kv => dict_set (fst kv) (snd kv) acc) e d.
End Dict.

(** Numbers compare by value across [bool], [int] and [float]. *)
Definition as_number (v : pyval) : option Q :=
  match v with
  | VBool b => Some (if b then 1%Q else 0%Q)
  | VInt z => Some (inject_Z z)
  | VFloat q => Some q
  | _ => None
  end.

(** [a == b] *)
Fixpoint py_eq (a b : pyval) {struct a} : bool :=
  match a, b with
  | VNone, VNone => true
  | VStr s, VStr t => String.eqb s t
  | VList l, VList m =>
      (fix eq_items (l : list pyval) (m : list pyval) {struct l} : bool :=
         match l, m with
         | [], [] => true
         | x :: l', y :: m' => py_eq x y && eq_items l' m'
         | _, _ => false
         end) l m
  | VDict d, VDict e =>
      Nat.eqb (List.length d) (List.length e)
      && (fix eq_entries (d : list (string * pyval)) {struct d} : bool :=
            match d with
            | [] => true
            | (k, v) :: d' =>
                match dict_get k e with
                | Some w => py_eq v w
                | None => false
                end && eq_entries d'
            end) d
  | (VBool _ | VInt _ | VFloat _), (VBool _ | VInt _ | VFloat _) =>
      match as_number a, as_number b with
      | Some x, Some y => Qeq_bool x y
      | _, _ => false
      end
  | _, _ => false
  end.

(** [x in l] for a list [l] *)
Definition py_in (x : pyval) (l : list pyval) : bool :=
  existsb (fun y => py_eq x y) l.

(** [l[i]]: a negative index counts from the end; out of range raises. *)
Definition getitem {A : Type} (l : list A) (i : Z) : option A :=
  let n := Z.of_nat (List.length l) in
  if (i <? - n) || (n <=? i) then None
  else nth_error l (Z.to_nat (if i <? 0 then i + n else i)).

(** [sorted(l, key=key, reverse=True)]: descending, and stable (elements
    with equal keys keep their order).  [insert_desc x l] puts [x], which
    came before the elements of [l], in front of the first element whose
    key is not greater. *)
Section SortDesc.
Context {A : Type}.
Variable key : A -> Q.

Fixpoint insert_desc (x : A) (l : list A) : list A :=
  match l with
  | [] => [x]
  | y :: l' =>
      if Qle_bool (key y) (key x) then x :: l else y :: insert_desc x l'
  end.

Definition sorted_desc (l : list A) : list A := fold_right insert_desc [] l.

(** Descending order of the keys: [x] may stand before [y]. *)
Definition desc (x y : A) : Prop := (key y <= key x)%Q.
End SortDesc.

(** [x] comes before [y] in [l]. *)
Definition before {A : Type} (x y : A) (l : list A) : Prop :=
  exists l1 l2 l3, l = l1 ++ x :: l2 ++ y :: l3.

(** The exceptions the modelled code can meet; [str(e)] is the message. *)
Inductive exn : Type :=
| ValueError (msg : string)
| TypeError (msg : string)
| AssertionError (msg : string)
| AttributeError (msg : string)
| IndexError (msg : string)
| RuntimeError (msg : string).

Definition exn_str (e : exn) : string :=
  match e with
  | ValueError m | TypeError m | AssertionError m
  | AttributeError m | IndexError m | RuntimeError m => m
  end.

End Py.

(* ===================================================================== *)
(** * The regular expressions of the chunker *)
(* ===================================================================== *)

(** The patterns of [text_chunker.py] are sequences of character classes,
    each taken once, [*] or [+] times (greedy, with backtracking), and of
    the anchors [^] and [$] under [re.MULTILINE].  [match_here] returns the
    number of characters of the first match in backtracking order. *)
Module Regex.
Import Py.

Inductive atom : Type :=
| One (c : ascii -> bool)
| Star (c : ascii -> bool)
| Plus (c : ascii -> bool)
| Bol
| Eol.

Definition is_newline (c : ascii) : bool := between 10 10 c.
Definition is_char (x : ascii) (c : ascii) : bool := Ascii.eqb x c.
Definition is_upper : ascii -> bool := between 65 90.
Definition is_lower : ascii -> bool := between 97 122.
Definition is_digit : ascii -> bool := between 48 57.
Definition either (c1 c2 : ascii -> bool) (c : ascii) : bool := c1 c || c2 c.

(** Greedy repetition of a class, then the continuation [k]; [prev] is the
    character before the current position, [n] the characters consumed. *)
Fixpoint star (c : ascii -> bool)
    (k : option ascii -> list ascii -> nat -> option nat)
    (prev : option ascii) (s : list ascii) (n : nat) : option nat :=
  match s with
  | x :: s' =>
      if c x then
        match star c k (Some x) s' (S n) with
        | Some e => Some e
        | None => k prev s n
        end
      else k prev s n
  | [] => k prev s n
  end.

Fixpoint match_here (r : list atom) (prev : option ascii) (s : list ascii)
    (n : nat) : option nat :=
  match r with
  | [] => Some n
  | One c :: r' =>
      match s with
      | x :: s' => if c x then match_here r' (Some x) s' (S n) else None
      | [] => None
      end
  | Star c :: r' => star c (match_here r') prev s n
  | Plus c :: r' =>
      match s with
      | x :: s' => if c x then star c (match_here r') (Some x) s' (S n) else None
      | [] => None
      end
  | Bol :: r' =>
      match prev with
      | None => match_here r' prev s n
      | Some p => if is_newline p then match_here r' prev s n else None
      end
  | Eol :: r' =>
      match s with
      | [] => match_here r' prev s n
      | x :: _ => if is_newline x then match_here r' prev s n else None
      end
  end.

(** [pattern.finditer(text)]: the non-overlapping matches from left to
    right as [(start, end)].  [skip] counts the characters still inside the
    previous match.  Every pattern of the source consumes a character, so an
    empty match only moves the scan on. *)
Fixpoint finditer_from (r : list atom) (prev : option ascii) (s : list ascii)
    (pos skip : nat) : list (nat * nat) :=
  match s with
  | [] => []
  | x :: s' =>
      match skip with
      | S k => finditer_from r (Some x) s' (S pos) k
      | O =>
          match match_here r prev s 0 with
          | Some (S e) =>
              (pos, (pos + S e)%nat) :: finditer_from r (Some x) s' (S pos) e
          | _ => finditer_from r (Some x) s' (S pos) 0
          end
      end
  end.

Definition finditer (r : list atom) (text : string) : list (nat * nat) :=
  finditer_from r None (list_ascii_of_string text) 0 0.

(** [re.search(pattern, text)] as a truth value *)
Definition search (r : list atom) (text : string) : bool :=
  match finditer r text with [] => false | _ :: _ => true end.

(** [re.sub(pattern, repl, text)] *)
Fixpoint sub_from (r : list atom) (repl : list ascii) (prev : option ascii)
    (s : list ascii) (skip : nat) : list ascii :=
  match s with
  | [] => []
  | x :: s' =>
      match skip with
      | S k => sub_from r repl (Some x) s' k
      | O =>
          match match_here r prev s 0 with
          | Some (S e) => repl ++ sub_from r repl (Some x) s' e
          | _ => x :: sub_from r repl (Some x) s' 0
          end
      end
  end.

Definition sub (r : list atom) (repl : string) (text : string) : string :=
  string_of_list_ascii
    (sub_from r (list_ascii_of_string repl) None (list_ascii_of_string text) 0).

End Regex.

(* ===================================================================== *)
(** * lib/text_chunker.py *)
(* ===================================================================== *)

Module TextChunker.
Import Py Regex.

(** [class TextChunk] *)
Record TextChunk : Type := mkTextChunk {
  content : string;
  chunk_id : string;
  source_file : string;
  chunk_index : Z;
  start_char : Z;
  end_char : Z;
  metadata : list (string * pyval)
}.

(** The attributes [__init__] stores on a [ClaimsTextChunker]. *)
Record ClaimsTextChunker : Type := mkChunker {
  chunk_size : Z;
  chunk_overlap : Z;
  min_chunk_size : Z
}.

(** [ClaimsTextChunker()] with the default arguments *)
Definition default_chunker : ClaimsTextChunker :=
  {| chunk_size := 512; chunk_overlap := 50; min_chunk_size := 100 |}.

Definition nl : ascii := ascii_of_nat 10.

(** [self.section_patterns], in the order of the source *)
Definition section_patterns : list (list atom) :=
  [ (* \n\s*[A-Z][A-Z\s]+:\s*$ *)
    [One is_newline; Star isspace; One is_upper;
     Plus (either is_upper isspace); One (is_char ":"); Star isspace; Eol];
    (* \n\s*\d+\.\s+[A-Z] *)
    [One is_newline; Star isspace; Plus is_digit; One (is_char ".");
     Plus isspace; One is_upper];
    (* \n\s*[A-Z][a-z]+\s+[A-Z][a-z]+: *)
    [One is_newline; Star isspace; One is_upper; Plus is_lower; Plus isspace;
     One is_upper; Plus is_lower; One (is_char ":")];
    (* \n\s*---+\s*$ *)
    [One is_newline; Star isspace; One (is_char "-"); One (is_char "-");
     Plus (is_char "-"); Star isspace; Eol];
    (* \n\s*===+\s*$ *)
    [One is_newline; Star isspace; One (is_char "="); One (is_char "=");
     Plus (is_char "="); Star isspace; Eol] ].

(** [[\x00-\x08\x0b\x0c\x0e-\x1f\x7f-\x9f]] *)
Definition is_control (c : ascii) : bool :=
  between 0 8 c || between 11 12 c || between 14 31 c || between 127 159 c.

(** [_clean_text] *)
Definition _clean_text (text : string) : string :=
  let text := sub [Plus isspace] " " text in
  let text := sub [Plus is_newline] (String nl EmptyString) text in
  let text := sub [One is_control] "" text in
  strip text.

(** [sorted(list(s))] for a set [s] of integers given with repetitions *)
Fixpoint insert_sorted (x : Z) (l : list Z) : list Z :=
  match l with
  | [] => [x]
  | y :: l' =>
      if x <? y then x :: l
      else if x =? y then l
      else y :: insert_sorted x l'
  end.

Definition sorted_set (l : list Z) : list Z := fold_right insert_sorted [] l.

Definition is_sentence_end (c : ascii) : bool :=
  is_char "." c || is_char "!" c || is_char "?" c.

(** [_find_break_points] *)
Definition _find_break_points (text : string) : list Z :=
  let pattern_starts :=
    flat_map (fun pattern => map fst (finditer pattern text)) section_patterns in
  (* [.!?]+\s+ *)
  let sentence_endings :=
    map snd (finditer [Plus is_sentence_end; Plus isspace] text) in
  (* \n\s*\n *)
  let paragraph_breaks :=
    map fst (finditer [One is_newline; Star isspace; One is_newline] text) in
  let break_points :=
    sorted_set
      (map Z.of_nat (pattern_starts ++ sentence_endings ++ paragraph_breaks)) in
  [0] ++ break_points ++ [len text].

(** [_is_complete_section] *)
Definition section_indicators : list (list atom) :=
  [ (* ^[A-Z][A-Z\s]+:\s*$ *)
    [Bol; One is_upper; Plus (either is_upper isspace); One (is_char ":");
     Star isspace; Eol];
    (* ^\d+\.\s+[A-Z] *)
    [Bol; Plus is_digit; One (is_char "."); Plus isspace; One is_upper];
    (* ^[A-Z][a-z]+\s+[A-Z][a-z]+: *)
    [Bol; One is_upper; Plus is_lower; Plus isspace; One is_upper;
     Plus is_lower; One (is_char ":")] ].

Definition _is_complete_section (chunk_content : string) : bool :=
  existsb (fun pattern => search pattern chunk_content) section_indicators.

(** [f"{n:03d}"]: decimal, sign first, zero-padded to three characters *)
Definition zeros (n : nat) : string := string_of_list_ascii (repeat "0"%char n).

Definition fmt_03d (n : Z) : string :=
  let digits := NilZero.string_of_uint (N.to_uint (Z.to_N (Z.abs n))) in
  if n <? 0
  then "-" ++ zeros (2 - String.length digits) ++ digits
  else zeros (3 - String.length digits) ++ digits.

(** [PurePosixPath(name).stem] for a path that does not end in a slash:
    the part after the last slash, without its last suffix.  The chunker
    below takes the stem function as a parameter; this one serves to run it
    on examples. *)
Fixpoint split_at_dot (l : list ascii) : option (list ascii * list ascii) :=
  match l with
  | [] => None
  | c :: l' =>
      if is_char "." c then Some ([], l')
      else match split_at_dot l' with
           | Some (before, after) => Some (c :: before, after)
           | None => None
           end
  end.

Definition posix_stem (path : string) : string :=
  let name :=
    fold_left (fun acc c => if is_char "/" c then [] else acc ++ [c])
              (list_ascii_of_string path) [] in
  match split_at_dot (rev name) with
  | Some (_ :: _, (_ :: _) as stem_rev) => string_of_list_ascii (rev stem_rev)
  | _ => string_of_list_ascii name
  end.

Section Chunker.
(** [Path(source_file).stem], from the standard library *)
Variable path_stem : string -> string.
(** [self] *)
Variable self : ClaimsTextChunker.

(** [_find_best_break_point] *)
Definition _find_best_break_point (text : string) (start end_ : Z)
    (break_points : list Z) : Z :=
  let search_start := Z.max start (end_ - chunk_size self / 5) in
  match
    find (fun bp => (search_start <=? bp) && (bp <=? end_)) (rev break_points)
  with
  | Some bp => bp
  | None => end_
  end.

Definition make_chunk_id (source_file : string) (chunk_index : Z) : string :=
  path_stem source_file ++ "_chunk_" ++ fmt_03d chunk_index.

Section CreateChunks.
Variable text : string.
Variable break_points : list Z.
Variable source_file : string.
Variable file_metadata : option (list (string * pyval)).

(** The [while] loop of [_create_chunks], from the state
    [(start_pos, chunk_index)]; the list returned is what the loop
    still appends to [chunks]. *)
Fixpoint create_chunks_loop (fuel : nat) (start_pos chunk_index : Z)
    {struct fuel} : option (list TextChunk) :=
  if start_pos <? len text then
    match fuel with
    | O => None
    | S fuel' =>
        let end_pos := Z.min (start_pos + chunk_size self) (len text) in
        let best_break :=
          _find_best_break_point text start_pos end_pos break_points in
        let end_pos := if best_break >? start_pos then best_break else end_pos in
        let chunk_content := strip (str_slice text start_pos end_pos) in
        if len chunk_content <? min_chunk_size self then
          create_chunks_loop fuel' end_pos chunk_index
        else
          let chunk :=
            mkTextChunk
              (* content *) chunk_content
              (* chunk_id *) (make_chunk_id source_file chunk_index)
              (* source_file *) source_file
              (* chunk_index *) chunk_index
              (* start_char *) start_pos
              (* end_char *) end_pos
              (* metadata *)
              [ ("file_metadata",
                 VDict (match file_metadata with
                        | Some d => d
                        | None => []
                        end));
                ("chunk_size", VInt (len chunk_content));
                ("is_complete_section",
                 VBool (_is_complete_section chunk_content)) ] in
          option_map (cons chunk)
            (create_chunks_loop fuel'
               (Z.max (start_pos + 1) (end_pos - chunk_overlap self))
               (chunk_index + 1))
    end
  else Some [].

(** [_create_chunks] *)
Definition _create_chunks (fuel : nat) : option (list TextChunk) :=
  create_chunks_loop fuel 0 0.

(** The loop body, piece by piece: the end of the window proposed at
    [start_pos], the test of the skip path, and the next [start_pos]. *)
Definition window_end (start_pos : Z) : Z :=
  let end_pos := Z.min (start_pos + chunk_size self) (len text) in
  let best_break :=
    _find_best_break_point text start_pos end_pos break_points in
  if best_break >? start_pos then best_break else end_pos.

Definition skipped (start_pos : Z) : bool :=
  len (strip (str_slice text start_pos (window_end start_pos)))
  <? min_chunk_size self.

Definition next_start (start_pos : Z) : Z :=
  if skipped start_pos then window_end start_pos
  else Z.max (start_pos + 1) (window_end start_pos - chunk_overlap self).

(** The values [start_pos] takes at the head of the loop. *)
Inductive visited : Z -> Prop :=
| visited_first : visited 0
| visited_next (s : Z) :
    visited s -> s < len text -> visited (next_start s).

(** Position [p] lies in the range of an emitted chunk. *)
Definition covered (chunks : list TextChunk) (p : Z) : Prop :=
  exists c, In c chunks /\ start_char c <= p < end_char c.

(** Position [p] lies in a window the loop visited and skipped. *)
Definition in_skipped_window (p : Z) : Prop :=
  exists s, visited s /\ s < len text /\ skipped s = true
            /\ s <= p < window_end s.
End CreateChunks.

(** [chunk_text] *)
Definition chunk_text (fuel : nat) (text : string) (source_file : string)
    (file_metadata : option (list (string * pyval)))
    : option (list TextChunk) :=
  if String.eqb text "" || (len (strip text) <? min_chunk_size self) then
    Some []
  else
    let cleaned_text := _clean_text text in
    let break_points := _find_break_points cleaned_text in
    _create_chunks cleaned_text break_points source_file file_metadata fuel.
End Chunker.

End TextChunker.

(* ===================================================================== *)
(** * lib/local_vector_db.py *)
(* ===================================================================== *)

(** The part of the FAISS and NumPy libraries that [LocalVectorDB] calls. *)
Module Faiss.
Import Py.

(** [faiss.IndexFlatIP]: the dimension [d] and the stored rows, in the
    order they were added. *)
Record IndexFlatIP : Type := mkIndex {
  d : Z;
  xb : list (list Q)
}.

Definition ntotal (ix : IndexFlatIP) : Z := Z.of_nat (List.length (xb ix)).

(** [faiss.IndexFlatIP(dimension)]: a missing dimension is a [TypeError]. *)
Definition new_IndexFlatIP (dimension : option Z) : exn + IndexFlatIP :=
  match dimension with
  | Some n => inr {| d := n; xb := [] |}
  | None => inl (TypeError "IndexFlatIP: wrong argument type")
  end.

(** [np.vstack(vectors)]: the rows must exist and have one length. *)
Definition vstack (vectors : list (list Q)) : exn + list (list Q) :=
  match vectors with
  | [] => inl (ValueError "need at least one array to concatenate")
  | v :: rest =>
      if forallb (fun w => Nat.eqb (List.length w) (List.length v)) rest
      then inr vectors
      else inl (ValueError "all the input array dimensions must match")
  end.

(** The second component of [x.shape] for a stacked array. *)
Definition columns (x : list (list Q)) : Z :=
  match x with
  | v :: _ => Z.of_nat (List.length v)
  | [] => 0
  end.

(** [index.add(x)]: asserts [x.shape[1] == index.d], then appends. *)
Definition add (ix : IndexFlatIP) (x : list (list Q)) : exn + IndexFlatIP :=
  if columns x =? d ix
  then inr {| d := d ix; xb := xb ix ++ x |}
  else inl (AssertionError "d == self.d").

Fixpoint inner (x y : list Q) : Q :=
  match x, y with
  | a :: x', b :: y' => (a * b + inner x' y')%Q
  | _, _ => 0%Q
  end.

(** Every stored row with its inner product and its position. *)
Definition scored (ix : IndexFlatIP) (query : list Q) : list (Q * Z) :=
  combine (map (inner query) (xb ix))
          (map Z.of_nat (seq 0 (List.length (xb ix)))).

(** [index.search(x, k)] for one query row: asserts the dimension and
    [k > 0]; returns [k] pairs (score, position) by descending score, the
    earlier position first among equal scores, filled up with position
    [-1] when the index holds fewer than [k] rows (the score of such an
    entry is not read by the caller). *)
Definition search (ix : IndexFlatIP) (query : list Q) (k : Z)
    : exn + list (Q * Z) :=
  if negb (Z.of_nat (List.length query) =? d ix)
  then inl (AssertionError "d == self.d")
  else if negb (k >? 0) then inl (AssertionError "k > 0")
  else
    let hits := firstn (Z.to_nat k) (sorted_desc fst (scored ix query)) in
    inr (hits ++ repeat (0%Q, -1) (Z.to_nat k - List.length hits)).

End Faiss.

Module LocalVectorDB.
Import Py.

(** [class EmbeddingResult] of [embeddings_generator.py] *)
Record EmbeddingResult : Type := mkEmbedding {
  emb_chunk_id : string;
  embedding : list Q;
  emb_source_file : string;
  emb_content : string;
  emb_metadata : list (string * pyval);
  model_name : string;
  embedding_dim : Z
}.

(** [class SearchResult] *)
Record SearchResult : Type := mkResult {
  chunk_id : string;
  content : pyval;
  source_file : pyval;
  score : Q;
  metadata : list (string * pyval)
}.

(** The attributes of a [LocalVectorDB] object. *)
Record LocalVectorDB : Type := mkDB {
  index : option Faiss.IndexFlatIP;
  db_metadata : list (string * list (string * pyval));
  dimension : option Z;
  is_trained : bool
}.

(** The object [__init__] builds when no index is persisted. *)
Definition empty_db : LocalVectorDB :=
  {| index := None; db_metadata := []; dimension := None; is_trained := false |}.

(** [create_index]: returns the result and the object after the call. *)
Definition create_index (self : LocalVectorDB) (dim : option Z)
    : bool * LocalVectorDB :=
  (* self.dimension = dimension *)
  let self :=
    {| index := index self; db_metadata := db_metadata self;
       dimension := dim; is_trained := is_trained self |} in
  match Faiss.new_IndexFlatIP dim with
  | inr ix =>
      (* self.index = faiss.IndexFlatIP(dimension); self.is_trained = True *)
      (true,
       {| index := Some ix; db_metadata := db_metadata self;
          dimension := dimension self; is_trained := true |})
  | inl _ => (false, self)
  end.


(** The dictionary [upsert_embeddings] stores for one record:
    [{'source_file': .., 'content': .., 'model_name': ..,
      'embedding_dim': .., **emb.metadata}] *)
Definition stored_metadata (emb : EmbeddingResult) : list (string * pyval) :=
  dict_update
    [ ("source_file", VStr (emb_source_file emb));
      ("content", VStr (emb_content emb));
      ("model_name", VStr (model_name emb));
      ("embedding_dim", VInt (embedding_dim emb)) ]
    (emb_metadata emb).

(** The [for emb in embeddings] loop on [self.metadata]. *)
Definition store_all (embeddings : list EmbeddingResult)
    (m : list (string * list (string * pyval)))
    : list (string * list (string * pyval)) :=
  fold_left (fun m emb => dict_set (emb_chunk_id emb) (stored_metadata emb) m)
            embeddings m.

Definition with_metadata (self : LocalVectorDB)
    (m : list (string * list (string * pyval))) : LocalVectorDB :=
  {| index := index self; db_metadata := m; dimension := dimension self;
     is_trained := is_trained self |}.

Definition with_index (self : LocalVectorDB) (ix : Faiss.IndexFlatIP)
    : LocalVectorDB :=
  {| index := Some ix; db_metadata := db_metadata self;
     dimension := dimension self; is_trained := is_trained self |}.

(** [upsert_embeddings]: returns the result and the object after the call.
    [_save_index] writes the object to disk, catches its own exceptions and
    leaves the object as it is. *)
Definition upsert_embeddings (self : LocalVectorDB)
    (embeddings : list EmbeddingResult) : bool * LocalVectorDB :=
  match is_trained self, embeddings with
  | false, [] => (false, self)
  | trained, _ =>
      let self :=
        match trained, embeddings with
        | false, first :: _ =>
            snd (create_index self (Some (embedding_dim first)))
        | _, _ => self
        end in
      (* vectors.append(..); self.metadata[emb.chunk_id] = {..} *)
      let vectors := map embedding embeddings in
      let self := with_metadata self (store_all embeddings (db_metadata self)) in
      match Faiss.vstack vectors with
      | inl _ => (false, self)
      | inr vectors_array =>
          match index self with
          | None => (false, self)
          | Some ix =>
              match Faiss.add ix vectors_array with
              | inl _ => (false, self)
              | inr ix' => (true, with_index self ix')
              end
          end
      end
  end.

(** The loop of [search] over [zip(scores[0], indices[0])]; [None] stands
    for an exception raised by an index or key lookup. *)
Fixpoint collect_results (m : list (string * list (string * pyval)))
    (hits : list (Q * Z)) : option (list SearchResult) :=
  match hits with
  | [] => Some []
  | (hit_score, idx) :: rest =>
      if idx =? -1 then Some []
      else
        let chunk_ids := dict_keys m in
        if idx <? Z.of_nat (List.length chunk_ids) then
          match getitem chunk_ids idx with
          | None => None
          | Some cid =>
              match dict_get cid m with
              | None => None
              | Some md =>
                  let result :=
                    {| chunk_id := cid;
                       content := match dict_get "content" md with
                                  | Some v => v
                                  | None => VStr ""
                                  end;
                       source_file := match dict_get "source_file" md with
                                      | Some v => v
                                      | None => VStr ""
                                      end;
                       score := hit_score;
                       metadata := md |} in
                  option_map (cons result) (collect_results m rest)
              end
          end
        else collect_results m rest
  end.

(** [search] *)
Definition search (self : LocalVectorDB) (query_embedding : list Q)
    (top_k : Z) : list SearchResult :=
  match is_trained self, index self with
  | true, Some ix =>
      match Faiss.search ix query_embedding (Z.min top_k (Faiss.ntotal ix)) with
      | inl _ => []
      | inr hits =>
          match collect_results (db_metadata self) hits with
          | Some results => results
          | None => []
          end
      end
  | _, _ => []
  end.

(** [get_stats] *)
Definition get_stats (self : LocalVectorDB) : list (string * pyval) :=
  match is_trained self, index self with
  | true, Some ix =>
      [ ("total_vectors", VInt (Faiss.ntotal ix));
        ("dimension", match dimension self with
                      | Some n => VInt n
                      | None => VNone
                      end);
        ("is_trained", VBool (is_trained self));
        ("index_type", VStr "faiss_local");
        ("metadata_entries", VInt (Z.of_nat (List.length (db_metadata self)))) ]
  | _, _ => [ ("total_vectors", VInt 0); ("dimension", VInt 0) ]
  end.

End LocalVectorDB.

(* ===================================================================== *)
(** * lib/search_api.py *)
(* ===================================================================== *)

Module SearchAPI.
Import Py.
Export LocalVectorDB (SearchResult, mkResult, chunk_id, content, source_file,
                      score, metadata, EmbeddingResult, embedding).

(** [class SearchQuery]; [filters] defaults to [None]. *)
Record SearchQuery : Type := mkQuery {
  query_text : string;
  search_type : string;
  top_k : Z;
  min_score : Q;
  filters : option (list (string * pyval))
}.

(** [class SearchResponse] *)
Record SearchResponse : Type := mkResponse {
  query : SearchQuery;
  results : list SearchResult;
  total_results : Z;
  search_time_ms : Q;
  response_search_type : string;
  response_metadata : list (string * pyval)
}.

(** One value of the dictionary [combined_results]. *)
Record combined : Type := mkCombined {
  result : SearchResult;
  vector_score : Q;
  keyword_score : Q;
  combined_score : Q
}.

Definition set_score (r : SearchResult) (s : Q) : SearchResult :=
  {| chunk_id := chunk_id r; content := content r;
     source_file := source_file r; score := s; metadata := metadata r |}.

(** The first loop of [_combine_search_results]. *)
Definition add_vector_result (combined_results : list (string * combined))
    (r : SearchResult) : list (string * combined) :=
  dict_set (chunk_id r)
    {| result := r; vector_score := score r; keyword_score := 0;
       combined_score := score r * (7 # 10) |}
    combined_results.

(** The second loop of [_combine_search_results]. *)
Definition add_keyword_result (combined_results : list (string * combined))
    (r : SearchResult) : list (string * combined) :=
  match dict_get (chunk_id r) combined_results with
  | Some item =>
      dict_set (chunk_id r)
        {| result := result item; vector_score := vector_score item;
           keyword_score := score r;
           combined_score := combined_score item + score r * (3 # 10) |}
        combined_results
  | None =>
      dict_set (chunk_id r)
        {| result := r; vector_score := 0; keyword_score := score r;
           combined_score := score r * (3 # 10) |}
        combined_results
  end.

(** [_combine_search_results] *)
Definition _combine_search_results
    (vector_results keyword_results : list SearchResult) : list SearchResult :=
  let combined_results := fold_left add_vector_result vector_results [] in
  let combined_results :=
    fold_left add_keyword_result keyword_results combined_results in
  let sorted_results :=
    sorted_desc combined_score (dict_values combined_results) in
  map (fun item => set_score (result item) (combined_score item)) sorted_results.

(** The inner loop of [_apply_filters] with its [break]: the value of
    [include] for one result. *)
Fixpoint include_result (md : list (string * pyval))
    (filters : list (string * pyval)) : bool :=
  match filters with
  | [] => true
  | (filter_key, filter_value) :: rest =>
      match dict_get filter_key md with
      | Some x =>
          match filter_value with
          | VList l => if negb (py_in x l) then false else include_result md rest
          | _ => if negb (py_eq x filter_value) then false
                 else include_result md rest
          end
      | None => include_result md rest
      end
  end.

(** [_apply_filters] *)
Fixpoint _apply_filters (results : list SearchResult)
    (filters : list (string * pyval)) : list SearchResult :=
  match results with
  | [] => []
  | r :: rest =>
      if include_result (metadata r) filters
      then r :: _apply_filters rest filters
      else _apply_filters rest filters
  end.

(** ** The words of the specification, for comparison with the code *)

(** The score of a chunk id in a result set, 0 when the id is absent. *)
Definition spec_score (cid : string) (rs : list SearchResult) : Q :=
  match find (fun r => String.eqb (chunk_id r) cid) rs with
  | Some r => score r
  | None => 0%Q
  end.

(** [combined_score = 0.7 * vector_score + 0.3 * keyword_score] *)
Definition spec_combined_score (cid : string)
    (vector_results keyword_results : list SearchResult) : Q :=
  (7 # 10) * spec_score cid vector_results
  + (3 # 10) * spec_score cid keyword_results.

(** One filter key on one result: a key absent from the metadata does not
    apply; otherwise the value equals the filter value, or is a member of
    it when the filter value is a list. *)
Definition spec_filter_ok (md : list (string * pyval))
    (kv : string * pyval) : bool :=
  match dict_get (fst kv) md with
  | None => true
  | Some x =>
      match snd kv with
      | VList l => py_in x l
      | v => py_eq x v
      end
  end.

(** ** The dictionary [combined_results] after the two loops, in closed
    form, for result lists without repeated chunk ids *)

Definition has_id (cid : string) (r : SearchResult) : bool :=
  String.eqb (chunk_id r) cid.

(** The chunk ids of a result list, in order. *)
Definition ids (rs : list SearchResult) : list string := map chunk_id rs.

Definition vector_entry (keyword_results : list SearchResult)
    (r : SearchResult) : combined :=
  match find (has_id (chunk_id r)) keyword_results with
  | Some k =>
      {| result := r; vector_score := score r; keyword_score := score k;
         combined_score := score r * (7 # 10) + score k * (3 # 10) |}
  | None =>
      {| result := r; vector_score := score r; keyword_score := 0;
         combined_score := score r * (7 # 10) |}
  end.

Definition keyword_entry (k : SearchResult) : combined :=
  {| result := k; vector_score := 0; keyword_score := score k;
     combined_score := score k * (3 # 10) |}.

Definition merged (vector_results keyword_results : list SearchResult)
    : list (string * combined) :=
  map (fun r => (chunk_id r, vector_entry keyword_results r)) vector_results
  ++ map (fun k => (chunk_id k, keyword_entry k))
       (filter (fun k => negb (existsb (has_id (chunk_id k)) vector_results))
          keyword_results).

Section API.
(** [self.embeddings_generator.generate_embedding(text, ..)], which
    raises when the model fails *)
Variable generate_embedding : string -> exn + EmbeddingResult.
(** [self.vector_db.search(embedding, index_name, top_k=..)], whatever
    the backend *)
Variable vector_db_search : list Q -> string -> Z -> exn + list SearchResult.
(** [self.embeddings_generator.model_name], [self.index_name] *)
Variable model_name : string.
Variable index_name : string.
(** What the clock gives: the elapsed milliseconds and the timestamp. *)
Variable elapsed_ms : Q.
Variable timestamp : string.

(** [_vector_search]: every exception is caught and gives [[]]. *)
Definition _vector_search (q : SearchQuery) : list SearchResult :=
  match generate_embedding (query_text q) with
  | inl _ => []
  | inr query_embedding =>
      match vector_db_search (embedding query_embedding) index_name (top_k q)
      with
      | inl _ => []
      | inr results => results
      end
  end.

(** [_keyword_search]: the keywords it extracts are not used, the
    result is the empty list. *)
Definition _keyword_search (q : SearchQuery) : list SearchResult := [].

(** [_hybrid_search] *)
Definition _hybrid_search (q : SearchQuery) : list SearchResult :=
  let vector_results := _vector_search q in
  let keyword_results := _keyword_search q in
  _combine_search_results vector_results keyword_results.

(** The selected search path; the last branch is the [raise]. *)
Definition search_path (q : SearchQuery) : exn + list SearchResult :=
  if String.eqb (search_type q) "vector" then inr (_vector_search q)
  else if String.eqb (search_type q) "keyword" then inr (_keyword_search q)
  else if String.eqb (search_type q) "hybrid" then inr (_hybrid_search q)
  else inl (ValueError ("Unsupported search type: " ++ search_type q)).

(** What [search] does with the results of the path. *)
Definition post_process (q : SearchQuery) (results : list SearchResult)
    : list SearchResult :=
  let filtered_results :=
    filter (fun r => Qle_bool (min_score q) (score r)) results in
  let filtered_results :=
    match filters q with
    | Some (f :: fs) => _apply_filters filtered_results (f :: fs)
    | _ => filtered_results
    end in
  slice filtered_results 0 (top_k q).

(** The [try] block of [search]. *)
Definition search_try (q : SearchQuery) : exn + SearchResponse :=
  match search_path q with
  | inl e => inl e
  | inr results =>
      let final_results := post_process q results in
      inr {| query := q;
             results := final_results;
             total_results := Z.of_nat (List.length final_results);
             search_time_ms := elapsed_ms;
             response_search_type := search_type q;
             response_metadata :=
               [ ("index_name", VStr index_name);
                 ("model_name", VStr model_name);
                 ("timestamp", VStr timestamp) ] |}
  end.

(** [search]: the [try] block and its [except Exception] handler. *)
Definition search (q : SearchQuery) : SearchResponse :=
  match search_try q with
  | inr response => response
  | inl e =>
      {| query := q;
         results := [];
         total_results := 0;
         search_time_ms := 0;
         response_search_type := search_type q;
         response_metadata := [ ("error", VStr (exn_str e)) ] |}
  end.

(** The embedding provider or the vector store raises on the query. *)
Definition vector_path_raises (q : SearchQuery) : Prop :=
  (exists e, generate_embedding (query_text q) = inl e)
  \/ (exists emb e,
        generate_embedding (query_text q) = inr emb
        /\ vector_db_search (embedding emb) index_name (top_k q) = inl e).

(** The search type is one of the three the dispatch knows. *)
Definition supported (q : SearchQuery) : Prop :=
  search_type q = "vector"%string \/ search_type q = "keyword"%string
  \/ search_type q = "hybrid"%string.
End API.

End SearchAPI.

(* ===================================================================== *)
(** * lib/vector_database.py: the manager over the local store *)
(* ===================================================================== *)

Module Manager.
Import Py.

(** [VectorDatabaseManager.search] with [db_type = 'local']:
    [self.db.search(query_embedding, index_name, top_k)].  The local
    store ignores the index name and catches every exception. *)
Definition search (db : LocalVectorDB.LocalVectorDB)
    (query_embedding : list Q) (index_name : string) (top_k : Z)
    : exn + list LocalVectorDB.SearchResult :=
  inr (LocalVectorDB.search db query_embedding top_k).

(** [VectorDatabaseManager.create_index(index_name, dimension, **kwargs)]
    and [upsert_embeddings(embeddings, index_name)] over the local
    store, which ignores the index name and the keyword arguments. *)
Definition create_index (db : LocalVectorDB.LocalVectorDB)
    (index_name : string) (dimension : Z)
    : bool * LocalVectorDB.LocalVectorDB :=
  LocalVectorDB.create_index db (Some dimension).

Definition upsert_embeddings (db : LocalVectorDB.LocalVectorDB)
    (embeddings : list LocalVectorDB.EmbeddingResult) (index_name : string)
    : bool * LocalVectorDB.LocalVectorDB :=
  LocalVectorDB.upsert_embeddings db embeddings.

End Manager.

(* ===================================================================== *)
(** * lib/text_chunker.py: files and directories *)
(* ===================================================================== *)

Module ChunkFiles.
Import Py TextChunker.

(** [c.lower()] on the code points 0..255: A-Z and the capital letters
    of Latin-1 (0xC0-0xD6, 0xD8-0xDE) move up by 32. *)
Definition lower_char (c : ascii) : ascii :=
  if between 65 90 c || between 192 214 c || between 216 222 c
  then ascii_of_nat (nat_of_ascii c + 32)
  else c.

(** [s.lower()] *)
Definition lower (s : string) : string :=
  string_of_list_ascii (map lower_char (list_ascii_of_string s)).

(** [PurePosixPath(p).name] and [PurePosixPath(p).suffix] for a path
    that does not end in a slash, to run the functions below on examples
    (they take the three path functions as parameters). *)
Definition posix_name (path : string) : string :=
  string_of_list_ascii
    (fold_left (fun acc c => if Regex.is_char "/" c then [] else acc ++ [c])
               (list_ascii_of_string path) []).

Definition posix_suffix (path : string) : string :=
  match split_at_dot (rev (list_ascii_of_string (posix_name path))) with
  | Some ((_ :: _) as ext_rev, _ :: _) =>
      string_of_list_ascii ("."%char :: rev ext_rev)
  | _ => ""
  end.

Section Files.
(** [Path(p).stem], [Path(p).name], [Path(p).suffix] *)
Variable path_stem : string -> string.
Variable path_name : string -> string.
Variable path_suffix : string -> string.
(** [open(p, 'r', encoding='utf-8').read()], which raises when the file
    cannot be opened or decoded *)
Variable read_file : string -> exn + string.
(** [Path(d).rglob('*')] and [p.is_file()] *)
Variable rglob : string -> list string.
Variable is_file : string -> bool.
(** [self] *)
Variable self : ClaimsTextChunker.

(** [chunk_file]; the fuel is that of [chunk_text]. *)
Definition chunk_file (fuel : nat) (file_path : string)
    : option (list TextChunk) :=
  match read_file file_path with
  | inr text =>
      let file_metadata :=
        [ ("file_path", VStr file_path);
          ("file_size", VInt (len text));
          ("file_type", VStr (path_suffix file_path)) ] in
      chunk_text path_stem self fuel text (path_name file_path)
        (Some file_metadata)
  | inl _ => Some []
  end.

(** The loop of [chunk_directory] over the paths [rglob] yields. *)
Fixpoint chunk_paths (fuel : nat) (file_extensions : list string)
    (paths : list string) : option (list TextChunk) :=
  match paths with
  | [] => Some []
  | file_path :: rest =>
      if is_file file_path
         && existsb (String.eqb (lower (path_suffix file_path)))
              file_extensions
      then
        match chunk_file fuel file_path with
        | Some chunks =>
            option_map (app chunks) (chunk_paths fuel file_extensions rest)
        | None => None
        end
      else chunk_paths fuel file_extensions rest
  end.

(** [chunk_directory]; [file_extensions] defaults to [None]. *)
Definition chunk_directory (fuel : nat) (directory_path : string)
    (file_extensions : option (list string)) : option (list TextChunk) :=
  let file_extensions :=
    match file_extensions with
    | Some exts => exts
    | None => [".txt"]
    end in
  chunk_paths fuel file_extensions (rglob directory_path).
End Files.

End ChunkFiles.

(* ===================================================================== *)
(** * lib/search_api.py: keywords *)
(* ===================================================================== *)

Module Keywords.
Import Py Regex ChunkFiles.

(** The class [\w] on the code points 0..255: letters, digits, the
    underscore, and the letters and numeric signs of Latin-1. *)
Definition is_word_char (c : ascii) : bool :=
  is_digit c || is_upper c || is_lower c || is_char "_" c
  || between 170 170 c || between 178 179 c || between 181 181 c
  || between 185 186 c || between 188 190 c || between 192 214 c
  || between 216 246 c || between 248 255 c.

(** [re.findall(r'\b\w+\b', s)]: the maximal runs of word characters,
    from left to right; [cur] is the run being read, reversed. *)
Fixpoint words_from (cur : list ascii) (s : list ascii) : list string :=
  match s with
  | [] =>
      match cur with
      | [] => []
      | _ :: _ => [string_of_list_ascii (rev cur)]
      end
  | x :: s' =>
      if is_word_char x then words_from (x :: cur) s'
      else
        match cur with
        | [] => words_from [] s'
        | _ :: _ => string_of_list_ascii (rev cur) :: words_from [] s'
        end
  end.

Definition findall_words (s : string) : list string :=
  words_from [] (list_ascii_of_string s).

Definition stop_words : list string :=
  ["the"; "a"; "an"; "and"; "or"; "but"; "in"; "on"; "at"; "to"; "for";
   "of"; "with"; "by"]%string.

(** [_extract_keywords] *)
Definition _extract_keywords (text : string) : list string :=
  let words := findall_words (lower text) in
  filter (fun word => (2 <? len word)
                      && negb (existsb (String.eqb word) stop_words))
         words.

End Keywords.

(* ===================================================================== *)
(** * lib/embeddings_generator.py: records from chunks *)
(* ===================================================================== *)

Module Generator.
Import Py.

(** [str(i)] for [i >= 0] *)
Definition str_nat (i : nat) : string :=
  NilZero.string_of_uint (Nat.to_uint i).

(** [chunk_ids[i] if chunk_ids and i < len(chunk_ids) else f"chunk_{i}"] *)
Definition batch_chunk_id (chunk_ids : option (list string)) (i : nat)
    : string :=
  match chunk_ids with
  | Some l =>
      match nth_error l i with
      | Some cid => cid
      | None => "chunk_" ++ str_nat i
      end
  | None => "chunk_" ++ str_nat i
  end.

(** [metadata_list[i] if metadata_list and i < len(metadata_list) else {}] *)
Definition batch_metadata (metadata_list : option (list (list (string * pyval))))
    (i : nat) : list (string * pyval) :=
  match metadata_list with
  | Some l =>
      match nth_error l i with
      | Some md => md
      | None => []
      end
  | None => []
  end.

(** [metadata.get('source_file', 'unknown')] as the [source_file: str]
    of the record.  [None]: the dictionary holds a value that is not a
    string, which the record of [EmbeddingResult] here does not
    represent. *)
Definition batch_source_file (md : list (string * pyval)) : option string :=
  match dict_get "source_file" md with
  | None => Some "unknown"
  | Some (VStr s) => Some s
  | Some _ => None
  end.

(** The dictionary [generate_embeddings_from_chunks] builds for one
    chunk: [{'source_file': .., 'chunk_index': .., 'start_char': ..,
    'end_char': .., 'chunk_size': len(chunk.content), **chunk.metadata}] *)
Definition chunk_metadata (chunk : TextChunker.TextChunk)
    : list (string * pyval) :=
  dict_update
    [ ("source_file", VStr (TextChunker.source_file chunk));
      ("chunk_index", VInt (TextChunker.chunk_index chunk));
      ("start_char", VInt (TextChunker.start_char chunk));
      ("end_char", VInt (TextChunker.end_char chunk));
      ("chunk_size", VInt (len (TextChunker.content chunk))) ]
    (TextChunker.metadata chunk).

Section Generator.
(** [self.model.encode(texts, ..)]: one row per text, or an exception *)
Variable encode : list string -> exn + list (list Q).
(** [self.model_name], [self.embedding_dim] *)
Variable model_name : string.
Variable embedding_dim : Z.

(** The loop [for i, (text, embedding) in enumerate(zip(texts,
    embeddings))] of [generate_embeddings_batch], from index [i]. *)
Fixpoint batch_results (chunk_ids : option (list string))
    (metadata_list : option (list (list (string * pyval))))
    (i : nat) (pairs : list (string * list Q))
    : option (list LocalVectorDB.EmbeddingResult) :=
  match pairs with
  | [] => Some []
  | (text, embedding) :: rest =>
      let chunk_id := batch_chunk_id chunk_ids i in
      let metadata := batch_metadata metadata_list i in
      match batch_source_file metadata with
      | None => None
      | Some source_file =>
          option_map
            (cons (LocalVectorDB.mkEmbedding
                     (* chunk_id *) chunk_id
                     (* embedding *) embedding
                     (* source_file *) source_file
                     (* content *) text
                     (* metadata *) metadata
                     (* model_name *) model_name
                     (* embedding_dim *) embedding_dim))
            (batch_results chunk_ids metadata_list (S i) rest)
      end
  end.

(** [generate_embeddings_batch]: an exception of the model is logged and
    raised again.  An empty list counts as no list for [chunk_ids] and
    [metadata_list]; the lookups above give the same for both. *)
Definition generate_embeddings_batch (texts : list string)
    (chunk_ids : option (list string))
    (metadata_list : option (list (list (string * pyval))))
    : option (exn + list LocalVectorDB.EmbeddingResult) :=
  match encode texts with
  | inl e => Some (inl e)
  | inr embeddings =>
      option_map inr
        (batch_results chunk_ids metadata_list 0 (combine texts embeddings))
  end.

(** [generate_embeddings_from_chunks] *)
Definition generate_embeddings_from_chunks
    (chunks : list TextChunker.TextChunk)
    : option (exn + list LocalVectorDB.EmbeddingResult) :=
  let texts := map TextChunker.content chunks in
  let chunk_ids := map TextChunker.chunk_id chunks in
  let metadata_list := map chunk_metadata chunks in
  generate_embeddings_batch texts (Some chunk_ids) (Some metadata_list).
End Generator.

End Generator.

(* ===================================================================== *)
(** * embeddings_pipeline.py: the storage steps over the local store *)
(* ===================================================================== *)

Module Pipeline.
Import Py.

Section Pipeline.
(** [self.index_name] *)
Variable index_name : string.

(** [_setup_vector_database]: the outcome and the store after the call *)
Definition _setup_vector_database (db : LocalVectorDB.LocalVectorDB)
    (embeddings : list LocalVectorDB.EmbeddingResult)
    : (exn + unit) * LocalVectorDB.LocalVectorDB :=
  match embeddings with
  | [] => (inl (ValueError "No embeddings to store"), db)
  | first :: _ =>
      let embedding_dim := LocalVectorDB.embedding_dim first in
      let (success, db) := Manager.create_index db index_name embedding_dim in
      if success then (inr tt, db)
      else (inl (RuntimeError ("Failed to create vector database index: "
                               ++ index_name)), db)
  end.

(** [_store_embeddings] *)
Definition _store_embeddings (db : LocalVectorDB.LocalVectorDB)
    (embeddings : list LocalVectorDB.EmbeddingResult)
    : (exn + unit) * LocalVectorDB.LocalVectorDB :=
  match embeddings with
  | [] => (inl (ValueError "No embeddings to store"), db)
  | _ :: _ =>
      let (success, db) := Manager.upsert_embeddings db embeddings index_name in
      if success then (inr tt, db)
      else (inl (RuntimeError "Failed to store embeddings in vector database"),
            db)
  end.

(** Steps 3 and 4 of [run_full_pipeline]: an exception of step 3 ends
    the [try] block before step 4. *)
Definition store_steps (db : LocalVectorDB.LocalVectorDB)
    (embeddings : list LocalVectorDB.EmbeddingResult)
    : (exn + unit) * LocalVectorDB.LocalVectorDB :=
  match _setup_vector_database db embeddings with
  | (inl e, db) => (inl e, db)
  | (inr _, db) => _store_embeddings db embeddings
  end.
End Pipeline.

End Pipeline.

(* ===================================================================== *)
(** * Predicates used in the statements *)
(* ===================================================================== *)

Module Props.
Import Py TextChunker.

(** What holds of one emitted chunk of a text: its range is a non-empty
    window inside the text, of at most [chunk_size] characters, that ends
    where the loop ends the window proposed at its start; its content is
    the stripped slice and has at least [min_chunk_size] characters; its
    metadata records the length of the content. *)
Definition chunk_ok (self : ClaimsTextChunker) (text : string)
    (break_points : list Z) (c : TextChunk) : Prop :=
  0 <= start_char c < end_char c
  /\ end_char c <= len text
  /\ end_char c - start_char c <= chunk_size self
  /\ end_char c = window_end self text break_points (start_char c)
  /\ content c = strip (str_slice text (start_char c) (end_char c))
  /\ min_chunk_size self <= len (content c)
  /\ dict_get "chunk_size" (metadata c) = Some (VInt (len (content c))).

(** Consecutive emitted chunks: the later one starts after the start of
    the earlier one, and at most [chunk_overlap] characters before its
    end. *)
Definition follows (self : ClaimsTextChunker) (a b : TextChunk) : Prop :=
  start_char a < start_char b
  /\ end_char a - chunk_overlap self <= start_char b.

(** A list of characters that does not start with whitespace. *)
Definition no_lead (l : list ascii) : Prop :=
  match l with
  | [] => True
  | c :: _ => isspace c = false
  end.

(** [strip] on the list of characters. *)
Definition strip_list (l : list ascii) : list ascii :=
  rev (lstrip_list (rev (lstrip_list l))).

(** The entry of the metadata map for a record. *)
Definition entry (emb : LocalVectorDB.EmbeddingResult)
    : string * list (string * pyval) :=
  (LocalVectorDB.emb_chunk_id emb, LocalVectorDB.stored_metadata emb).

(** The store holds exactly the given records, in this order: it is
    trained, its index has dimension [d] and the vectors of the records
    as rows, its metadata map has one entry per record under the chunk id
    of the record; the ids differ and every vector has [d] components. *)
Definition holds (records : list LocalVectorDB.EmbeddingResult) (d : Z)
    (self : LocalVectorDB.LocalVectorDB) : Prop :=
  LocalVectorDB.is_trained self = true
  /\ LocalVectorDB.index self
     = Some (Faiss.mkIndex d (map LocalVectorDB.embedding records))
  /\ LocalVectorDB.db_metadata self = map entry records
  /\ NoDup (map LocalVectorDB.emb_chunk_id records)
  /\ Forall (fun emb =>
               Z.of_nat (List.length (LocalVectorDB.embedding emb)) = d)
            records.

(** The search result of a stored record for a query. *)
Definition result_of (query : list Q) (emb : LocalVectorDB.EmbeddingResult)
    : LocalVectorDB.SearchResult :=
  let md := LocalVectorDB.stored_metadata emb in
  {| LocalVectorDB.chunk_id := LocalVectorDB.emb_chunk_id emb;
     LocalVectorDB.content := match dict_get "content" md with
                              | Some v => v
                              | None => VStr ""
                              end;
     LocalVectorDB.source_file := match dict_get "source_file" md with
                                  | Some v => v
                                  | None => VStr ""
                                  end;
     LocalVectorDB.score := Faiss.inner query (LocalVectorDB.embedding emb);
     LocalVectorDB.metadata := md |}.

(** A hit of the index that stands for a stored record: the inner
    product of the query with the vector of the record, at the position
    of the record. *)
Definition hit_of (records : list LocalVectorDB.EmbeddingResult)
    (query : list Q) (hit : Q * Z) (emb : LocalVectorDB.EmbeddingResult)
    : Prop :=
  exists p, hit = (Faiss.inner query (LocalVectorDB.embedding emb),
                   Z.of_nat p)
            /\ nth_error records p = Some emb.

(** The number a string of decimal digits stands for. *)
Definition parse_index (s : string) : option N :=
  option_map N.of_uint (NilEmpty.uint_of_string s).

(** The keys of the metadata [_create_chunks] gives a chunk. *)
Definition chunk_metadata_keys : list string :=
  ["file_metadata"; "chunk_size"; "is_complete_section"].

(** The record [generate_embeddings_from_chunks] builds from a chunk and
    the row the model returns for its content. *)
Definition record_of (model_name : string) (embedding_dim : Z)
    (cr : TextChunker.TextChunk * list Q) : LocalVectorDB.EmbeddingResult :=
  LocalVectorDB.mkEmbedding
    (TextChunker.chunk_id (fst cr)) (snd cr)
    (TextChunker.source_file (fst cr)) (TextChunker.content (fst cr))
    (Generator.chunk_metadata (fst cr)) model_name embedding_dim.

(** What holds of the dictionary [combined_results] at every point of
    the two loops of [_combine_search_results]: one entry per key, and
    the result of an entry is an input result with the chunk id of the
    key. *)
Definition entries_ok (P : LocalVectorDB.SearchResult -> Prop)
    (acc : list (string * SearchAPI.combined)) : Prop :=
  NoDup (dict_keys acc)
  /\ Forall (fun kv =>
               LocalVectorDB.chunk_id (SearchAPI.result (snd kv)) = fst kv
               /\ P (SearchAPI.result (snd kv))) acc.

(** An entry written by the first loop and not touched by the second:
    the combined score is 0.7 times the score of its result, which is
    one of the vector results. *)
Definition vector_only (V : list LocalVectorDB.SearchResult)
    (kv : string * SearchAPI.combined) : Prop :=
  SearchAPI.combined_score (snd kv)
  = (LocalVectorDB.score (SearchAPI.result (snd kv)) * (7 # 10))%Q
  /\ In (SearchAPI.result (snd kv)) V.

End Props.

(* ===================================================================== *)
(** * Sample inputs *)
(* ===================================================================== *)

Module Samples.
Import Py TextChunker.

(** A text of [n] letters without a break point. *)
Definition unbroken (n : nat) : string := string_of_list_ascii (repeat "a"%char n).

(** A chunker with small windows. *)
Definition small_chunker : ClaimsTextChunker :=
  {| chunk_size := 24; chunk_overlap := 4; min_chunk_size := 8 |}.

Definition sample_text : string :=
  "  Policy Number: CPP-456.  Loss occurred on April 7th! Water damage in unit 4.  ".

(** Two records of dimension 2, one of dimension 3, and a store that
    holds the first record. *)
Definition emb_a : LocalVectorDB.EmbeddingResult :=
  LocalVectorDB.mkEmbedding "doc_chunk_000" [1%Q; 0%Q] "doc.txt"
    "Policy number CPP-456" [] "bge-large" 2.

Definition emb_b : LocalVectorDB.EmbeddingResult :=
  LocalVectorDB.mkEmbedding "doc_chunk_001" [0%Q; 1%Q] "doc.txt"
    "Loss occurred on April 7th" [] "bge-large" 2.

Definition emb_a_again : LocalVectorDB.EmbeddingResult :=
  LocalVectorDB.mkEmbedding "doc_chunk_000" [0%Q; 1%Q] "doc.txt"
    "Water damage in unit 4" [] "bge-large" 2.

Definition emb_wide : LocalVectorDB.EmbeddingResult :=
  LocalVectorDB.mkEmbedding "doc_chunk_002" [1%Q; 0%Q; 0%Q] "doc.txt"
    "Water damage in unit 4" [] "other-model" 3.

(** A record whose declared dimension is not the length of its vector. *)
Definition emb_declared_wrong : LocalVectorDB.EmbeddingResult :=
  LocalVectorDB.mkEmbedding "doc_chunk_003" [1%Q; 0%Q] "doc.txt"
    "Adjuster assigned" [] "bge-large" 1024.

Definition db_one : LocalVectorDB.LocalVectorDB :=
  snd (LocalVectorDB.upsert_embeddings
         (snd (LocalVectorDB.create_index LocalVectorDB.empty_db (Some 2)))
         [emb_a]).

Definition db_two : LocalVectorDB.LocalVectorDB :=
  snd (LocalVectorDB.upsert_embeddings db_one [emb_b]).

(** The results of the hybrid scenario of the specification. *)
Definition vector_A : LocalVectorDB.SearchResult :=
  LocalVectorDB.mkResult "A" (VStr "chunk A") (VStr "a.txt") (9 # 10)
    [("kind", VStr "claim")].

Definition keyword_A : LocalVectorDB.SearchResult :=
  LocalVectorDB.mkResult "A" (VStr "chunk A") (VStr "a.txt") (5 # 10)
    [("kind", VStr "claim")].

Definition vector_C : LocalVectorDB.SearchResult :=
  LocalVectorDB.mkResult "C" (VStr "chunk C") (VStr "c.txt") (9 # 10)
    [("kind", VStr "claim")].

Definition keyword_B : LocalVectorDB.SearchResult :=
  LocalVectorDB.mkResult "B" (VStr "chunk B") (VStr "b.txt") (8 # 10)
    [("kind", VStr "policy")].

(** An embedding provider whose model is not loaded, one that works,
    and a store that returns two results. *)
Definition failing_embedder (text : string)
    : exn + LocalVectorDB.EmbeddingResult :=
  inl (RuntimeError "model not loaded").

Definition working_embedder (text : string)
    : exn + LocalVectorDB.EmbeddingResult :=
  inr (LocalVectorDB.mkEmbedding "query" [1%Q; 0%Q] "unknown" text
         [("query", VBool true)] "bge-large" 2).

Definition two_results (query : list Q) (index_name : string) (top_k : Z)
    : exn + list LocalVectorDB.SearchResult :=
  inr [vector_A; keyword_B].

Definition vector_query : SearchAPI.SearchQuery :=
  SearchAPI.mkQuery "property loss claim" "vector" 5 0 None.

Definition fuzzy_query : SearchAPI.SearchQuery :=
  SearchAPI.mkQuery "property loss claim" "fuzzy" 5 0 None.

(** A model that gives every text the same vector. *)
Definition constant_encode (texts : list string) : exn + list (list Q) :=
  inr (map (fun _ => [1%Q; 0%Q]) texts).

(** A directory with two files of the same name, and an unreadable one. *)
Definition sample_rglob (directory : string) : list string :=
  ["claims/a/report.txt"; "claims/notes.md"; "claims/b/report.TXT";
   "claims/broken.txt"]%string.

Definition sample_read_file (path : string) : exn + string :=
  if String.eqb path "claims/a/report.txt" then inr sample_text
  else if String.eqb path "claims/b/report.TXT"
  then inr "Loss occurred on April 7th! Water damage in unit 4."%string
  else if String.eqb path "claims/notes.md" then inr "notes"%string
  else inl (ValueError "invalid start byte").

End Samples.

(* ===================================================================== *)
(** * Properties of the chunker *)
(* ===================================================================== *)

Module ChunkerSpec.
Import Py Regex TextChunker.

Section Loop.
Variable path_stem : string -> string.
Variable self : ClaimsTextChunker.
Variable text : string.
Variable break_points : list Z.
Variable source_file : string.
Variable file_metadata : option (list (string * pyval)).

Abbreviation loop :=
  (create_chunks_loop path_stem self text break_points source_file
     file_metadata).
Abbreviation wend := (window_end self text break_points).
Abbreviation skip := (skipped self text break_points).
Abbreviation next := (next_start self text break_points).

Lemma find_best_break_point_le (start end_ : Z) :
  _find_best_break_point self text start end_ break_points <= end_.
Proof.
  unfold _find_best_break_point.
  destruct (find _ (rev break_points)) as [bp|] eqn:Hfind; [|lia].
  apply find_some in Hfind. destruct Hfind as [_ Hbp].
  apply andb_true_iff in Hbp. destruct Hbp as [_ Hle].
  apply Z.leb_le in Hle. exact Hle.
Qed.

(** The window proposed at [start] ends inside the text. *)
Lemma window_end_le_len (start : Z) : start < len text -> wend start <= len text.
Proof.
  intros Hlt. unfold window_end.
  set (e0 := Z.min (start + chunk_size self) (len text)).
  pose proof (find_best_break_point_le start e0) as Hb.
  destruct (_ >? start); lia.
Qed.

(** With [chunk_size >= 1] the window is not empty. *)
Lemma window_end_gt (start : Z) :
  1 <= chunk_size self -> start < len text -> start < wend start.
Proof.
  intros Hcs Hlt. unfold window_end.
  set (e0 := Z.min (start + chunk_size self) (len text)).
  destruct (_ >? start) eqn:Hgt.
  - apply Z.gtb_lt in Hgt. exact Hgt.
  - lia.
Qed.

Lemma next_start_gt (start : Z) :
  1 <= chunk_size self -> start < len text -> start < next start.
Proof.
  intros Hcs Hlt. unfold next_start.
  pose proof (window_end_gt start Hcs Hlt).
  destruct (skip start); lia.
Qed.

Lemma next_start_le_window_end (start : Z) :
  1 <= chunk_size self -> 0 <= chunk_overlap self -> start < len text ->
  next start <= wend start.
Proof.
  intros Hcs Hov Hlt. unfold next_start.
  pose proof (window_end_gt start Hcs Hlt).
  destruct (skip start); lia.
Qed.

(** One iteration of the loop, in terms of the pieces of its body. *)
Lemma loop_step (fuel : nat) (start idx : Z) :
  start < len text ->
  loop (S fuel) start idx =
    if skip start then loop fuel (next start) idx
    else
      option_map
        (cons (mkTextChunk
                 (strip (str_slice text start (wend start)))
                 (make_chunk_id path_stem source_file idx)
                 source_file idx start (wend start)
                 [ ("file_metadata",
                    VDict (match file_metadata with
                           | Some d => d
                           | None => []
                           end));
                   ("chunk_size",
                    VInt (len (strip (str_slice text start (wend start)))));
                   ("is_complete_section",
                    VBool (_is_complete_section
                             (strip (str_slice text start (wend start))))) ]))
        (loop fuel (next start) (idx + 1)).
Proof.
  intros Hlt. apply Z.ltb_lt in Hlt.
  cbn [create_chunks_loop]. rewrite Hlt.
  unfold next_start, skipped, window_end.
  destruct (_ <? min_chunk_size self); reflexivity.
Qed.

Lemma loop_done (fuel : nat) (start idx : Z) :
  len text <= start -> loop fuel start idx = Some [].
Proof.
  intros Hge. apply Z.ltb_ge in Hge.
  destruct fuel; cbn [create_chunks_loop]; rewrite Hge; reflexivity.
Qed.

(** Enough fuel: the distance to the end of the text. *)
Lemma loop_terminates (fuel : nat) :
  1 <= chunk_size self ->
  forall start idx,
    len text - start <= Z.of_nat fuel ->
    exists chunks, loop fuel start idx = Some chunks.
Proof.
  intros Hcs. induction fuel as [|fuel IH]; intros start idx Hfuel.
  - exists []. apply loop_done. lia.
  - destruct (Z.lt_ge_cases start (len text)) as [Hlt|Hge].
    + rewrite (loop_step _ _ _ Hlt).
      pose proof (next_start_gt start Hcs Hlt) as Hnext.
      destruct (skip start).
      * apply IH. lia.
      * destruct (IH (next start) (idx + 1)) as [chunks Hchunks]; [lia|].
        rewrite Hchunks. eexists. reflexivity.
    + exists []. apply loop_done. exact Hge.
Qed.

(** More fuel does not change a result. *)
Lemma loop_fuel_mono (fuel : nat) :
  forall start idx chunks fuel',
    loop fuel start idx = Some chunks -> (fuel <= fuel')%nat ->
    loop fuel' start idx = Some chunks.
Proof.
  induction fuel as [|fuel IH]; intros start idx chunks fuel' Hrun Hle.
  - destruct (Z.lt_ge_cases start (len text)) as [Hlt|Hge].
    + apply Z.ltb_lt in Hlt. cbn [create_chunks_loop] in Hrun.
      rewrite Hlt in Hrun. discriminate.
    + rewrite (loop_done _ _ _ Hge) in Hrun. rewrite <- Hrun.
      apply loop_done. exact Hge.
  - destruct (Z.lt_ge_cases start (len text)) as [Hlt|Hge].
    + destruct fuel' as [|fuel']; [lia|].
      rewrite (loop_step fuel _ _ Hlt) in Hrun.
      rewrite (loop_step fuel' _ _ Hlt).
      destruct (skip start).
      * apply IH; [exact Hrun | lia].
      * destruct (loop fuel (next start) (idx + 1)) as [rest|] eqn:Hrest;
          [|discriminate].
        rewrite (IH _ _ rest fuel' Hrest); [exact Hrun | lia].
    + rewrite (loop_done _ _ _ Hge) in Hrun. rewrite <- Hrun.
      apply loop_done. exact Hge.
Qed.

(** The indices the loop hands out from [idx] on, and the identifiers. *)
Lemma loop_indices (fuel : nat) :
  forall start idx chunks,
    loop fuel start idx = Some chunks ->
    map chunk_index chunks
      = map (fun i => idx + Z.of_nat i) (seq 0 (List.length chunks))
    /\ Forall (fun c => chunk_id c
                        = (path_stem source_file ++ "_chunk_"
                           ++ fmt_03d (chunk_index c))%string) chunks
    /\ Forall (fun c => TextChunker.source_file c = source_file) chunks.
Proof.
  induction fuel as [|fuel IH]; intros start idx chunks Hrun.
  - destruct (Z.lt_ge_cases start (len text)) as [Hlt|Hge].
    + apply Z.ltb_lt in Hlt. cbn [create_chunks_loop] in Hrun.
      rewrite Hlt in Hrun. discriminate.
    + rewrite (loop_done _ _ _ Hge) in Hrun. inversion Hrun. subst.
      repeat split; constructor.
  - destruct (Z.lt_ge_cases start (len text)) as [Hlt|Hge].
    + rewrite (loop_step _ _ _ Hlt) in Hrun.
      destruct (skip start).
      * apply (IH _ _ _ Hrun).
      * destruct (loop fuel (next start) (idx + 1)) as [rest|] eqn:Hrest;
          [|discriminate].
        inversion Hrun. subst chunks. clear Hrun.
        destruct (IH _ _ _ Hrest) as (Hidx & Hids & Hsrc).
        repeat split.
        -- cbn [map List.length seq chunk_index]. f_equal; [lia|].
           rewrite Hidx. rewrite <- seq_shift, map_map.
           apply map_ext. intros i. lia.
        -- constructor; [reflexivity | exact Hids].
        -- constructor; [reflexivity | exact Hsrc].
    + rewrite (loop_done _ _ _ Hge) in Hrun. inversion Hrun. subst.
      repeat split; constructor.
Qed.

(** From a visited [start] on, every position is in an emitted chunk
    or in a skipped window. *)
Lemma loop_covers (fuel : nat) :
  1 <= chunk_size self -> 0 <= chunk_overlap self ->
  forall start idx chunks,
    visited self text break_points start ->
    loop fuel start idx = Some chunks ->
    forall p, start <= p < len text ->
              covered chunks p \/ in_skipped_window self text break_points p.
Proof.
  intros Hcs Hov.
  induction fuel as [|fuel IH]; intros start idx chunks Hvis Hrun p Hp.
  - assert (Hlt : (start <? len text) = true) by (apply Z.ltb_lt; lia).
    cbn [create_chunks_loop] in Hrun. rewrite Hlt in Hrun. discriminate.
  - assert (Hlt : start < len text) by lia.
    rewrite (loop_step _ _ _ Hlt) in Hrun.
    pose proof (visited_next _ _ _ _ Hvis Hlt) as Hvis'.
    pose proof (next_start_le_window_end start Hcs Hov Hlt) as Hnext.
    destruct (Z.lt_ge_cases p (wend start)) as [Hin|Hout].
    + destruct (skip start) eqn:Hskip.
      * right. exists start. repeat split; try assumption; lia.
      * destruct (loop fuel (next start) (idx + 1)) as [rest|];
          [|discriminate].
        inversion Hrun. subst chunks. left.
        eexists. split; [left; reflexivity|]. cbn. lia.
    + assert (Hp' : next start <= p < len text) by lia.
      destruct (skip start) eqn:Hskip.
      * apply (IH _ _ _ Hvis' Hrun p Hp').
      * destruct (loop fuel (next start) (idx + 1)) as [rest|] eqn:Hrest;
          [|discriminate].
        inversion Hrun. subst chunks.
        destruct (IH _ _ _ Hvis' Hrest p Hp') as [(c & Hc & Hr)|Hs].
        -- left. exists c. split; [right; exact Hc | exact Hr].
        -- right. exact Hs.
Qed.
End Loop.

(** Enough fuel for [chunk_text]: the length of the cleaned text. *)
Lemma chunk_text_returns path_stem self text source_file file_metadata :
  1 <= chunk_size self ->
  exists chunks, forall fuel,
    (String.length (_clean_text text) <= fuel)%nat ->
    chunk_text path_stem self fuel text source_file file_metadata = Some chunks.
Proof.
  intros Hcs. unfold chunk_text, _create_chunks.
  destruct (_ || _).
  - exists []. reflexivity.
  - set (cleaned := _clean_text text).
    destruct (loop_terminates path_stem self cleaned
                (_find_break_points cleaned) source_file file_metadata
                (String.length cleaned) Hcs 0 0) as [chunks Hchunks].
    + unfold len. lia.
    + exists chunks. intros fuel Hfuel.
      apply (loop_fuel_mono _ _ _ _ _ _ _ _ _ _ _ Hchunks Hfuel).
Qed.

(** C1, as amended.  With [chunk_size >= 1] and [chunk_overlap >= 0],
    [chunk_text] on an accepted text returns a list of chunks such that
    every character position of the cleaned text lies in the
    [[start_char, end_char)] range of an emitted chunk or in a window that
    the loop visited and skipped because its stripped content is shorter
    than [min_chunk_size]; when no visited window is skipped, the emitted
    ranges cover the whole cleaned text. *)
Theorem chunk_text_covers_up_to_skipped_windows
    path_stem self text source_file file_metadata (fuel : nat) :
  1 <= chunk_size self -> 0 <= chunk_overlap self ->
  text <> ""%string -> min_chunk_size self <= len (strip text) ->
  (String.length (_clean_text text) <= fuel)%nat ->
  let cleaned := _clean_text text in
  let break_points := _find_break_points cleaned in
  exists chunks,
    chunk_text path_stem self fuel text source_file file_metadata = Some chunks
    /\ (forall p, 0 <= p < len cleaned ->
          covered chunks p \/ in_skipped_window self cleaned break_points p)
    /\ ((forall s, visited self cleaned break_points s -> s < len cleaned ->
                   skipped self cleaned break_points s = false) ->
        forall p, 0 <= p < len cleaned -> covered chunks p).
Proof.
  intros Hcs Hov Hne Hmin Hfuel cleaned break_points.
  destruct (chunk_text_returns path_stem self text source_file file_metadata Hcs)
    as [chunks Hchunks].
  specialize (Hchunks fuel Hfuel).
  exists chunks. split; [exact Hchunks|].
  assert (Hcov : forall p, 0 <= p < len cleaned ->
            covered chunks p \/ in_skipped_window self cleaned break_points p).
  { unfold chunk_text in Hchunks.
    apply String.eqb_neq in Hne. apply Z.ltb_ge in Hmin.
    rewrite Hne, Hmin in Hchunks. cbn [orb] in Hchunks.
    intros p Hp.
    apply (loop_covers path_stem self cleaned break_points source_file
             file_metadata fuel Hcs Hov 0 0 chunks
             (visited_first self cleaned break_points) Hchunks p Hp). }
  split; [exact Hcov|].
  intros Hnoskip p Hp.
  destruct (Hcov p Hp) as [Hc|(s & Hvis & Hlt & Hskip & _)]; [exact Hc|].
  rewrite (Hnoskip s Hvis Hlt) in Hskip. discriminate.
Qed.

Lemma chunk_text_covers_up_to_skipped_windows_witness :
  exists chunks,
    chunk_text posix_stem Samples.small_chunker 80 Samples.sample_text
      "claims/report.txt" None = Some chunks
    /\ forall p, 0 <= p < len (_clean_text Samples.sample_text) ->
         covered chunks p
         \/ in_skipped_window Samples.small_chunker
              (_clean_text Samples.sample_text)
              (_find_break_points (_clean_text Samples.sample_text)) p.
Proof.
  destruct (chunk_text_covers_up_to_skipped_windows posix_stem
              Samples.small_chunker Samples.sample_text "claims/report.txt"
              None 80) as (chunks & Hrun & Hcov & _).
  - vm_compute. discriminate.
  - vm_compute. discriminate.
  - discriminate.
  - vm_compute. discriminate.
  - vm_compute. lia.
  - exists chunks. split; [exact Hrun | exact Hcov].
Defined.

(** C1, as stated, fails: with the default parameters a text of 550
    letters is accepted, one chunk [[0, 512)] is emitted, the window
    [[462, 550)] is skipped as too small, and positions 512..549 of the
    cleaned text lie in no emitted range. *)
Lemma chunk_text_leaves_tail_uncovered :
  let text := Samples.unbroken 550 in
  text <> ""%string
  /\ min_chunk_size default_chunker <= len (strip text)
  /\ exists chunks,
       chunk_text posix_stem default_chunker 550 text "claim.txt" None
         = Some chunks
       /\ map (fun c => (start_char c, end_char c)) chunks = [(0, 512)]
       /\ 0 <= 530 < len (_clean_text text)
       /\ ~ covered chunks 530.
Proof.
  cbv zeta. split; [discriminate|]. split; [vm_compute; discriminate|].
  destruct (chunk_text posix_stem default_chunker 550 (Samples.unbroken 550)
              "claim.txt" None) as [chunks|] eqn:Hrun;
    [|vm_compute in Hrun; discriminate].
  exists chunks. split; [reflexivity|].
  assert (Hranges : map (fun c => (start_char c, end_char c)) chunks = [(0, 512)]).
  { assert (Hopt : option_map (map (fun c => (start_char c, end_char c)))
                     (chunk_text posix_stem default_chunker 550
                        (Samples.unbroken 550) "claim.txt" None)
                   = Some [(0, 512)]) by (vm_compute; reflexivity).
    rewrite Hrun in Hopt. cbn in Hopt. congruence. }
  split; [exact Hranges|].
  split; [vm_compute; split; [discriminate | reflexivity]|].
  intros (c & Hin & Hrange).
  apply (in_map (fun c => (start_char c, end_char c))) in Hin.
  rewrite Hranges in Hin. destruct Hin as [Heq|[]].
  inversion Heq. lia.
Qed.

(** C8.  The [chunk_index] fields of the list [chunk_text] returns are
    0, 1, 2, ... in order, and every [chunk_id] is the stem of the source
    file, ["_chunk_"] and the index in three digits; with
    [chunk_size >= 1] the list is returned. *)
Theorem chunk_text_indices_sequential
    path_stem self text source_file file_metadata :
  (forall fuel chunks,
      chunk_text path_stem self fuel text source_file file_metadata
        = Some chunks ->
      map chunk_index chunks = map Z.of_nat (seq 0 (List.length chunks))
      /\ Forall (fun c => chunk_id c
                          = (path_stem source_file ++ "_chunk_"
                             ++ fmt_03d (chunk_index c))%string) chunks)
  /\ (1 <= chunk_size self ->
      exists chunks, forall fuel,
        (String.length (_clean_text text) <= fuel)%nat ->
        chunk_text path_stem self fuel text source_file file_metadata
          = Some chunks).
Proof.
  split.
  - intros fuel chunks Hrun. unfold chunk_text in Hrun.
    destruct (_ || _).
    + inversion Hrun. split; [reflexivity | constructor].
    + destruct (loop_indices _ _ _ _ _ _ _ _ _ _ Hrun) as (Hidx & Hids & _).
      split; [|exact Hids].
      rewrite Hidx. apply map_ext. intros i. lia.
  - apply chunk_text_returns.
Qed.

Lemma chunk_text_indices_sequential_witness :
  exists chunks,
    chunk_text posix_stem Samples.small_chunker 80 Samples.sample_text
      "claims/report.txt" None = Some chunks
    /\ map chunk_index chunks = map Z.of_nat (seq 0 (List.length chunks))
    /\ map chunk_id chunks
       = ["report_chunk_000"; "report_chunk_001"; "report_chunk_002";
          "report_chunk_003"]%string.
Proof.
  destruct (chunk_text_indices_sequential posix_stem Samples.small_chunker
              Samples.sample_text "claims/report.txt" None)
    as [Hseq Hreturns].
  destruct Hreturns as [chunks Hchunks]; [vm_compute; discriminate|].
  assert (Hrun : chunk_text posix_stem Samples.small_chunker 80
                   Samples.sample_text "claims/report.txt" None = Some chunks)
    by (apply Hchunks; vm_compute; lia).
  exists chunks. split; [exact Hrun|].
  split; [apply (Hseq 80%nat chunks Hrun)|].
  assert (Hopt : option_map (map chunk_id)
                   (chunk_text posix_stem Samples.small_chunker 80
                      Samples.sample_text "claims/report.txt" None)
                 = Some ["report_chunk_000"; "report_chunk_001";
                         "report_chunk_002"; "report_chunk_003"]%string)
    by (vm_compute; reflexivity).
  rewrite Hrun in Hopt. cbn in Hopt. congruence.
Defined.

(** C9.  For every text, every list of break points, every
    [chunk_size >= 1], every [chunk_overlap] and every [min_chunk_size]:
    at every start position inside the text, [max(start+1, end -
    chunk_overlap)] is greater than [start], the next start position is
    that value on the emit path and [end] on the skip path, and it is
    greater than [start] on both; the loop of [_create_chunks] returns
    after at most [len(text)] iterations. *)
Theorem create_chunks_terminates
    path_stem self text break_points source_file file_metadata :
  1 <= chunk_size self ->
  (forall start, start < len text ->
     let end_pos := window_end self text break_points start in
     start < Z.max (start + 1) (end_pos - chunk_overlap self)
     /\ (skipped self text break_points start = false ->
         next_start self text break_points start
           = Z.max (start + 1) (end_pos - chunk_overlap self))
     /\ (skipped self text break_points start = true ->
         next_start self text break_points start = end_pos)
     /\ start < next_start self text break_points start)
  /\ (forall fuel start chunk_index, start < len text ->
        create_chunks_loop path_stem self text break_points source_file
          file_metadata (S fuel) start chunk_index
        = if skipped self text break_points start
          then create_chunks_loop path_stem self text break_points source_file
                 file_metadata fuel (next_start self text break_points start)
                 chunk_index
          else option_map
                 (cons (mkTextChunk
                          (strip (str_slice text start
                                    (window_end self text break_points start)))
                          (make_chunk_id path_stem source_file chunk_index)
                          source_file chunk_index start
                          (window_end self text break_points start)
                          [ ("file_metadata",
                             VDict (match file_metadata with
                                    | Some d => d
                                    | None => []
                                    end));
                            ("chunk_size",
                             VInt (len (strip (str_slice text start
                                     (window_end self text break_points start)))));
                            ("is_complete_section",
                             VBool (_is_complete_section
                                      (strip (str_slice text start
                                         (window_end self text break_points
                                            start))))) ]))
                 (create_chunks_loop path_stem self text break_points
                    source_file file_metadata fuel
                    (next_start self text break_points start)
                    (chunk_index + 1)))
  /\ exists chunks, forall fuel,
       (String.length text <= fuel)%nat ->
       _create_chunks path_stem self text break_points source_file
         file_metadata fuel = Some chunks.
Proof.
  intros Hcs. split; [|split].
  - intros start Hlt end_pos.
    pose proof (next_start_gt self text break_points start Hcs Hlt) as Hnext.
    unfold next_start in *. subst end_pos.
    destruct (skipped self text break_points start).
    + repeat split; try lia; intros; try discriminate; reflexivity.
    + repeat split; try lia; intros; try discriminate; reflexivity.
  - intros fuel start idx Hlt. apply loop_step. exact Hlt.
  - unfold _create_chunks.
    destruct (loop_terminates path_stem self text break_points source_file
                file_metadata (String.length text) Hcs 0 0)
      as [chunks Hchunks].
    + unfold len. lia.
    + exists chunks. intros fuel Hfuel.
      apply (loop_fuel_mono _ _ _ _ _ _ _ _ _ _ _ Hchunks Hfuel).
Qed.

Lemma create_chunks_terminates_witness :
  0 < next_start Samples.small_chunker (_clean_text Samples.sample_text)
        (_find_break_points (_clean_text Samples.sample_text)) 0
  /\ exists chunks,
       _create_chunks posix_stem Samples.small_chunker
         (_clean_text Samples.sample_text)
         (_find_break_points (_clean_text Samples.sample_text))
         "claims/report.txt" None 80 = Some chunks.
Proof.
  destruct (create_chunks_terminates posix_stem Samples.small_chunker
              (_clean_text Samples.sample_text)
              (_find_break_points (_clean_text Samples.sample_text))
              "claims/report.txt" None) as (Hstep & _ & chunks & Hchunks).
  - vm_compute. discriminate.
  - split.
    + apply (Hstep 0). vm_compute. reflexivity.
    + exists chunks. apply Hchunks. vm_compute. lia.
Defined.

End ChunkerSpec.

(* ===================================================================== *)
(** * Facts about dictionaries, slices and the descending sort *)
(* ===================================================================== *)

Module PyFacts.
Import Py.

Section DictFacts.
Context {V : Type}.
Implicit Types (d : list (string * V)) (k : string) (v : V).

Lemma dict_get_set_eq k v d : dict_get k (dict_set k v d) = Some v.
Proof.
  induction d as [|[k' v'] d IH]; cbn.
  - rewrite String.eqb_refl. reflexivity.
  - destruct (String.eqb k k') eqn:E; cbn.
    + rewrite String.eqb_refl. reflexivity.
    + rewrite E. exact IH.
Qed.

Lemma dict_get_set_ne k k' v d :
  k <> k' -> dict_get k' (dict_set k v d) = dict_get k' d.
Proof.
  intros Hne. induction d as [|[k0 v0] d IH]; cbn.
  - destruct (String.eqb k' k) eqn:E; [|reflexivity].
    apply String.eqb_eq in E. congruence.
  - destruct (String.eqb k k0) eqn:E; cbn.
    + apply String.eqb_eq in E. subst k0.
      destruct (String.eqb k' k) eqn:E'; [|reflexivity].
      apply String.eqb_eq in E'. congruence.
    + rewrite IH. reflexivity.
Qed.

Lemma dict_mem_In k d : dict_mem k d = true <-> In k (dict_keys d).
Proof.
  unfold dict_mem. induction d as [|[k' v'] d IH]; cbn.
  - split; [discriminate | tauto].
  - destruct (String.eqb k k') eqn:E.
    + apply String.eqb_eq in E. subst. tauto.
    + apply String.eqb_neq in E. rewrite IH. split; [tauto|].
      intros [H|H]; [congruence | exact H].
Qed.

Lemma dict_get_In k d : In k (dict_keys d) -> exists v, dict_get k d = Some v.
Proof.
  intros Hin. apply dict_mem_In in Hin. unfold dict_mem in Hin.
  destruct (dict_get k d) as [v|]; [exists v; reflexivity | discriminate].
Qed.

(** Writing an existing key keeps the keys; a new key goes last. *)
Lemma dict_keys_set k v d :
  dict_keys (dict_set k v d)
    = if dict_mem k d then dict_keys d else dict_keys d ++ [k].
Proof.
  unfold dict_mem, dict_keys. induction d as [|[k' v'] d IH]; cbn.
  - reflexivity.
  - destruct (String.eqb k k') eqn:E; cbn.
    + apply String.eqb_eq in E. subst. reflexivity.
    + rewrite IH. destruct (dict_get k d); reflexivity.
Qed.

Lemma dict_set_new k v d : dict_mem k d = false -> dict_set k v d = d ++ [(k, v)].
Proof.
  unfold dict_mem. induction d as [|[k' v'] d IH]; cbn; intros Hmem.
  - reflexivity.
  - destruct (String.eqb k k'); [discriminate|].
    rewrite (IH Hmem). reflexivity.
Qed.

Lemma dict_set_length k v d :
  List.length (dict_set k v d)
    = if dict_mem k d then List.length d else S (List.length d).
Proof.
  pose proof (dict_keys_set k v d) as H.
  apply (f_equal (@List.length string)) in H.
  unfold dict_keys in H. rewrite length_map in H. rewrite H.
  destruct (dict_mem k d); rewrite ?length_app, length_map; cbn; lia.
Qed.

Lemma dict_mem_set k k' v d :
  dict_mem k' d = true -> dict_mem k' (dict_set k v d) = true.
Proof.
  unfold dict_mem. intros H.
  destruct (String.eqb k k') eqn:E.
  - apply String.eqb_eq in E. subst. rewrite dict_get_set_eq. reflexivity.
  - apply String.eqb_neq in E. rewrite (dict_get_set_ne _ _ _ _ E). exact H.
Qed.
End DictFacts.

(** [l[:k]] has at most [k] elements when [k >= 0]. *)
Lemma slice_prefix_length {A : Type} (l : list A) (k : Z) :
  0 <= k -> Z.of_nat (List.length (slice l 0 k)) <= k.
Proof.
  intros Hk. unfold slice, slice_index.
  assert (H0 : (0 <? 0) = false) by reflexivity. rewrite H0.
  assert (Hk' : (k <? 0) = false) by (apply Z.ltb_ge; exact Hk). rewrite Hk'.
  rewrite length_firstn. lia.
Qed.

Section SortFacts.
Context {A : Type}.
Variable key : A -> Q.

Lemma insert_desc_perm (x : A) (l : list A) :
  Permutation (insert_desc key x l) (x :: l).
Proof.
  induction l as [|y l IH]; cbn.
  - apply Permutation_refl.
  - destruct (Qle_bool (key y) (key x)).
    + apply Permutation_refl.
    + eapply perm_trans; [apply perm_skip, IH | apply perm_swap].
Qed.

Lemma sorted_desc_perm (l : list A) : Permutation (sorted_desc key l) l.
Proof.
  induction l as [|x l IH]; cbn.
  - apply perm_nil.
  - eapply perm_trans; [apply insert_desc_perm | apply perm_skip, IH].
Qed.

Lemma insert_desc_sorted (x : A) (l : list A) :
  StronglySorted (desc key) l -> StronglySorted (desc key) (insert_desc key x l).
Proof.
  induction l as [|y l IH]; cbn; intros Hs.
  - constructor; constructor.
  - destruct (Qle_bool (key y) (key x)) eqn:E.
    + apply Qle_bool_iff in E. constructor; [exact Hs|].
      constructor; [exact E|].
      apply StronglySorted_inv in Hs. destruct Hs as [_ Hall].
      rewrite Forall_forall in *. intros z Hz.
      unfold desc in *. eapply Qle_trans; [apply (Hall z Hz) | exact E].
    + apply StronglySorted_inv in Hs. destruct Hs as [Hs Hall].
      constructor; [apply IH; exact Hs|].
      rewrite Forall_forall in *. intros z Hz.
      apply (Permutation_in _ (insert_desc_perm x l)) in Hz.
      destruct Hz as [Hz|Hz].
      * subst z. unfold desc.
        destruct (Qlt_le_dec (key y) (key x)) as [Hlt|Hle]; [|exact Hle].
        apply Qlt_le_weak in Hlt. apply Qle_bool_iff in Hlt. congruence.
      * apply (Hall z Hz).
Qed.

Lemma sorted_desc_sorted (l : list A) : StronglySorted (desc key) (sorted_desc key l).
Proof.
  induction l as [|x l IH]; cbn.
  - constructor.
  - apply insert_desc_sorted. exact IH.
Qed.

Lemma before_cons (a x y : A) (l : list A) :
  before x y l -> before x y (a :: l).
Proof.
  intros (l1 & l2 & l3 & ->). exists (a :: l1), l2, l3. reflexivity.
Qed.

Lemma before_head (x y : A) (l : list A) : In y l -> before x y (x :: l).
Proof.
  intros Hin. apply in_split in Hin. destruct Hin as (l2 & l3 & ->).
  exists [], l2, l3. reflexivity.
Qed.

Lemma before_inv (a x y : A) (l : list A) :
  before x y (a :: l) -> (a = x /\ In y l) \/ before x y l.
Proof.
  intros (l1 & l2 & l3 & Heq). destruct l1 as [|b l1]; cbn in Heq.
  - inversion Heq. subst. left. split; [reflexivity|].
    apply in_or_app. right. left. reflexivity.
  - inversion Heq. subst. right. exists l1, l2, l3. reflexivity.
Qed.

Lemma insert_desc_keeps_before (a x y : A) (l : list A) :
  before x y l -> before x y (insert_desc key a l).
Proof.
  induction l as [|z l IH]; cbn; intros Hb.
  - destruct Hb as (l1 & l2 & l3 & Heq). destruct l1; discriminate.
  - destruct (Qle_bool (key z) (key a)).
    + apply before_cons. exact Hb.
    + apply before_inv in Hb. destruct Hb as [[-> Hin]|Hb].
      * apply before_head.
        apply (Permutation_in _ (Permutation_sym (insert_desc_perm a l))).
        right. exact Hin.
      * apply before_cons. apply IH. exact Hb.
Qed.

(** The inserted element goes in front of every element of a sorted
    list whose key is not greater. *)
Lemma insert_desc_before (a y : A) (l : list A) :
  StronglySorted (desc key) l -> In y l -> (key y <= key a)%Q ->
  before a y (insert_desc key a l).
Proof.
  induction l as [|z l IH]; cbn; intros Hs Hin Hle; [contradiction|].
  destruct (Qle_bool (key z) (key a)) eqn:E.
  - apply before_head. exact Hin.
  - apply StronglySorted_inv in Hs. destruct Hs as [Hs Hall].
    destruct Hin as [->|Hin].
    + apply Qle_bool_iff in Hle. congruence.
    + apply before_cons. apply IH; assumption.
Qed.

(** Stability: two elements in this order, the second with a key not
    greater than the first, stay in this order. *)
Lemma sorted_desc_stable (x y : A) (l : list A) :
  before x y l -> (key y <= key x)%Q -> before x y (sorted_desc key l).
Proof.
  induction l as [|a l IH]; intros Hb Hle.
  - destruct Hb as (l1 & l2 & l3 & Heq). destruct l1; discriminate.
  - cbn. apply before_inv in Hb. destruct Hb as [[-> Hin]|Hb].
    + apply insert_desc_before; [apply sorted_desc_sorted| |exact Hle].
      apply (Permutation_in _ (Permutation_sym (sorted_desc_perm l))).
      exact Hin.
    + apply insert_desc_keeps_before. apply IH; assumption.
Qed.
End SortFacts.

End PyFacts.

(* ===================================================================== *)
(** * Properties of the local vector store *)
(* ===================================================================== *)

Module StoreSpec.
Import Py PyFacts LocalVectorDB.

(** C2, as amended.  [create_index] on the local backend, called with an
    integer dimension, returns success whether or not an index exists and
    whatever its dimension is: there is no dimension-mismatch error.  The
    object then has the requested dimension, is trained, holds an index of
    that dimension, and its id-to-metadata mapping is unchanged. *)
Theorem create_index_succeeds_and_keeps_metadata
    (self : LocalVectorDB) (n : Z) :
  fst (create_index self (Some n)) = true
  /\ dimension (snd (create_index self (Some n))) = Some n
  /\ is_trained (snd (create_index self (Some n))) = true
  /\ option_map Faiss.d (index (snd (create_index self (Some n)))) = Some n
  /\ db_metadata (snd (create_index self (Some n))) = db_metadata self.
Proof. cbn. repeat split. Qed.

(** C2, as stated, fails on a store of dimension 2 that holds one vector:
    [create_index] with the same dimension returns success and leaves no
    stored vector, and [create_index] with dimension 3 returns success
    and changes the dimension. *)
Lemma create_index_resets_existing_index :
  let self := Samples.db_one in
  is_trained self = true
  /\ option_map Faiss.d (index self) = Some 2
  /\ option_map Faiss.xb (index self) = Some [[1%Q; 0%Q]]
  /\ fst (create_index self (Some 2)) = true
  /\ option_map Faiss.xb (index (snd (create_index self (Some 2)))) = Some []
  /\ fst (create_index self (Some 3)) = true
  /\ dimension (snd (create_index self (Some 3))) = Some 3
  /\ snd (create_index self (Some 3)) <> self.
Proof.
  cbv zeta. repeat split; try reflexivity.
  intros H. apply (f_equal dimension) in H. vm_compute in H. discriminate.
Qed.

Lemma vstack_rows (vectors rows : list (list Q)) :
  Faiss.vstack vectors = inr rows ->
  rows = vectors
  /\ forall v, In v vectors ->
               Z.of_nat (List.length v) = Faiss.columns vectors.
Proof.
  unfold Faiss.vstack. destruct vectors as [|v0 rest]; [discriminate|].
  destruct (forallb _ rest) eqn:Hall; [|discriminate].
  intros H. inversion H. split; [reflexivity|].
  intros v [->|Hin]; [reflexivity|].
  rewrite forallb_forall in Hall. specialize (Hall v Hin).
  apply Nat.eqb_eq in Hall. cbn. lia.
Qed.

(** C3, as amended.  On a trained store, when a record of the batch has
    a vector whose length differs from the dimension of the index,
    [upsert_embeddings] fails and leaves the vector structure, the
    dimension and the trained flag as they were; the id-to-metadata
    mapping is not restored: it holds the entries of every record of the
    batch, written before the vectors are checked. *)
Theorem upsert_mismatch_fails_keeping_vectors
    (self : LocalVectorDB) (ix : Faiss.IndexFlatIP)
    (embeddings : list EmbeddingResult) :
  is_trained self = true -> index self = Some ix ->
  (exists emb, In emb embeddings
               /\ Z.of_nat (List.length (embedding emb)) <> Faiss.d ix) ->
  fst (upsert_embeddings self embeddings) = false
  /\ index (snd (upsert_embeddings self embeddings)) = index self
  /\ dimension (snd (upsert_embeddings self embeddings)) = dimension self
  /\ is_trained (snd (upsert_embeddings self embeddings)) = is_trained self
  /\ db_metadata (snd (upsert_embeddings self embeddings))
     = store_all embeddings (db_metadata self).
Proof.
  intros Htrained Hix (emb & Hin & Hdim).
  unfold upsert_embeddings. rewrite Htrained.
  destruct (Faiss.vstack (map embedding embeddings)) as [e|rows] eqn:Hstack.
  - cbn. repeat split; congruence.
  - cbn [index with_metadata]. rewrite Hix.
    destruct (vstack_rows _ _ Hstack) as [-> Hcols].
    unfold Faiss.add.
    destruct (Faiss.columns (map embedding embeddings) =? Faiss.d ix) eqn:Hc.
    + apply Z.eqb_eq in Hc. exfalso. apply Hdim. rewrite <- Hc.
      apply Hcols. apply in_map. exact Hin.
    + cbn. repeat split; congruence.
Qed.

Lemma upsert_mismatch_fails_keeping_vectors_witness :
  fst (upsert_embeddings Samples.db_one [Samples.emb_b; Samples.emb_wide])
    = false
  /\ index (snd (upsert_embeddings Samples.db_one
                  [Samples.emb_b; Samples.emb_wide]))
     = index Samples.db_one
  /\ db_metadata (snd (upsert_embeddings Samples.db_one
                        [Samples.emb_b; Samples.emb_wide]))
     = store_all [Samples.emb_b; Samples.emb_wide]
         (db_metadata Samples.db_one).
Proof.
  destruct (upsert_mismatch_fails_keeping_vectors Samples.db_one
              (Faiss.mkIndex 2 [[1%Q; 0%Q]])
              [Samples.emb_b; Samples.emb_wide])
    as (Hfail & Hindex & _ & _ & Hmeta).
  - reflexivity.
  - reflexivity.
  - exists Samples.emb_wide. split; [right; left; reflexivity|].
    vm_compute. discriminate.
  - repeat split; assumption.
Defined.

(** C3, as stated, fails: on a store of dimension 2 with one record, the
    upsert of a batch with a record of dimension 3 fails, and afterwards
    the id-to-metadata mapping has three keys instead of one. *)
Lemma upsert_mismatch_changes_metadata :
  let self := Samples.db_one in
  let batch := [Samples.emb_b; Samples.emb_wide] in
  option_map Faiss.d (index self) = Some 2
  /\ Z.of_nat (List.length (embedding Samples.emb_wide)) = 3
  /\ fst (upsert_embeddings self batch) = false
  /\ dict_keys (db_metadata self) = ["doc_chunk_000"]%string
  /\ dict_keys (db_metadata (snd (upsert_embeddings self batch)))
     = ["doc_chunk_000"; "doc_chunk_001"; "doc_chunk_002"]%string
  /\ snd (upsert_embeddings self batch) <> self.
Proof.
  cbv zeta. repeat split; try reflexivity.
  intros H. apply (f_equal (fun s => List.length (db_metadata s))) in H.
  vm_compute in H. discriminate.
Qed.

(** ** The store-level search *)

Lemma collect_results_length m hits results :
  collect_results m hits = Some results ->
  (List.length results <= List.length hits)%nat.
Proof.
  revert results. induction hits as [|[s idx] hits IH]; intros results H.
  - inversion H. cbn. lia.
  - cbn [collect_results] in H.
    destruct (idx =? -1); [inversion H; cbn; lia|].
    destruct (idx <? _).
    + destruct (getitem _ idx) as [cid|]; [|discriminate].
      destruct (dict_get cid m) as [md|]; [|discriminate].
      destruct (collect_results m hits) as [rest|]; [|discriminate].
      inversion H. cbn. specialize (IH rest eq_refl). lia.
    + specialize (IH results H). cbn. lia.
Qed.

Lemma faiss_search_length ix query k hits :
  Faiss.search ix query k = inr hits ->
  0 < k /\ Z.of_nat (List.length hits) = k.
Proof.
  unfold Faiss.search.
  destruct (negb _); [discriminate|].
  destruct (k >? 0) eqn:Hk; [|discriminate]. cbn [negb].
  apply Z.gtb_lt in Hk. intros H. inversion H. split; [exact Hk|].
  rewrite length_app, repeat_length, length_firstn. lia.
Qed.

(** The number of results of a store-level search is bounded by
    [top_k] and by the number of stored vectors. *)
Lemma search_length_bound (self : LocalVectorDB) (query : list Q) (top_k : Z) :
  let n := Z.of_nat (List.length (search self query top_k)) in
  (n = 0 \/ n <= top_k)
  /\ match index self with
     | Some ix => if is_trained self then n <= Faiss.ntotal ix else n = 0
     | None => n = 0
     end.
Proof.
  unfold search.
  destruct (is_trained self); destruct (index self) as [ix|]; cbn;
    try (split; [left; reflexivity | reflexivity]).
  destruct (Faiss.search ix query _) as [e|hits] eqn:Hs;
    [cbn; split; [left; reflexivity | apply Nat2Z.is_nonneg]|].
  apply faiss_search_length in Hs. destruct Hs as [Hk Hlen].
  destruct (collect_results _ hits) as [results|] eqn:Hc;
    [|cbn; split; [left; reflexivity | apply Nat2Z.is_nonneg]].
  apply collect_results_length in Hc. split; [right|]; lia.
Qed.

Lemma get_stats_total_vectors (self : LocalVectorDB) :
  dict_get "total_vectors" (get_stats self)
  = Some (VInt match is_trained self, index self with
               | true, Some ix => Faiss.ntotal ix
               | _, _ => 0
               end).
Proof.
  unfold get_stats.
  destruct (is_trained self); destruct (index self); reflexivity.
Qed.

(** ** Upsert of a chunk id that is already stored *)

Lemma store_all_app b1 b2 m : store_all (b1 ++ b2) m = store_all b2 (store_all b1 m).
Proof. unfold store_all. apply fold_left_app. Qed.

Lemma store_all_get_other k batch m :
  Forall (fun emb => emb_chunk_id emb <> k) batch ->
  dict_get k (store_all batch m) = dict_get k m.
Proof.
  revert m. induction batch as [|emb batch IH]; intros m Hall; [reflexivity|].
  inversion Hall; subst. cbn [store_all fold_left].
  change (dict_get k (store_all batch
            (dict_set (emb_chunk_id emb) (stored_metadata emb) m))
          = dict_get k m).
  rewrite (IH _ H2). apply dict_get_set_ne. assumption.
Qed.

(** The stored keys stay in place; new keys go behind them. *)
Lemma store_all_keys batch m :
  exists extra, dict_keys (store_all batch m) = dict_keys m ++ extra.
Proof.
  revert m. induction batch as [|emb batch IH]; intros m.
  - exists []. rewrite app_nil_r. reflexivity.
  - cbn [store_all fold_left].
    destruct (IH (dict_set (emb_chunk_id emb) (stored_metadata emb) m))
      as [extra Hextra].
    unfold store_all in Hextra. rewrite Hextra, dict_keys_set.
    destruct (dict_mem _ m).
    + exists extra. reflexivity.
    + eexists. rewrite <- app_assoc. reflexivity.
Qed.

Lemma store_all_length batch m :
  (List.length (store_all batch m) <= List.length m + List.length batch)%nat.
Proof.
  revert m. induction batch as [|emb batch IH]; intros m; [cbn; lia|].
  cbn [store_all fold_left List.length].
  specialize (IH (dict_set (emb_chunk_id emb) (stored_metadata emb) m)).
  unfold store_all in IH. rewrite dict_set_length in IH.
  destruct (dict_mem _ m); lia.
Qed.

Lemma store_all_mem k batch m :
  dict_mem k m = true -> dict_mem k (store_all batch m) = true.
Proof.
  revert m. induction batch as [|emb batch IH]; intros m H; [exact H|].
  cbn [store_all fold_left]. apply IH. apply dict_mem_set. exact H.
Qed.

(** A batch with an id that is already stored adds fewer keys than
    records. *)
Lemma store_all_length_duplicate batch m :
  (exists emb, In emb batch /\ dict_mem (emb_chunk_id emb) m = true) ->
  (List.length (store_all batch m) < List.length m + List.length batch)%nat.
Proof.
  revert m. induction batch as [|emb0 batch IH]; intros m (emb & Hin & Hmem).
  - contradiction.
  - cbn [store_all fold_left List.length].
    set (m' := dict_set (emb_chunk_id emb0) (stored_metadata emb0) m).
    destruct Hin as [->|Hin].
    + pose proof (store_all_length batch m') as Hlen.
      unfold store_all in Hlen. subst m'.
      rewrite dict_set_length, Hmem in Hlen. lia.
    + assert (Hlt : (List.length (store_all batch m')
                     < List.length m' + List.length batch)%nat).
      { apply IH. exists emb. split; [exact Hin|].
        apply dict_mem_set. exact Hmem. }
      unfold store_all in Hlt. subst m'.
      rewrite dict_set_length in Hlt.
      destruct (dict_mem (emb_chunk_id emb0) m); lia.
Qed.

(** The last record of the batch with a given id. *)
Lemma last_with_id k (batch : list EmbeddingResult) :
  (exists emb, In emb batch /\ emb_chunk_id emb = k) ->
  exists b1 emb b2,
    batch = b1 ++ emb :: b2 /\ emb_chunk_id emb = k
    /\ Forall (fun e => emb_chunk_id e <> k) b2.
Proof.
  induction batch as [|x batch IH]; intros (emb & Hin & Hid); [contradiction|].
  destruct (existsb (fun e => String.eqb (emb_chunk_id e) k) batch) eqn:Hex.
  - apply existsb_exists in Hex. destruct Hex as (e & He & Heq).
    apply String.eqb_eq in Heq.
    destruct IH as (b1 & emb' & b2 & -> & Hid' & Hall);
      [exists e; split; assumption|].
    exists (x :: b1), emb', b2. repeat split; assumption.
  - assert (Hall : Forall (fun e => emb_chunk_id e <> k) batch).
    { apply Forall_forall. intros e He Heq.
      assert (existsb (fun e => String.eqb (emb_chunk_id e) k) batch = true).
      { apply existsb_exists. exists e. split; [exact He|].
        apply String.eqb_eq. exact Heq. }
      congruence. }
    destruct Hin as [->|Hin].
    + exists [], emb, batch. repeat split; assumption.
    + rewrite Forall_forall in Hall. exfalso. apply (Hall emb Hin Hid).
Qed.

Lemma scored_length ix query :
  List.length (Faiss.scored ix query) = List.length (Faiss.xb ix).
Proof.
  unfold Faiss.scored. rewrite length_combine, !length_map, length_seq. lia.
Qed.

Lemma scored_aux (f : list Q -> Q) (rows : list (list Q)) :
  forall a p v,
    nth_error rows p = Some v ->
    In (f v, Z.of_nat (a + p))
       (combine (map f rows) (map Z.of_nat (seq a (List.length rows)))).
Proof.
  induction rows as [|r rows IH]; intros a p v Hnth.
  - destruct p; discriminate.
  - destruct p as [|p]; cbn in *.
    + inversion Hnth. subst. left. f_equal. f_equal. lia.
    + right. replace (a + S p)%nat with (S a + p)%nat by lia.
      apply IH. exact Hnth.
Qed.

Lemma scored_In ix query p v :
  nth_error (Faiss.xb ix) p = Some v ->
  In (Faiss.inner query v, Z.of_nat p) (Faiss.scored ix query).
Proof. intros H. apply (scored_aux _ _ 0%nat p v H). Qed.

Lemma map_snd_combine {A B : Type} (a : list A) (b : list B) :
  List.length a = List.length b -> map snd (combine a b) = b.
Proof.
  revert b. induction a as [|x a IH]; intros [|y b] Hlen;
    cbn in *; try discriminate; try reflexivity.
  f_equal. apply IH. lia.
Qed.

Lemma scored_positions ix query :
  map snd (Faiss.scored ix query)
  = map Z.of_nat (seq 0 (List.length (Faiss.xb ix))).
Proof.
  unfold Faiss.scored. apply map_snd_combine.
  rewrite !length_map, length_seq. reflexivity.
Qed.

Lemma getitem_nth {A : Type} (l : list A) (i : Z) :
  0 <= i < Z.of_nat (List.length l) ->
  getitem l i = nth_error l (Z.to_nat i).
Proof.
  intros Hi. unfold getitem.
  assert (H1 : (i <? - Z.of_nat (List.length l)) = false) by (apply Z.ltb_ge; lia).
  assert (H2 : (Z.of_nat (List.length l) <=? i) = false) by (apply Z.leb_gt; lia).
  assert (H3 : (i <? 0) = false) by (apply Z.ltb_ge; lia).
  rewrite H1, H2, H3. reflexivity.
Qed.

(** On hits with valid positions the loop of [search] raises nothing:
    it returns one result for every hit whose position is below the
    number of keys, built from the key at that position. *)
Lemma collect_results_total m hits :
  Forall (fun h => 0 <= snd h) hits ->
  exists results,
    collect_results m hits = Some results
    /\ List.length results
       = List.length
           (filter (fun i => i <? Z.of_nat (List.length m)) (map snd hits))
    /\ forall s p cid md,
         In (s, Z.of_nat p) hits ->
         nth_error (dict_keys m) p = Some cid ->
         dict_get cid m = Some md ->
         exists r, In r results /\ chunk_id r = cid /\ metadata r = md
                   /\ score r = s.
Proof.
  induction hits as [|[s0 idx] hits IH]; intros Hall.
  - exists []. repeat split. intros s p cid md [].
  - inversion Hall as [|? ? Hidx Hall']; subst. cbn [snd] in Hidx.
    destruct (IH Hall') as (rest & Hrest & Hlen & Hfind). clear IH.
    cbn [collect_results map filter snd].
    assert (Hneq : (idx =? -1) = false) by (apply Z.eqb_neq; lia).
    rewrite Hneq. unfold dict_keys at 1. rewrite length_map.
    destruct (idx <? Z.of_nat (List.length m)) eqn:Hlt.
    + apply Z.ltb_lt in Hlt.
      rewrite getitem_nth
        by (unfold dict_keys; rewrite length_map; lia).
      destruct (nth_error (dict_keys m) (Z.to_nat idx)) as [cid0|] eqn:Hnth.
      2:{ apply nth_error_None in Hnth. unfold dict_keys in Hnth.
          rewrite length_map in Hnth. lia. }
      destruct (dict_get_In cid0 m (nth_error_In _ _ Hnth)) as [md0 Hmd0].
      rewrite Hmd0, Hrest. cbn [option_map].
      eexists. split; [reflexivity|]. split; [cbn; lia|].
      intros s p cid md [Heq|Hin] Hkey Hget.
      * inversion Heq. subst. rewrite Nat2Z.id in Hnth.
        rewrite Hkey in Hnth. inversion Hnth. subst cid0.
        rewrite Hget in Hmd0. inversion Hmd0. subst md0.
        eexists. split; [left; reflexivity|]. repeat split.
      * destruct (Hfind s p cid md Hin Hkey Hget) as (r & Hr & Hprops).
        exists r. split; [right; exact Hr | exact Hprops].
    + exists rest. split; [exact Hrest|]. split; [exact Hlen|].
      intros s p cid md [Heq|Hin] Hkey Hget.
      * inversion Heq. subst. apply Z.ltb_ge in Hlt.
        assert (p < List.length (dict_keys m))%nat
          by (apply nth_error_Some; congruence).
        unfold dict_keys in *. rewrite length_map in *. lia.
      * apply (Hfind s p cid md Hin Hkey Hget).
Qed.

Lemma filter_length_perm {A : Type} (f : A -> bool) (l l' : list A) :
  Permutation l l' -> List.length (filter f l) = List.length (filter f l').
Proof.
  induction 1 as [|x l l' _ IH|x y l|l l' l'' _ IH1 _ IH2]; cbn.
  - reflexivity.
  - destruct (f x); cbn; lia.
  - destruct (f x), (f y); cbn; lia.
  - lia.
Qed.

Lemma count_below (bound n : nat) :
  forall a,
    List.length
      (filter (fun i => i <? Z.of_nat bound) (map Z.of_nat (seq a n)))
    = Nat.min n (bound - a).
Proof.
  induction n as [|n IH]; intros a; [reflexivity|].
  cbn [seq map filter]. destruct (Z.of_nat a <? Z.of_nat bound) eqn:E.
  - apply Z.ltb_lt in E. cbn [List.length]. rewrite IH. lia.
  - apply Z.ltb_ge in E. rewrite IH. lia.
Qed.

(** A search for at least as many results as there are vectors gets a
    hit for every stored position. *)
Lemma faiss_search_all ix query top_k :
  Z.of_nat (List.length query) = Faiss.d ix ->
  0 < Faiss.ntotal ix -> Faiss.ntotal ix <= top_k ->
  Faiss.search ix query (Z.min top_k (Faiss.ntotal ix))
  = inr (sorted_desc fst (Faiss.scored ix query)).
Proof.
  intros Hd Hpos Hk. unfold Faiss.search.
  replace (Z.min top_k (Faiss.ntotal ix)) with (Faiss.ntotal ix) by lia.
  apply Z.eqb_eq in Hd. rewrite Hd. cbn [negb].
  assert (Hgt : (Faiss.ntotal ix >? 0) = true) by (apply Z.gtb_lt; lia).
  rewrite Hgt. cbn [negb].
  assert (Hlen : List.length (sorted_desc fst (Faiss.scored ix query))
                 = List.length (Faiss.xb ix)).
  { rewrite (Permutation_length (sorted_desc_perm fst _)).
    apply scored_length. }
  unfold Faiss.ntotal. rewrite Nat2Z.id.
  rewrite firstn_all2 by lia. rewrite Hlen, Nat.sub_diag. cbn [repeat].
  rewrite app_nil_r. reflexivity.
Qed.

(** C10.  On a trained store with one metadata key per stored vector,
    an upsert that succeeds and whose batch contains a chunk id that is
    already a key appends every vector of the batch and leaves fewer keys
    than vectors.  Then there is a search that gets one hit per stored
    vector and returns only as many results as there are keys (the hits
    at positions beyond the keys give no result), and one of its results
    is scored with the old vector at a position [p] while its chunk id
    and metadata are those of a record of the batch, whose vector is
    stored at another position. *)
Theorem upsert_duplicate_id_misaligns_search
    (self : LocalVectorDB) (ix : Faiss.IndexFlatIP)
    (batch : list EmbeddingResult) :
  is_trained self = true -> index self = Some ix ->
  List.length (db_metadata self) = List.length (Faiss.xb ix) ->
  (forall emb, In emb batch ->
               Z.of_nat (List.length (embedding emb)) = Faiss.d ix) ->
  (exists emb, In emb batch
               /\ dict_mem (emb_chunk_id emb) (db_metadata self) = true) ->
  let self' := snd (upsert_embeddings self batch) in
  fst (upsert_embeddings self batch) = true
  /\ exists ix',
       index self' = Some ix'
       /\ Faiss.xb ix' = Faiss.xb ix ++ map embedding batch
       /\ (List.length (db_metadata self') < List.length (Faiss.xb ix'))%nat
       /\ exists query top_k hits,
            Faiss.search ix' query (Z.min top_k (Faiss.ntotal ix')) = inr hits
            /\ List.length hits = List.length (Faiss.xb ix')
            /\ List.length (search self' query top_k)
               = List.length (db_metadata self')
            /\ exists p i emb old r,
                 nth_error batch i = Some emb
                 /\ nth_error (Faiss.xb ix') p = Some old
                 /\ nth_error (Faiss.xb ix') (List.length (Faiss.xb ix) + i)
                    = Some (embedding emb)
                 /\ (p < List.length (Faiss.xb ix))%nat
                 /\ In r (search self' query top_k)
                 /\ score r = Faiss.inner query old
                 /\ chunk_id r = emb_chunk_id emb
                 /\ metadata r = stored_metadata emb.
Proof.
  intros Htrained Hix Haligned Hdims (emb0 & Hin0 & Hmem0) self'.
  (* the upsert succeeds *)
  assert (Hrun : upsert_embeddings self batch
                 = (true,
                    with_index
                      (with_metadata self (store_all batch (db_metadata self)))
                      (Faiss.mkIndex (Faiss.d ix)
                         (Faiss.xb ix ++ map embedding batch)))).
  { unfold upsert_embeddings. rewrite Htrained.
    destruct batch as [|e0 batch']; [contradiction|].
    assert (Hstack : Faiss.vstack (map embedding (e0 :: batch'))
                     = inr (map embedding (e0 :: batch'))).
    { cbn [map Faiss.vstack].
      replace (forallb _ (map embedding batch')) with true; [reflexivity|].
      symmetry. apply forallb_forall. intros v Hv. apply Nat.eqb_eq.
      apply in_map_iff in Hv. destruct Hv as (e & <- & He).
      pose proof (Hdims e (or_intror He)).
      pose proof (Hdims e0 (or_introl eq_refl)). lia. }
    rewrite Hstack. cbn [index with_metadata]. rewrite Hix.
    unfold Faiss.add.
    replace (Faiss.columns (map embedding (e0 :: batch')) =? Faiss.d ix)
      with true; [reflexivity|].
    symmetry. apply Z.eqb_eq. cbn. apply Hdims. left. reflexivity. }
  subst self'. rewrite Hrun. cbn [fst snd].
  split; [reflexivity|].
  set (m' := store_all batch (db_metadata self)).
  set (ix' := Faiss.mkIndex (Faiss.d ix) (Faiss.xb ix ++ map embedding batch)).
  exists ix'. split; [reflexivity|]. split; [reflexivity|].
  assert (Hfewer : (List.length m' < List.length (Faiss.xb ix'))%nat).
  { subst m' ix'. cbn [Faiss.xb]. rewrite length_app, length_map.
    rewrite <- Haligned. apply store_all_length_duplicate.
    exists emb0. split; assumption. }
  split; [exact Hfewer|].
  (* the query: the vector of a record of the batch; top_k: all vectors *)
  set (query := embedding emb0).
  set (top_k := Faiss.ntotal ix').
  set (hits := sorted_desc fst (Faiss.scored ix' query)).
  assert (Hsearch : Faiss.search ix' query (Z.min top_k (Faiss.ntotal ix'))
                    = inr hits).
  { apply faiss_search_all.
    - subst query ix'. cbn [Faiss.d]. apply Hdims. exact Hin0.
    - unfold Faiss.ntotal. lia.
    - subst top_k. lia. }
  assert (Hperm : Permutation hits (Faiss.scored ix' query))
    by apply sorted_desc_perm.
  assert (Hvalid : Forall (fun h => 0 <= snd h) hits).
  { apply Forall_forall. intros h Hh.
    apply (Permutation_in _ Hperm) in Hh.
    apply (in_map snd) in Hh. rewrite scored_positions in Hh.
    apply in_map_iff in Hh. destruct Hh as (i & <- & _). lia. }
  destruct (collect_results_total m' hits Hvalid)
    as (results & Hcollect & Hcount & Hfind).
  assert (Hresults : search
                       (with_index (with_metadata self m') ix') query top_k
                     = results).
  { unfold search. cbn [is_trained index with_index with_metadata db_metadata].
    rewrite Htrained, Hsearch, Hcollect. reflexivity. }
  exists query, top_k, hits.
  split; [exact Hsearch|].
  split.
  { subst hits. rewrite (Permutation_length Hperm). apply scored_length. }
  rewrite Hresults. cbn [db_metadata with_index with_metadata].
  split.
  { rewrite Hcount.
    rewrite (filter_length_perm _ _ _ (Permutation_map snd Hperm)).
    rewrite scored_positions, count_below. lia. }
  (* the misattributed result *)
  destruct (last_with_id (emb_chunk_id emb0) batch)
    as (b1 & emb & b2 & Hbatch & Hid & Hlast);
    [exists emb0; split; [exact Hin0 | reflexivity]|].
  assert (Hkey : In (emb_chunk_id emb0) (dict_keys (db_metadata self)))
    by (apply dict_mem_In; exact Hmem0).
  apply In_nth_error in Hkey. destruct Hkey as [p Hp].
  assert (Hplt : (p < List.length (Faiss.xb ix))%nat).
  { rewrite <- Haligned.
    assert (p < List.length (dict_keys (db_metadata self)))%nat
      by (apply nth_error_Some; congruence).
    unfold dict_keys in *. rewrite length_map in *. assumption. }
  destruct (nth_error (Faiss.xb ix) p) as [old|] eqn:Hold;
    [|apply nth_error_None in Hold; lia].
  assert (Hold' : nth_error (Faiss.xb ix') p = Some old).
  { subst ix'. cbn [Faiss.xb]. rewrite nth_error_app1 by exact Hplt.
    exact Hold. }
  assert (Hkey' : nth_error (dict_keys m') p = Some (emb_chunk_id emb)).
  { subst m'. destruct (store_all_keys batch (db_metadata self)) as [extra ->].
    rewrite nth_error_app1
      by (unfold dict_keys; rewrite length_map; lia).
    rewrite Hid. exact Hp. }
  assert (Hget : dict_get (emb_chunk_id emb) m' = Some (stored_metadata emb)).
  { subst m'. rewrite Hbatch.
    change (b1 ++ emb :: b2) with (b1 ++ [emb] ++ b2).
    rewrite !store_all_app. rewrite store_all_get_other.
    - cbn [store_all fold_left]. apply dict_get_set_eq.
    - rewrite Hid. exact Hlast. }
  destruct (Hfind (Faiss.inner query old) p (emb_chunk_id emb)
              (stored_metadata emb))
    as (r & Hr & Hcid & Hmd & Hscore).
  { apply (Permutation_in _ (Permutation_sym Hperm)).
    apply scored_In. exact Hold'. }
  { exact Hkey'. }
  { exact Hget. }
  exists p, (List.length b1), emb, old, r.
  split.
  { rewrite Hbatch, nth_error_app2 by lia. rewrite Nat.sub_diag. reflexivity. }
  split; [exact Hold'|].
  split.
  { subst ix'. cbn [Faiss.xb]. rewrite nth_error_app2 by lia.
    replace (List.length (Faiss.xb ix) + List.length b1
             - List.length (Faiss.xb ix))%nat with (List.length b1) by lia.
    rewrite Hbatch, map_app, nth_error_app2 by (rewrite length_map; lia).
    rewrite length_map, Nat.sub_diag. reflexivity. }
  repeat split; assumption.
Qed.

Lemma upsert_duplicate_id_misaligns_search_witness :
  fst (upsert_embeddings Samples.db_one [Samples.emb_a_again; Samples.emb_b])
    = true
  /\ exists ix',
       index (snd (upsert_embeddings Samples.db_one
                     [Samples.emb_a_again; Samples.emb_b])) = Some ix'
       /\ (List.length
             (db_metadata (snd (upsert_embeddings Samples.db_one
                                  [Samples.emb_a_again; Samples.emb_b])))
           < List.length (Faiss.xb ix'))%nat.
Proof.
  destruct (upsert_duplicate_id_misaligns_search Samples.db_one
              (Faiss.mkIndex 2 [[1%Q; 0%Q]])
              [Samples.emb_a_again; Samples.emb_b])
    as (Hok & ix' & Hix' & _ & Hfewer & _).
  - reflexivity.
  - reflexivity.
  - reflexivity.
  - intros emb [<-|[<-|[]]]; reflexivity.
  - exists Samples.emb_a_again. split; [left; reflexivity | reflexivity].
  - split; [exact Hok|]. exists ix'. split; [exact Hix' | exact Hfewer].
Defined.

(** The same on values: the store holds [doc_chunk_000] with the vector
    (1, 0); the record upserted under the same id has the vector (0, 1)
    and another content.  A search for (0, 1) then returns one result:
    the new content, scored 0 with the old vector; the hit at position 1,
    the new vector with score 1, gives no result. *)
Example duplicate_id_search_result :
  let self := snd (upsert_embeddings Samples.db_one [Samples.emb_a_again]) in
  option_map Faiss.xb (index self) = Some [[1%Q; 0%Q]; [0%Q; 1%Q]]
  /\ dict_keys (db_metadata self) = ["doc_chunk_000"]%string
  /\ option_map (fun ix => Faiss.search ix [0%Q; 1%Q] 2) (index self)
     = Some (inr [(1%Q, 1); (0%Q, 0)])
  /\ map (fun r => (chunk_id r, content r, score r))
       (search self [0%Q; 1%Q] 10)
     = [("doc_chunk_000"%string, VStr "Water damage in unit 4", 0%Q)].
Proof. cbv zeta. repeat split; vm_compute; reflexivity. Qed.

End StoreSpec.

(* ===================================================================== *)
(** * Properties of the search API *)
(* ===================================================================== *)

Module SearchSpec.
Import Py PyFacts SearchAPI.

(** ** Filters *)

Lemma include_result_spec md filters :
  include_result md filters = forallb (spec_filter_ok md) filters.
Proof.
  induction filters as [|[k v] filters IH]; [reflexivity|].
  cbn [include_result forallb]. unfold spec_filter_ok at 1. cbn [fst snd].
  destruct (dict_get k md) as [x|]; [|exact IH].
  destruct v; try (destruct (py_eq x _); cbn; [exact IH | reflexivity]).
  destruct (py_in x l); cbn; [exact IH | reflexivity].
Qed.

Lemma apply_filters_filter results filters :
  _apply_filters results filters
  = filter (fun r => forallb (spec_filter_ok (metadata r)) filters) results.
Proof.
  induction results as [|r results IH]; [reflexivity|].
  cbn [_apply_filters filter]. rewrite include_result_spec, IH. reflexivity.
Qed.

Lemma apply_filters_nil results : _apply_filters results [] = results.
Proof.
  induction results as [|r results IH]; [reflexivity|].
  cbn. rewrite IH. reflexivity.
Qed.

(** C7.  [_apply_filters] keeps, in their order, exactly the results
    that every filter key accepts.  For every returned result and every
    filter [{field: v}], the field is absent from the metadata of the
    result, or its value is a member of [v] when [v] is a list and equal
    to [v] otherwise; a result from whose metadata every filter key is
    absent is returned. *)
Theorem apply_filters_correct
    (results : list SearchResult) (filters : list (string * pyval)) :
  _apply_filters results filters
  = filter (fun r => forallb (spec_filter_ok (metadata r)) filters) results
  /\ (forall r field v,
        In r (_apply_filters results filters) -> In (field, v) filters ->
        match dict_get field (metadata r) with
        | None => True
        | Some x =>
            match v with
            | VList l => py_in x l = true
            | _ => py_eq x v = true
            end
        end)
  /\ (forall r,
        In r results ->
        (forall field v, In (field, v) filters ->
                         dict_get field (metadata r) = None) ->
        In r (_apply_filters results filters)).
Proof.
  split; [apply apply_filters_filter|]. split.
  - intros r field v Hr Hf. rewrite apply_filters_filter in Hr.
    apply filter_In in Hr. destruct Hr as [_ Hall].
    rewrite forallb_forall in Hall. specialize (Hall (field, v) Hf).
    unfold spec_filter_ok in Hall. cbn [fst snd] in Hall.
    destruct (dict_get field (metadata r)) as [x|]; [|exact I].
    destruct v; exact Hall.
  - intros r Hr Habsent. rewrite apply_filters_filter.
    apply filter_In. split; [exact Hr|].
    apply forallb_forall. intros [field v] Hf.
    unfold spec_filter_ok. cbn [fst snd].
    rewrite (Habsent field v Hf). reflexivity.
Qed.

Lemma apply_filters_correct_witness :
  _apply_filters [Samples.vector_A; Samples.keyword_B]
    [("kind", VList [VStr "claim"; VStr "invoice"]); ("year", VInt 2025)]
  = [Samples.vector_A]
  /\ py_in (VStr "claim") [VStr "claim"; VStr "invoice"] = true
  /\ In Samples.vector_A
       (_apply_filters [Samples.vector_A; Samples.keyword_B]
          [("year", VInt 2025)]).
Proof.
  destruct (apply_filters_correct [Samples.vector_A; Samples.keyword_B]
              [("kind", VList [VStr "claim"; VStr "invoice"]);
               ("year", VInt 2025)]) as (Heq & Hsound & _).
  destruct (apply_filters_correct [Samples.vector_A; Samples.keyword_B]
              [("year", VInt 2025)]) as (_ & _ & Hkeep).
  split; [rewrite Heq; reflexivity|]. split.
  - apply (Hsound Samples.vector_A "kind"%string
             (VList [VStr "claim"; VStr "invoice"])).
    + rewrite Heq. left. reflexivity.
    + left. reflexivity.
  - apply Hkeep.
    + left. reflexivity.
    + intros field v [Hf|[]]. inversion Hf. reflexivity.
Defined.

(** ** Failure semantics, truncation *)

Lemma supported_dec q : supported q \/ ~ supported q.
Proof.
  unfold supported.
  destruct (string_dec (search_type q) "vector");
  destruct (string_dec (search_type q) "keyword");
  destruct (string_dec (search_type q) "hybrid"); tauto.
Qed.

Section API.
Variable generate_embedding : string -> exn + EmbeddingResult.
Variable vector_db_search : list Q -> string -> Z -> exn + list SearchResult.
Variable model_name : string.
Variable index_name : string.
Variable elapsed_ms : Q.
Variable timestamp : string.

Abbreviation search_ :=
  (search generate_embedding vector_db_search model_name index_name
     elapsed_ms timestamp).
Abbreviation search_path_ :=
  (search_path generate_embedding vector_db_search index_name).
Abbreviation vector_search_ :=
  (_vector_search generate_embedding vector_db_search index_name).

Abbreviation vector_path_raises :=
  (SearchAPI.vector_path_raises generate_embedding vector_db_search
     index_name).

Lemma vector_search_raises q : vector_path_raises q -> vector_search_ q = [].
Proof.
  unfold _vector_search.
  intros [[e He]|(emb & e & Hemb & He)].
  - rewrite He. reflexivity.
  - rewrite Hemb, He. reflexivity.
Qed.

Lemma slice_nil {A : Type} (i j : Z) : slice (@nil A) i j = [].
Proof. unfold slice. rewrite skipn_nil, firstn_nil. reflexivity. Qed.

Lemma post_process_nil q : post_process q [] = [].
Proof.
  unfold post_process. cbn [filter].
  destruct (filters q) as [[|f fs]|]; cbn [_apply_filters]; apply slice_nil.
Qed.

Lemma search_path_supported q :
  supported q ->
  exists raw, search_path_ q = inr raw
              /\ (vector_path_raises q -> raw = []).
Proof.
  unfold search_path.
  intros [H|[H|H]]; rewrite H; cbn.
  - eexists. split; [reflexivity | apply vector_search_raises].
  - exists []. split; [reflexivity | reflexivity].
  - eexists. split; [reflexivity|]. intros Hr.
    unfold _hybrid_search. rewrite (vector_search_raises q Hr). reflexivity.
Qed.

Lemma search_path_unsupported q :
  ~ supported q ->
  search_path_ q
  = inl (ValueError ("Unsupported search type: " ++ search_type q)).
Proof.
  unfold supported, search_path. intros Hn.
  destruct (String.eqb (search_type q) "vector") eqn:E1;
    [apply String.eqb_eq in E1; tauto|].
  destruct (String.eqb (search_type q) "keyword") eqn:E2;
    [apply String.eqb_eq in E2; tauto|].
  destruct (String.eqb (search_type q) "hybrid") eqn:E3;
    [apply String.eqb_eq in E3; tauto|].
  reflexivity.
Qed.
Lemma search_supported q raw :
  search_path_ q = inr raw ->
  search_ q
  = {| query := q;
       results := post_process q raw;
       total_results := Z.of_nat (List.length (post_process q raw));
       search_time_ms := elapsed_ms;
       response_search_type := search_type q;
       response_metadata :=
         [ ("index_name", VStr index_name);
           ("model_name", VStr model_name);
           ("timestamp", VStr timestamp) ] |}.
Proof. intros H. unfold search, search_try. rewrite H. reflexivity. Qed.

Lemma search_unsupported q :
  ~ supported q ->
  search_ q
  = {| query := q; results := []; total_results := 0;
       search_time_ms := 0; response_search_type := search_type q;
       response_metadata :=
         [ ("error",
            VStr ("Unsupported search type: " ++ search_type q)) ] |}.
Proof.
  intros H. unfold search, search_try.
  rewrite (search_path_unsupported q H). reflexivity.
Qed.

End API.

(** C5, as amended.  [search] returns a response for every query.  For
    an unsupported [search_type] the response has no results,
    [total_results = 0] and the metadata [{'error': message}].  For a
    supported [search_type] the metadata is [{index_name, model_name,
    timestamp}] and holds no error note, also when the embedding provider
    or the vector store raises: that exception is caught inside
    [_vector_search], and the response then has no results and
    [total_results = 0]. *)
Theorem search_failure_semantics
    generate_embedding vector_db_search model_name index_name elapsed_ms
    timestamp (q : SearchQuery) :
  let response :=
    search generate_embedding vector_db_search model_name index_name
      elapsed_ms timestamp q in
  total_results response = Z.of_nat (List.length (results response))
  /\ (~ supported q ->
      results response = [] /\ total_results response = 0
      /\ response_metadata response
         = [ ("error",
              VStr ("Unsupported search type: " ++ search_type q)) ])
  /\ (supported q ->
      response_metadata response
      = [ ("index_name", VStr index_name); ("model_name", VStr model_name);
          ("timestamp", VStr timestamp) ]
      /\ dict_get "error" (response_metadata response) = None
      /\ (vector_path_raises generate_embedding vector_db_search index_name q ->
          results response = [] /\ total_results response = 0)).
Proof.
  cbv zeta. destruct (supported_dec q) as [Hs|Hn].
  - destruct (search_path_supported generate_embedding vector_db_search
                index_name q Hs) as (raw & Hraw & Hempty).
    rewrite (search_supported _ _ model_name _ elapsed_ms timestamp q raw Hraw).
    cbn [results total_results response_metadata].
    split; [reflexivity|]. split; [tauto|].
    intros _. split; [reflexivity|]. split; [reflexivity|].
    intros Hr. rewrite (Hempty Hr), post_process_nil. split; reflexivity.
  - rewrite (search_unsupported _ _ model_name _ elapsed_ms timestamp q Hn).
    cbn [results total_results response_metadata].
    split; [reflexivity|]. split; [|tauto].
    intros _. repeat split.
Qed.

Lemma search_failure_semantics_witness :
  results (search Samples.failing_embedder Samples.two_results "bge-large"
             "claims-embeddings" 3 "2025-04-07T22:45:00" Samples.fuzzy_query)
    = []
  /\ response_metadata
       (search Samples.failing_embedder Samples.two_results "bge-large"
          "claims-embeddings" 3 "2025-04-07T22:45:00" Samples.fuzzy_query)
     = [("error", VStr "Unsupported search type: fuzzy")]
  /\ results (search Samples.failing_embedder Samples.two_results "bge-large"
                "claims-embeddings" 3 "2025-04-07T22:45:00"
                Samples.vector_query)
     = [].
Proof.
  destruct (search_failure_semantics Samples.failing_embedder
              Samples.two_results "bge-large" "claims-embeddings" 3
              "2025-04-07T22:45:00" Samples.fuzzy_query) as (_ & Hbad & _).
  destruct Hbad as (Hres & _ & Hmeta).
  { unfold supported. cbn. intros [H|[H|H]]; discriminate. }
  destruct (search_failure_semantics Samples.failing_embedder
              Samples.two_results "bge-large" "claims-embeddings" 3
              "2025-04-07T22:45:00" Samples.vector_query) as (_ & _ & Hok).
  destruct Hok as (_ & _ & Hraise).
  { left. reflexivity. }
  destruct Hraise as [Hres' _].
  { left. eexists. reflexivity. }
  repeat split; assumption.
Defined.

(** C5, as stated, fails: a vector search whose embedding provider
    raises returns a response without results and without an error note
    in its metadata. *)
Lemma search_swallows_vector_failure :
  let response :=
    search Samples.failing_embedder Samples.two_results "bge-large"
      "claims-embeddings" 3 "2025-04-07T22:45:00" Samples.vector_query in
  Samples.failing_embedder (query_text Samples.vector_query)
    = inl (RuntimeError "model not loaded")
  /\ results response = []
  /\ total_results response = 0
  /\ dict_get "error" (response_metadata response) = None
  /\ dict_keys (response_metadata response)
     = ["index_name"; "model_name"; "timestamp"]%string.
Proof. cbv zeta. repeat split. Qed.

(** C6.  The results of a response are the first [top_k] of the list
    obtained from the results of the search path by the [min_score]
    filter and then the metadata filters, so for [top_k >= 0] there are
    at most [top_k] of them; a search of the local store returns at most
    as many results as the index holds vectors. *)
Theorem results_truncated_after_filtering
    generate_embedding vector_db_search model_name index_name elapsed_ms
    timestamp (q : SearchQuery)
    (db : LocalVectorDB.LocalVectorDB) (query_embedding : list Q) (k : Z) :
  let response :=
    search generate_embedding vector_db_search model_name index_name
      elapsed_ms timestamp q in
  (forall raw,
      search_path generate_embedding vector_db_search index_name q = inr raw ->
      let by_score := filter (fun r => Qle_bool (min_score q) (score r)) raw in
      let by_filters :=
        match filters q with
        | Some fs => _apply_filters by_score fs
        | None => by_score
        end in
      results response = slice by_filters 0 (top_k q))
  /\ (0 <= top_k q ->
      Z.of_nat (List.length (results response)) <= top_k q)
  /\ (exists n,
        dict_get "total_vectors" (LocalVectorDB.get_stats db) = Some (VInt n)
        /\ Z.of_nat (List.length (LocalVectorDB.search db query_embedding k))
           <= n).
Proof.
  cbv zeta. split; [|split].
  - intros raw Hraw.
    rewrite (search_supported _ _ model_name _ elapsed_ms timestamp q raw Hraw).
    cbn [results]. unfold post_process.
    destruct (filters q) as [[|f fs]|]; try reflexivity.
    rewrite apply_filters_nil. reflexivity.
  - intros Hk. unfold search, search_try.
    destruct (search_path _ _ _ q) as [e|raw]; cbn [results].
    + cbn. exact Hk.
    + unfold post_process. apply slice_prefix_length. exact Hk.
  - eexists. split; [apply StoreSpec.get_stats_total_vectors|].
    pose proof (StoreSpec.search_length_bound db query_embedding k) as [_ H].
    cbv zeta in H.
    destruct (LocalVectorDB.index db), (LocalVectorDB.is_trained db); lia.
Qed.

Lemma results_truncated_after_filtering_witness :
  let response :=
    search Samples.working_embedder Samples.two_results "bge-large"
      "claims-embeddings" 3 "2025-04-07T22:45:00"
      (mkQuery "water damage" "hybrid" 1 (1 # 2) None) in
  Z.of_nat (List.length (results response)) <= 1
  /\ ids (results response) = ["A"]%string.
Proof.
  destruct (results_truncated_after_filtering Samples.working_embedder
              Samples.two_results "bge-large" "claims-embeddings" 3
              "2025-04-07T22:45:00"
              (mkQuery "water damage" "hybrid" 1 (1 # 2) None)
              Samples.db_one [1%Q; 0%Q] 3) as (Hslice & Hbound & _).
  cbv zeta. split.
  - apply Hbound. cbn. lia.
  - rewrite (Hslice _ eq_refl). reflexivity.
Defined.

(** ** The hybrid merge *)

Lemma has_id_true cid r : has_id cid r = true <-> chunk_id r = cid.
Proof. unfold has_id. apply String.eqb_eq. Qed.

Lemma existsb_has_id cid rs : existsb (has_id cid) rs = true <-> In cid (ids rs).
Proof.
  rewrite existsb_exists. unfold ids. rewrite in_map_iff.
  split; intros (r & H1 & H2).
  - exists r. split; [apply has_id_true; exact H2 | exact H1].
  - exists r. split; [exact H2 | apply has_id_true; exact H1].
Qed.

Lemma find_has_id_none cid rs : ~ In cid (ids rs) -> find (has_id cid) rs = None.
Proof.
  intros Hn. destruct (find (has_id cid) rs) as [r|] eqn:E; [|reflexivity].
  apply find_some in E. destruct E as [Hin Hid]. apply has_id_true in Hid.
  exfalso. apply Hn. unfold ids. rewrite <- Hid. apply in_map. exact Hin.
Qed.

(** In a list without repeated ids a result is found under its id. *)
Lemma find_has_id_unique rs r :
  NoDup (ids rs) -> In r rs -> find (has_id (chunk_id r)) rs = Some r.
Proof.
  induction rs as [|x rs IH]; intros Hnd Hin; [contradiction|].
  cbn [ids map] in Hnd. inversion Hnd as [|? ? Hx Hnd']; subst.
  cbn [find]. destruct Hin as [->|Hin].
  - unfold has_id. rewrite String.eqb_refl. reflexivity.
  - destruct (has_id (chunk_id r) x) eqn:E.
    + apply has_id_true in E. exfalso. apply Hx. rewrite E.
      apply in_map. exact Hin.
    + apply IH; assumption.
Qed.

Lemma find_snoc {A : Type} (f : A -> bool) (l : list A) (x : A) :
  find f (l ++ [x])
  = match find f l with
    | Some y => Some y
    | None => if f x then Some x else None
    end.
Proof.
  induction l as [|y l IH]; cbn; [reflexivity|].
  destruct (f y); [reflexivity | exact IH].
Qed.

Lemma result_vector_entry K r : result (vector_entry K r) = r.
Proof. unfold vector_entry. destruct (find _ K); reflexivity. Qed.

Lemma vector_entry_snoc_other K k r :
  chunk_id r <> chunk_id k ->
  vector_entry (K ++ [k]) r = vector_entry K r.
Proof.
  intros Hne. unfold vector_entry. rewrite find_snoc.
  destruct (find (has_id (chunk_id r)) K); [reflexivity|].
  destruct (has_id (chunk_id r) k) eqn:E; [|reflexivity].
  apply has_id_true in E. congruence.
Qed.

Lemma vector_entry_snoc_same K k r :
  ~ In (chunk_id k) (ids K) -> chunk_id r = chunk_id k ->
  vector_entry K r
    = {| result := r; vector_score := score r; keyword_score := 0;
         combined_score := score r * (7 # 10) |}
  /\ vector_entry (K ++ [k]) r
     = {| result := r; vector_score := score r; keyword_score := score k;
          combined_score := score r * (7 # 10) + score k * (3 # 10) |}.
Proof.
  intros Hn Hid. unfold vector_entry. rewrite find_snoc, Hid.
  rewrite (find_has_id_none _ _ Hn).
  unfold has_id at 1. rewrite String.eqb_refl. split; reflexivity.
Qed.

(** Lookup and in-place update in a dictionary built by [map]. *)
Section MapDict.
Context {V : Type}.
Variable g : SearchResult -> V.

Lemma dict_get_map_In rs tail r :
  NoDup (ids rs) -> In r rs ->
  dict_get (chunk_id r) (map (fun x => (chunk_id x, g x)) rs ++ tail)
  = Some (g r).
Proof.
  induction rs as [|x rs IH]; intros Hnd Hin; [contradiction|].
  cbn [ids map] in Hnd. inversion Hnd as [|? ? Hx Hnd']; subst.
  cbn [map app dict_get]. destruct Hin as [->|Hin].
  - rewrite String.eqb_refl. reflexivity.
  - destruct (String.eqb (chunk_id r) (chunk_id x)) eqn:E.
    + apply String.eqb_eq in E. exfalso. apply Hx. rewrite <- E.
      apply in_map. exact Hin.
    + apply IH; assumption.
Qed.

Lemma dict_get_map_notin rs tail cid :
  ~ In cid (ids rs) ->
  dict_get cid (map (fun x => (chunk_id x, g x)) rs ++ tail)
  = dict_get cid tail.
Proof.
  induction rs as [|x rs IH]; intros Hn; [reflexivity|].
  cbn [map app dict_get].
  destruct (String.eqb cid (chunk_id x)) eqn:E.
  - apply String.eqb_eq in E. exfalso. apply Hn. left. symmetry. exact E.
  - apply IH. intros H. apply Hn. right. exact H.
Qed.

Lemma dict_set_map_replace rs tail r e :
  NoDup (ids rs) -> In r rs ->
  dict_set (chunk_id r) e (map (fun x => (chunk_id x, g x)) rs ++ tail)
  = map (fun x => (chunk_id x,
                   if String.eqb (chunk_id x) (chunk_id r) then e else g x))
      rs ++ tail.
Proof.
  induction rs as [|x rs IH]; intros Hnd Hin; [contradiction|].
  cbn [ids map] in Hnd. inversion Hnd as [|? ? Hx Hnd']; subst.
  cbn [map app dict_set].
  destruct (String.eqb (chunk_id r) (chunk_id x)) eqn:E.
  - apply String.eqb_eq in E. rewrite <- E, String.eqb_refl.
    f_equal. f_equal. apply map_ext_in. intros y Hy.
    destruct (String.eqb (chunk_id y) (chunk_id r)) eqn:E'; [|reflexivity].
    apply String.eqb_eq in E'. exfalso. apply Hx. rewrite <- E, <- E'.
    apply in_map. exact Hy.
  - assert (E' : String.eqb (chunk_id x) (chunk_id r) = false)
      by (rewrite String.eqb_sym; exact E).
    rewrite E'. f_equal. destruct Hin as [->|Hin].
    + rewrite String.eqb_refl in E. discriminate.
    + apply IH; assumption.
Qed.
End MapDict.

(** The first loop. *)
Lemma vector_loop V :
  NoDup (ids V) ->
  forall acc,
    (forall r, In r V -> ~ In (chunk_id r) (dict_keys acc)) ->
    fold_left add_vector_result V acc
    = acc ++ map (fun r => (chunk_id r, vector_entry [] r)) V.
Proof.
  induction V as [|r V IH]; intros Hnd acc Hfresh.
  - cbn. rewrite app_nil_r. reflexivity.
  - cbn [ids map] in Hnd. inversion Hnd as [|? ? Hr Hnd']; subst.
    cbn [fold_left]. unfold add_vector_result at 2.
    rewrite dict_set_new.
    2:{ destruct (dict_mem (chunk_id r) acc) eqn:E; [|reflexivity].
        apply dict_mem_In in E. exfalso.
        apply (Hfresh r (or_introl eq_refl) E). }
    rewrite IH; [|exact Hnd'|].
    + rewrite <- app_assoc. reflexivity.
    + intros r' Hr' Hin. unfold dict_keys in Hin.
      rewrite map_app in Hin. apply in_app_or in Hin.
      destruct Hin as [Hin|[Hin|[]]].
      * apply (Hfresh r' (or_intror Hr') Hin).
      * cbn in Hin. apply Hr. rewrite Hin. apply in_map. exact Hr'.
Qed.

(** One step of the second loop. *)
Lemma keyword_step V K k :
  NoDup (ids V) -> ~ In (chunk_id k) (ids K) ->
  add_keyword_result (merged V K) k = merged V (K ++ [k]).
Proof.
  intros Hnd Hk. unfold add_keyword_result, merged.
  rewrite filter_app, map_app. cbn [filter].
  destruct (existsb (has_id (chunk_id k)) V) eqn:Hex; cbn [negb map].
  - (* the id is a vector result: update in place *)
    apply existsb_exists in Hex. destruct Hex as (r & Hr & Hid).
    apply has_id_true in Hid.
    destruct (vector_entry_snoc_same K k r Hk Hid) as [Hold Hnew].
    rewrite <- Hid.
    rewrite (dict_get_map_In (vector_entry K) V _ r Hnd Hr).
    rewrite (dict_set_map_replace (vector_entry K) V _ r _ Hnd Hr).
    rewrite app_nil_r. f_equal. apply map_ext_in. intros x Hx.
    destruct (String.eqb (chunk_id x) (chunk_id r)) eqn:E.
    + apply String.eqb_eq in E.
      assert (x = r).
      { pose proof (find_has_id_unique V x Hnd Hx) as H1.
        pose proof (find_has_id_unique V r Hnd Hr) as H2.
        rewrite E in H1. congruence. }
      subst x. rewrite Hnew, Hold. cbn. rewrite Hid. reflexivity.
    + apply String.eqb_neq in E.
      rewrite vector_entry_snoc_other by congruence. reflexivity.
  - (* a new id: append *)
    assert (HnV : ~ In (chunk_id k) (ids V)).
    { intros H. apply existsb_has_id in H. congruence. }
    assert (Hget : dict_get (chunk_id k)
                     (map (fun r => (chunk_id r, vector_entry K r)) V
                      ++ map (fun k0 => (chunk_id k0, keyword_entry k0))
                           (filter (fun k0 =>
                              negb (existsb (has_id (chunk_id k0)) V)) K))
                   = None).
    { rewrite dict_get_map_notin by exact HnV.
      rewrite <- (app_nil_r (map _ (filter _ K))).
      rewrite dict_get_map_notin; [reflexivity|].
      intros H. apply Hk. unfold ids in *. apply in_map_iff in H.
      destruct H as (y & Hy1 & Hy2). apply filter_In in Hy2.
      rewrite <- Hy1. apply in_map. tauto. }
    rewrite Hget. rewrite dict_set_new by (unfold dict_mem; rewrite Hget; reflexivity).
    rewrite <- !app_assoc. f_equal.
    + apply map_ext_in. intros x Hx.
      rewrite vector_entry_snoc_other; [reflexivity|].
      intros E. apply HnV. rewrite <- E. apply in_map. exact Hx.
Qed.

(** The second loop. *)
Lemma keyword_loop V K :
  NoDup (ids V) -> NoDup (ids K) ->
  fold_left add_keyword_result K (merged V []) = merged V K.
Proof.
  intros HV. induction K as [|k K IH] using rev_ind; intros HK.
  - reflexivity.
  - unfold ids in HK. rewrite map_app in HK. cbn [map] in HK.
    rewrite fold_left_app. cbn [fold_left].
    rewrite IH by (apply NoDup_remove_1 in HK; rewrite app_nil_r in HK; exact HK).
    apply keyword_step; [exact HV|].
    apply NoDup_remove_2 in HK. rewrite app_nil_r in HK. exact HK.
Qed.

(** The dictionary after both loops. *)
Lemma combined_results_closed_form V K :
  NoDup (ids V) -> NoDup (ids K) ->
  fold_left add_keyword_result K (fold_left add_vector_result V [])
  = merged V K.
Proof.
  intros HV HK. rewrite (vector_loop V HV []) by (intros r _ []).
  cbn [app]. rewrite <- (keyword_loop V K HV HK).
  unfold merged. cbn [filter map]. rewrite app_nil_r. reflexivity.
Qed.

Lemma before_map {A B : Type} (f : A -> B) (x y : A) (l : list A) :
  before x y l -> before (f x) (f y) (map f l).
Proof.
  intros (l1 & l2 & l3 & ->). exists (map f l1), (map f l2), (map f l3).
  rewrite map_app. cbn [map]. rewrite map_app. reflexivity.
Qed.

Lemma before_app_l {A : Type} (x y : A) (l tail : list A) :
  before x y l -> before x y (l ++ tail).
Proof.
  intros (l1 & l2 & l3 & ->). exists l1, l2, (l3 ++ tail).
  rewrite <- !app_assoc. cbn. rewrite <- app_assoc. reflexivity.
Qed.

Lemma before_In_l {A : Type} (x y : A) (l : list A) : before x y l -> In x l.
Proof.
  intros (l1 & l2 & l3 & ->). apply in_or_app. right. left. reflexivity.
Qed.

Lemma before_In_r {A : Type} (x y : A) (l : list A) : before x y l -> In y l.
Proof.
  intros (l1 & l2 & l3 & ->). apply in_or_app. right. right.
  apply in_or_app. right. left. reflexivity.
Qed.

Lemma sorted_map_score (entries : list combined) :
  StronglySorted (desc combined_score) entries ->
  StronglySorted (desc score)
    (map (fun item => set_score (result item) (combined_score item)) entries).
Proof.
  induction 1 as [|e entries Hs IH Hall]; cbn [map]; constructor.
  - exact IH.
  - rewrite Forall_forall in *. intros r Hr.
    apply in_map_iff in Hr. destruct Hr as (e' & <- & He').
    apply (Hall e' He').
Qed.

(** The combined score of an entry is the weighted sum of the
    specification. *)
Lemma vector_entry_score V K v :
  NoDup (ids V) -> In v V ->
  (combined_score (vector_entry K v) == spec_combined_score (chunk_id v) V K)%Q.
Proof.
  intros HV Hv. unfold spec_combined_score, spec_score.
  change (fun r => String.eqb (chunk_id r) (chunk_id v))
    with (has_id (chunk_id v)).
  rewrite (find_has_id_unique V v HV Hv). unfold vector_entry.
  destruct (find (has_id (chunk_id v)) K); cbn [combined_score]; ring.
Qed.

Lemma keyword_entry_score V K k :
  NoDup (ids K) -> In k K -> ~ In (chunk_id k) (ids V) ->
  (combined_score (keyword_entry k) == spec_combined_score (chunk_id k) V K)%Q.
Proof.
  intros HK Hk HnV. unfold spec_combined_score, spec_score.
  change (fun r => String.eqb (chunk_id r) (chunk_id k))
    with (has_id (chunk_id k)).
  rewrite (find_has_id_unique K k HK Hk), (find_has_id_none _ V HnV).
  cbn [keyword_entry combined_score]. ring.
Qed.

Lemma keyword_only_In V K k :
  In k (filter (fun k => negb (existsb (has_id (chunk_id k)) V)) K) <->
  In k K /\ ~ In (chunk_id k) (ids V).
Proof.
  rewrite filter_In, negb_true_iff, <- not_true_iff_false, existsb_has_id.
  reflexivity.
Qed.

Lemma NoDup_ids_filter (f : SearchResult -> bool) (rs : list SearchResult) :
  NoDup (ids rs) -> NoDup (ids (filter f rs)).
Proof.
  induction rs as [|r rs IH]; intros Hnd; [constructor|].
  cbn [ids map] in Hnd. inversion Hnd as [|? ? Hr Hnd']; subst.
  cbn [filter]. destruct (f r); [|apply IH; exact Hnd'].
  cbn [ids map]. constructor; [|apply IH; exact Hnd'].
  intros H. apply Hr. unfold ids in H. apply in_map_iff in H.
  destruct H as (y & Hy & Hin). apply filter_In in Hin.
  rewrite <- Hy. apply in_map. tauto.
Qed.

(** C4.  The results of [_combine_search_results] are in descending
    order of score.  When no chunk id occurs twice within the vector
    results or within the keyword results: the output has exactly the
    chunk ids of the two lists, each once; the score of every output
    result is [0.7 * vector_score + 0.3 * keyword_score], with 0 for a
    list that lacks the id; and of two vector results with equal
    combined scores the one ranked first by the vector search comes
    first.  On the scenario of the specification the output is [A, B]
    with scores 0.78 and 0.24. *)
Theorem combine_search_results_correct (V K : list SearchResult) :
  let out := _combine_search_results V K in
  StronglySorted (desc score) out
  /\ (NoDup (ids V) -> NoDup (ids K) ->
      (forall cid, In cid (ids out) <-> In cid (ids V) \/ In cid (ids K))
      /\ NoDup (ids out)
      /\ (forall r, In r out ->
            (score r == spec_combined_score (chunk_id r) V K)%Q)
      /\ (forall a b,
            before a b V ->
            (spec_combined_score (chunk_id a) V K
             == spec_combined_score (chunk_id b) V K)%Q ->
            exists a' b',
              before a' b' out
              /\ chunk_id a' = chunk_id a /\ chunk_id b' = chunk_id b))
  /\ (ids (_combine_search_results [Samples.vector_A]
             [Samples.keyword_A; Samples.keyword_B])
        = ["A"; "B"]%string
      /\ Forall2 Qeq
           (map score (_combine_search_results [Samples.vector_A]
                         [Samples.keyword_A; Samples.keyword_B]))
           [78 # 100; 24 # 100]).
Proof.
  cbv zeta. split; [|split].
  - unfold _combine_search_results. apply sorted_map_score.
    apply sorted_desc_sorted.
  - intros HV HK. unfold _combine_search_results.
    rewrite (combined_results_closed_form V K HV HK).
    set (finalize := fun item => set_score (result item) (combined_score item)).
    set (keyword_only :=
           filter (fun k => negb (existsb (has_id (chunk_id k)) V)) K).
    assert (Hentries : dict_values (merged V K)
                       = map (vector_entry K) V ++ map keyword_entry keyword_only).
    { unfold dict_values, merged. rewrite map_app, !map_map. reflexivity. }
    rewrite Hentries.
    set (entries := map (vector_entry K) V ++ map keyword_entry keyword_only).
    assert (Hperm : Permutation (sorted_desc combined_score entries) entries)
      by apply sorted_desc_perm.
    assert (Hids : Permutation
                     (ids (map finalize (sorted_desc combined_score entries)))
                     (ids V ++ ids keyword_only)).
    { unfold ids. rewrite map_map.
      eapply perm_trans; [apply Permutation_map, Hperm|].
      subst entries. rewrite map_app, !map_map. cbn [finalize set_score chunk_id].
      apply Permutation_app.
      - erewrite map_ext; [apply Permutation_refl|].
        intros v. cbn. rewrite result_vector_entry. reflexivity.
      - apply Permutation_refl. }
    assert (Hentry : forall e, In e entries ->
              (exists v, In v V /\ e = vector_entry K v)
              \/ (exists k, In k K /\ ~ In (chunk_id k) (ids V)
                            /\ e = keyword_entry k)).
    { intros e He. subst entries. apply in_app_or in He.
      destruct He as [He|He]; apply in_map_iff in He;
        destruct He as (x & <- & Hx).
      - left. exists x. split; [exact Hx | reflexivity].
      - right. apply keyword_only_In in Hx. exists x. tauto. }
    split; [|split; [|split]].
    + intros cid. split.
      * intros H. apply (Permutation_in _ Hids) in H.
        apply in_app_or in H. destruct H as [H|H]; [left; exact H|].
        right. unfold ids in *. apply in_map_iff in H.
        destruct H as (k & <- & Hk). apply keyword_only_In in Hk.
        apply in_map. tauto.
      * intros H. apply (Permutation_in _ (Permutation_sym Hids)).
        apply in_or_app.
        destruct (in_dec string_dec cid (ids V)) as [HinV|HnV];
          [left; exact HinV|].
        destruct H as [H|H]; [left; exact H|]. right.
        unfold ids in H. apply in_map_iff in H. destruct H as (k & <- & Hk).
        apply in_map. apply keyword_only_In. tauto.
    + apply (Permutation_NoDup (Permutation_sym Hids)).
      apply NoDup_app; [exact HV | apply NoDup_ids_filter; exact HK|].
      intros cid HinV H. unfold ids in H. apply in_map_iff in H.
      destruct H as (k & <- & Hk). apply keyword_only_In in Hk. tauto.
    + intros r Hr. apply in_map_iff in Hr. destruct Hr as (e & <- & He).
      apply (Permutation_in _ Hperm) in He.
      cbn [finalize set_score score chunk_id].
      destruct (Hentry e He) as [(v & Hv & ->)|(k & Hk & HnV & ->)].
      * rewrite result_vector_entry. apply vector_entry_score; assumption.
      * cbn [keyword_entry result]. apply keyword_entry_score; assumption.
    + intros a b Hab Heq.
      exists (finalize (vector_entry K a)), (finalize (vector_entry K b)).
      split; [|split].
      * apply before_map. apply sorted_desc_stable.
        -- subst entries. apply before_app_l. apply before_map. exact Hab.
        -- rewrite (vector_entry_score V K a HV (before_In_l _ _ _ Hab)).
           rewrite (vector_entry_score V K b HV (before_In_r _ _ _ Hab)).
           rewrite Heq. apply Qle_refl.
      * cbn. rewrite result_vector_entry. reflexivity.
      * cbn. rewrite result_vector_entry. reflexivity.
  - split; [reflexivity|].
    repeat constructor; reflexivity.
Qed.

Lemma combine_search_results_correct_witness :
  exists a' b',
    before a' b'
      (_combine_search_results [Samples.vector_A; Samples.vector_C]
         [Samples.keyword_B])
    /\ chunk_id a' = "A"%string /\ chunk_id b' = "C"%string.
Proof.
  destruct (combine_search_results_correct
              [Samples.vector_A; Samples.vector_C] [Samples.keyword_B])
    as (_ & Hgen & _).
  destruct Hgen as (_ & _ & _ & Htie).
  - repeat constructor; cbn; intuition discriminate.
  - repeat constructor; cbn; intuition discriminate.
  - apply (Htie Samples.vector_A Samples.vector_C).
    + exists [], [], []. reflexivity.
    + reflexivity.
Defined.

End SearchSpec.


(* ===================================================================== *)
(** * Further properties of the chunker *)
(* ===================================================================== *)

Module ChunkerExtra.
Import Py Regex TextChunker Props ChunkerSpec.

Section Loop.
Variable path_stem : string -> string.
Variable self : ClaimsTextChunker.
Variable text : string.
Variable break_points : list Z.
Variable source_file : string.
Variable file_metadata : option (list (string * pyval)).

Abbreviation loop :=
  (create_chunks_loop path_stem self text break_points source_file
     file_metadata).
Abbreviation wend := (window_end self text break_points).
Abbreviation skip := (skipped self text break_points).
Abbreviation next := (next_start self text break_points).

Lemma window_end_le_size (start : Z) : wend start <= start + chunk_size self.
Proof.
  unfold window_end.
  set (e0 := Z.min (start + chunk_size self) (len text)).
  pose proof (find_best_break_point_le self text break_points start e0) as Hb.
  destruct (_ >? start); lia.
Qed.

Abbreviation chunk_ok := (Props.chunk_ok self text break_points).

Lemma loop_chunks_ok (fuel : nat) :
  1 <= chunk_size self ->
  forall start idx chunks,
    0 <= start ->
    loop fuel start idx = Some chunks ->
    Forall (fun c => start <= start_char c /\ chunk_ok c) chunks.
Proof.
  intros Hcs. induction fuel as [|fuel IH]; intros start idx chunks H0 Hrun.
  - destruct (Z.lt_ge_cases start (len text)) as [Hlt|Hge].
    + apply Z.ltb_lt in Hlt. cbn [create_chunks_loop] in Hrun.
      rewrite Hlt in Hrun. discriminate.
    + rewrite (loop_done _ _ _ _ _ _ _ _ _ Hge) in Hrun.
      inversion Hrun. constructor.
  - destruct (Z.lt_ge_cases start (len text)) as [Hlt|Hge].
    + rewrite (loop_step _ _ _ _ _ _ _ _ _ Hlt) in Hrun.
      pose proof (next_start_gt self text break_points start Hcs Hlt) as Hnext.
      pose proof (window_end_gt self text break_points start Hcs Hlt) as Hgt.
      pose proof (window_end_le_len self text break_points start Hlt) as Hle.
      pose proof (window_end_le_size start) as Hsize.
      destruct (skip start) eqn:Hskip.
      * assert (Hrest := IH _ _ _ (Z.le_trans _ _ _ H0 (Z.lt_le_incl _ _ Hnext))
                           Hrun).
        eapply Forall_impl; [|exact Hrest]. cbn. intros c [Hc Hok].
        split; [lia | exact Hok].
      * destruct (loop fuel (next start) (idx + 1)) as [rest|] eqn:Hrest;
          [|discriminate].
        inversion Hrun. subst chunks. constructor.
        -- split; [cbn; lia|]. unfold Props.chunk_ok. cbn.
           unfold skipped in Hskip. apply Z.ltb_ge in Hskip.
           repeat split; try lia; reflexivity.
        -- assert (Hr := IH _ _ _
                           (Z.le_trans _ _ _ H0 (Z.lt_le_incl _ _ Hnext)) Hrest).
           eapply Forall_impl; [|exact Hr]. cbn. intros c [Hc Hok].
           split; [lia | exact Hok].
    + rewrite (loop_done _ _ _ _ _ _ _ _ _ Hge) in Hrun.
      inversion Hrun. constructor.
Qed.

Abbreviation follows := (Props.follows self).

Lemma loop_chunks_from (fuel : nat) :
  1 <= chunk_size self ->
  forall start idx chunks,
    loop fuel start idx = Some chunks ->
    Forall (fun c => start <= start_char c) chunks.
Proof.
  intros Hcs. induction fuel as [|fuel IH]; intros start idx chunks Hrun.
  - destruct (Z.lt_ge_cases start (len text)) as [Hlt|Hge].
    + apply Z.ltb_lt in Hlt. cbn [create_chunks_loop] in Hrun.
      rewrite Hlt in Hrun. discriminate.
    + rewrite (loop_done _ _ _ _ _ _ _ _ _ Hge) in Hrun.
      inversion Hrun. constructor.
  - destruct (Z.lt_ge_cases start (len text)) as [Hlt|Hge].
    + rewrite (loop_step _ _ _ _ _ _ _ _ _ Hlt) in Hrun.
      pose proof (next_start_gt self text break_points start Hcs Hlt) as Hnext.
      destruct (skip start) eqn:Hskip.
      * eapply Forall_impl; [|exact (IH _ _ _ Hrun)]. cbn. intros c Hc. lia.
      * destruct (loop fuel (next start) (idx + 1)) as [rest|] eqn:Hrest;
          [|discriminate].
        inversion Hrun. subst chunks. constructor; [cbn; lia|].
        eapply Forall_impl; [|exact (IH _ _ _ Hrest)]. cbn. intros c Hc. lia.
    + rewrite (loop_done _ _ _ _ _ _ _ _ _ Hge) in Hrun.
      inversion Hrun. constructor.
Qed.

Lemma loop_chunks_follow (fuel : nat) :
  1 <= chunk_size self ->
  forall start idx chunks,
    loop fuel start idx = Some chunks -> Sorted follows chunks.
Proof.
  intros Hcs. induction fuel as [|fuel IH]; intros start idx chunks Hrun.
  - destruct (Z.lt_ge_cases start (len text)) as [Hlt|Hge].
    + apply Z.ltb_lt in Hlt. cbn [create_chunks_loop] in Hrun.
      rewrite Hlt in Hrun. discriminate.
    + rewrite (loop_done _ _ _ _ _ _ _ _ _ Hge) in Hrun.
      inversion Hrun. constructor.
  - destruct (Z.lt_ge_cases start (len text)) as [Hlt|Hge].
    + rewrite (loop_step _ _ _ _ _ _ _ _ _ Hlt) in Hrun.
      destruct (skip start) eqn:Hskip.
      * apply (IH _ _ _ Hrun).
      * destruct (loop fuel (next start) (idx + 1)) as [rest|] eqn:Hrest;
          [|discriminate].
        inversion Hrun. subst chunks. constructor; [apply (IH _ _ _ Hrest)|].
        pose proof (loop_chunks_from fuel Hcs _ _ _ Hrest) as Hfrom.
        destruct rest as [|c rest]; constructor.
        inversion Hfrom as [|? ? Hc _]; subst.
        unfold next_start in Hc. rewrite Hskip in Hc.
        unfold Props.follows. cbn. lia.
    + rewrite (loop_done _ _ _ _ _ _ _ _ _ Hge) in Hrun.
      inversion Hrun. constructor.
Qed.
End Loop.

Lemma chunk_text_chunks_ok path_stem self text source_file file_metadata
    fuel chunks :
  1 <= chunk_size self ->
  chunk_text path_stem self fuel text source_file file_metadata = Some chunks ->
  Forall (Props.chunk_ok self (_clean_text text)
            (_find_break_points (_clean_text text))) chunks.
Proof.
  intros Hcs Hrun. unfold chunk_text in Hrun.
  destruct (_ || _).
  - inversion Hrun. constructor.
  - unfold _create_chunks in Hrun.
    pose proof (loop_chunks_ok _ _ _ _ _ _ fuel Hcs 0 0 chunks
                  (Z.le_refl 0) Hrun) as Hok.
    eapply Forall_impl; [|exact Hok]. cbn. intros c [_ Hc]. exact Hc.
Qed.

(** X1.  With [chunk_size >= 1], every chunk that [chunk_text] returns
    has a range inside the cleaned text, [0 <= start_char < end_char <=
    len(cleaned_text)], of at most [chunk_size] characters. *)
Theorem chunk_text_ranges path_stem self text source_file file_metadata
    fuel chunks :
  1 <= chunk_size self ->
  chunk_text path_stem self fuel text source_file file_metadata = Some chunks ->
  Forall (fun c => 0 <= start_char c < end_char c
                   /\ end_char c <= len (_clean_text text)
                   /\ end_char c - start_char c <= chunk_size self) chunks.
Proof.
  intros Hcs Hrun.
  eapply Forall_impl;
    [|exact (chunk_text_chunks_ok _ _ _ _ _ _ _ Hcs Hrun)].
  intros c (H1 & H2 & H3 & _). repeat split; lia.
Qed.

Lemma chunk_text_ranges_witness :
  exists chunks,
    chunk_text posix_stem Samples.small_chunker 80 Samples.sample_text
      "claims/report.txt" None = Some chunks
    /\ map (fun c => (start_char c, end_char c)) chunks
       = [(0, 24); (20, 44); (40, 64); (60, 75)]
    /\ Forall (fun c => 0 <= start_char c < end_char c
                        /\ end_char c <= len (_clean_text Samples.sample_text)
                        /\ end_char c - start_char c <= 24) chunks.
Proof.
  destruct (chunk_text posix_stem Samples.small_chunker 80 Samples.sample_text
              "claims/report.txt" None) as [chunks|] eqn:Hrun;
    [|vm_compute in Hrun; discriminate].
  exists chunks. split; [reflexivity|]. split.
  - assert (Hopt : option_map (map (fun c => (start_char c, end_char c)))
                     (chunk_text posix_stem Samples.small_chunker 80
                        Samples.sample_text "claims/report.txt" None)
                   = Some [(0, 24); (20, 44); (40, 64); (60, 75)])
      by (vm_compute; reflexivity).
    rewrite Hrun in Hopt. cbn in Hopt. congruence.
  - apply (chunk_text_ranges posix_stem Samples.small_chunker
             Samples.sample_text "claims/report.txt" None 80 chunks).
    + vm_compute. discriminate.
    + exact Hrun.
Defined.

(** X2.  With [chunk_size >= 1], the content of every chunk that
    [chunk_text] returns is the stripped slice [start_char:end_char] of
    the cleaned text, has at least [min_chunk_size] characters (the last
    chunk too), and its length is the ['chunk_size'] entry of the
    metadata. *)
Theorem chunk_text_contents path_stem self text source_file file_metadata
    fuel chunks :
  1 <= chunk_size self ->
  chunk_text path_stem self fuel text source_file file_metadata = Some chunks ->
  Forall (fun c =>
            content c
            = strip (str_slice (_clean_text text) (start_char c) (end_char c))
            /\ min_chunk_size self <= len (content c)
            /\ dict_get "chunk_size" (metadata c)
               = Some (VInt (len (content c)))) chunks.
Proof.
  intros Hcs Hrun.
  eapply Forall_impl;
    [|exact (chunk_text_chunks_ok _ _ _ _ _ _ _ Hcs Hrun)].
  intros c (_ & _ & _ & _ & H5 & H6 & H7). repeat split; assumption.
Qed.

Lemma chunk_text_contents_witness :
  exists chunks,
    chunk_text posix_stem Samples.small_chunker 80 Samples.sample_text
      "claims/report.txt" None = Some chunks
    /\ Forall (fun c =>
                 content c
                 = strip (str_slice (_clean_text Samples.sample_text)
                            (start_char c) (end_char c))
                 /\ 8 <= len (content c)
                 /\ dict_get "chunk_size" (metadata c)
                    = Some (VInt (len (content c)))) chunks.
Proof.
  destruct (chunk_text posix_stem Samples.small_chunker 80 Samples.sample_text
              "claims/report.txt" None) as [chunks|] eqn:Hrun;
    [|vm_compute in Hrun; discriminate].
  exists chunks. split; [reflexivity|].
  apply (chunk_text_contents posix_stem Samples.small_chunker
           Samples.sample_text "claims/report.txt" None 80 chunks).
  - vm_compute. discriminate.
  - exact Hrun.
Defined.

(** X3.  With [chunk_size >= 1], the chunks that [chunk_text] returns are
    in the order of their start positions: each chunk starts after the
    start of the chunk before it, and at most [chunk_overlap] characters
    before the end of that chunk. *)
Theorem chunk_text_order path_stem self text source_file file_metadata
    fuel chunks :
  1 <= chunk_size self ->
  chunk_text path_stem self fuel text source_file file_metadata = Some chunks ->
  Sorted (Props.follows self) chunks.
Proof.
  intros Hcs Hrun. unfold chunk_text in Hrun.
  destruct (_ || _).
  - inversion Hrun. constructor.
  - apply (loop_chunks_follow _ _ _ _ _ _ fuel Hcs 0 0 chunks Hrun).
Qed.

Lemma chunk_text_order_witness :
  exists chunks,
    chunk_text posix_stem Samples.small_chunker 80 Samples.sample_text
      "claims/report.txt" None = Some chunks
    /\ Sorted (Props.follows Samples.small_chunker) chunks.
Proof.
  destruct (chunk_text posix_stem Samples.small_chunker 80 Samples.sample_text
              "claims/report.txt" None) as [chunks|] eqn:Hrun;
    [|vm_compute in Hrun; discriminate].
  exists chunks. split; [reflexivity|].
  apply (chunk_text_order posix_stem Samples.small_chunker
           Samples.sample_text "claims/report.txt" None 80 chunks).
  - vm_compute. discriminate.
  - exact Hrun.
Defined.

(** ** The regular expressions on texts *)

Lemma star_end c (k : option ascii -> list ascii -> nat -> option nat) :
  (forall prev s n, exists m, k prev s n = Some m /\ (n <= m)%nat) ->
  forall prev s n, exists m, star c k prev s n = Some m /\ (n <= m)%nat.
Proof.
  intros Hk prev s. revert prev.
  induction s as [|x s IH]; intros prev n; cbn [star].
  - apply Hk.
  - destruct (c x); [|apply Hk].
    destruct (IH (Some x) (S n)) as (m & -> & Hm).
    exists m. split; [reflexivity | lia].
Qed.

(** [c+] matches at a character of the class and nowhere else. *)
Lemma match_plus c prev x s :
  (c x = true -> exists e, match_here [Plus c] prev (x :: s) 0 = Some (S e))
  /\ (c x = false -> match_here [Plus c] prev (x :: s) 0 = None).
Proof.
  cbn [match_here]. split; intros H; rewrite H; [|reflexivity].
  destruct (star_end c (fun _ _ n => Some n)
              (fun _ _ n => ex_intro _ n (conj eq_refl (le_n n)))
              (Some x) s 1%nat) as (m & Hm & Hle).
  rewrite Hm. destruct m as [|e]; [lia|]. exists e. reflexivity.
Qed.

(** [re.sub(c+, repl, s)]: what is left is the replacement and the
    characters of [s] outside the class. *)
Lemma sub_plus_chars c repl s :
  forall prev skip,
    Forall (fun y => In y repl \/ (In y s /\ c y = false))
           (sub_from [Plus c] repl prev s skip).
Proof.
  induction s as [|x s IH]; intros prev skip; [constructor|].
  assert (Hweak : forall prev' skip',
            Forall (fun y => In y repl \/ (In y (x :: s) /\ c y = false))
                   (sub_from [Plus c] repl prev' s skip')).
  { intros prev' skip'. eapply Forall_impl; [|apply (IH prev' skip')].
    cbn. intros y [H|[H1 H2]]; [left; exact H | right; tauto]. }
  cbn [sub_from]. destruct skip as [|k]; [|apply Hweak].
  destruct (match_plus c prev x s) as [Hyes Hno].
  destruct (c x) eqn:Hc.
  - destruct (Hyes eq_refl) as [e ->]. apply Forall_app. split.
    + apply Forall_forall. intros y Hy. left. exact Hy.
    + apply Hweak.
  - rewrite (Hno eq_refl). constructor; [|apply Hweak].
    right. split; [left; reflexivity | exact Hc].
Qed.

(** [re.sub(c+, repl, s)] leaves a text without characters of the class
    as it is. *)
Lemma sub_plus_none c repl s :
  Forall (fun y => c y = false) s ->
  forall prev, sub_from [Plus c] repl prev s 0 = s.
Proof.
  induction 1 as [|x s Hx Hs IH]; intros prev; [reflexivity|].
  cbn [sub_from]. destruct (match_plus c prev x s) as [_ Hno].
  rewrite (Hno Hx), IH. reflexivity.
Qed.

(** [re.sub(c, '', s)] removes the characters of the class. *)
Lemma sub_one_chars c s :
  forall prev skip,
    Forall (fun y => In y s /\ c y = false) (sub_from [One c] [] prev s skip).
Proof.
  induction s as [|x s IH]; intros prev skip; [constructor|].
  assert (Hweak : forall prev' skip',
            Forall (fun y => In y (x :: s) /\ c y = false)
                   (sub_from [One c] [] prev' s skip')).
  { intros prev' skip'. eapply Forall_impl; [|apply (IH prev' skip')].
    cbn. intros y [H1 H2]. tauto. }
  cbn [sub_from]. destruct skip as [|k]; [|apply Hweak].
  cbn [match_here]. destruct (c x) eqn:Hc.
  - cbn [app]. apply Hweak.
  - constructor; [|apply Hweak]. split; [left; reflexivity | exact Hc].
Qed.

(** ** [strip] *)

Lemma lstrip_no_lead l : no_lead (lstrip_list l).
Proof.
  induction l as [|c l IH]; cbn; [exact I|].
  destruct (isspace c) eqn:E; [exact IH | cbn; exact E].
Qed.

Lemma lstrip_fix l : no_lead l -> lstrip_list l = l.
Proof. destruct l as [|c l]; cbn; [reflexivity|]. intros ->. reflexivity. Qed.

Lemma lstrip_split l :
  exists sp, l = sp ++ lstrip_list l /\ Forall (fun c => isspace c = true) sp.
Proof.
  induction l as [|c l (sp & Heq & Hsp)]; cbn.
  - exists []. split; [reflexivity | constructor].
  - destruct (isspace c) eqn:E.
    + exists (c :: sp). split; [cbn; f_equal; exact Heq|].
      constructor; assumption.
    + exists []. split; [reflexivity | constructor].
Qed.

Lemma lstrip_Forall (P : ascii -> Prop) l :
  Forall P l -> Forall P (lstrip_list l).
Proof.
  intros H. destruct (lstrip_split l) as (sp & Heq & _).
  rewrite Heq in H. apply Forall_app in H. tauto.
Qed.

Lemma strip_list_no_lead l : no_lead (strip_list l).
Proof.
  unfold strip_list. set (l1 := lstrip_list l).
  pose proof (lstrip_no_lead l) as H1. fold l1 in H1.
  destruct (lstrip_split (rev l1)) as (sp & Heq & _).
  set (m := lstrip_list (rev l1)) in *.
  destruct (rev m) as [|c r] eqn:Hr; [exact I|].
  assert (Hl1 : l1 = rev m ++ rev sp).
  { rewrite <- (rev_involutive l1), Heq, rev_app_distr. reflexivity. }
  rewrite Hr in Hl1. rewrite Hl1 in H1. cbn in H1. cbn. exact H1.
Qed.

Lemma strip_list_no_trail l : no_lead (rev (strip_list l)).
Proof.
  unfold strip_list. rewrite rev_involutive. apply lstrip_no_lead.
Qed.

Lemma strip_list_fix l : no_lead l -> no_lead (rev l) -> strip_list l = l.
Proof.
  intros H1 H2. unfold strip_list.
  rewrite (lstrip_fix l H1), (lstrip_fix _ H2). apply rev_involutive.
Qed.

(** Stripping a stripped string changes nothing. *)
Lemma strip_idem s : strip (strip s) = strip s.
Proof.
  unfold strip. rewrite list_ascii_of_string_of_list_ascii.
  fold (strip_list (list_ascii_of_string s)).
  fold (strip_list (strip_list (list_ascii_of_string s))).
  rewrite (strip_list_fix _ (strip_list_no_lead _) (strip_list_no_trail _)).
  reflexivity.
Qed.

Lemma strip_list_Forall (P : ascii -> Prop) l :
  Forall P l -> Forall P (strip_list l).
Proof.
  intros H. unfold strip_list.
  apply Forall_rev, lstrip_Forall, Forall_rev, lstrip_Forall. exact H.
Qed.

Lemma newline_is_space c : is_newline c = true -> isspace c = true.
Proof.
  unfold is_newline, isspace, between. intros H.
  apply andb_true_iff in H. destruct H as [H1 H2].
  apply Z.leb_le in H1, H2.
  replace ((9 <=? code c) && (code c <=? 13)) with true; [reflexivity|].
  symmetry. apply andb_true_iff. split; apply Z.leb_le; lia.
Qed.

Lemma space_not_newline : is_newline " "%char = false.
Proof. reflexivity. Qed.

Lemma clean_text_list (text : string) :
  Forall (fun c => is_control c = false
                   /\ is_newline c = false
                   /\ (isspace c = true -> c = " "%char))
         (list_ascii_of_string (_clean_text text)).
Proof.
  unfold _clean_text, strip, sub.
  rewrite !list_ascii_of_string_of_list_ascii.
  fold (strip_list
          (sub_from [One is_control] (list_ascii_of_string "") None
             (sub_from [Plus is_newline]
                (list_ascii_of_string (String nl EmptyString)) None
                (sub_from [Plus isspace] (list_ascii_of_string " ") None
                   (list_ascii_of_string text) 0) 0) 0)).
  apply strip_list_Forall.
  set (t1 := sub_from [Plus isspace] (list_ascii_of_string " ") None
               (list_ascii_of_string text) 0).
  assert (H1 : Forall (fun y => is_newline y = false
                                /\ (isspace y = true -> y = " "%char)) t1).
  { eapply Forall_impl; [|apply sub_plus_chars].
    cbn. intros y [[<-|[]]|[_ Hy]].
    - split; [reflexivity | intros _; reflexivity].
    - split; [|congruence].
      destruct (is_newline y) eqn:E; [|reflexivity].
      apply newline_is_space in E. congruence. }
  rewrite (sub_plus_none is_newline _ t1);
    [|eapply Forall_impl; [|exact H1]; cbn; tauto].
  apply Forall_forall. intros y Hy.
  pose proof (sub_one_chars is_control t1 None 0) as H3.
  rewrite Forall_forall in H1, H3.
  destruct (H3 y Hy) as [Hin Hctl]. destruct (H1 y Hin) as [Hnl Hsp].
  repeat split; assumption.
Qed.

(** X4.  The text [_clean_text] returns holds no control character of
    the removed class and no newline, its only whitespace character is
    the space, and it neither starts nor ends with whitespace. *)
Theorem clean_text_characters (text : string) :
  Forall (fun c => is_control c = false
                   /\ is_newline c = false
                   /\ (isspace c = true -> c = " "%char))
         (list_ascii_of_string (_clean_text text))
  /\ strip (_clean_text text) = _clean_text text.
Proof.
  split; [apply clean_text_list|]. unfold _clean_text. apply strip_idem.
Qed.

(** ** Break points *)

(** A pattern that begins with a newline finds nothing in a text without
    newline. *)
Lemma finditer_no_newline (r : list atom) (s : list ascii) :
  Forall (fun c => is_newline c = false) s ->
  forall prev pos, finditer_from (One is_newline :: r) prev s pos 0 = [].
Proof.
  induction 1 as [|x s Hx Hs IH]; intros prev pos; [reflexivity|].
  cbn [finditer_from match_here]. rewrite Hx. apply IH.
Qed.

(** X5.  On the text [_clean_text] returns, the section-header,
    numbered-item, field-name, separator and paragraph patterns of
    [_find_break_points] find nothing: the break points are 0, the ends of
    the sentence endings [[.!?]+\s+] in ascending order, and the length
    of the text. *)
Theorem clean_text_break_points (text : string) :
  let cleaned := _clean_text text in
  _find_break_points cleaned
  = [0]
    ++ sorted_set
         (map Z.of_nat
            (map snd (finditer [Plus is_sentence_end; Plus isspace] cleaned)))
    ++ [len cleaned].
Proof.
  cbv zeta. unfold _find_break_points.
  assert (Hnl : Forall (fun c => is_newline c = false)
                  (list_ascii_of_string (_clean_text text))).
  { eapply Forall_impl; [|apply (clean_text_list text)].
    cbn. tauto. }
  assert (Hnone : forall r,
            finditer (One is_newline :: r) (_clean_text text) = []).
  { intros r. unfold finditer. apply finditer_no_newline. exact Hnl. }
  unfold section_patterns. cbn [flat_map].
  rewrite !Hnone. cbn [map app]. rewrite app_nil_r. reflexivity.
Qed.

Lemma star_bound c (k : option ascii -> list ascii -> nat -> option nat) :
  (forall prev s n m, k prev s n = Some m ->
                      (n <= m <= n + List.length s)%nat) ->
  forall prev s n m,
    star c k prev s n = Some m -> (n <= m <= n + List.length s)%nat.
Proof.
  intros Hk prev s. revert prev.
  induction s as [|x s IH]; intros prev n m; cbn [star List.length].
  - intros H. apply Hk in H. cbn in H. lia.
  - destruct (c x).
    + destruct (star c k (Some x) s (S n)) as [e|] eqn:E.
      * intros H. inversion H; subst. apply IH in E. lia.
      * intros H. apply Hk in H. cbn in H. lia.
    + intros H. apply Hk in H. cbn in H. lia.
Qed.

(** A match ends inside the text. *)
Lemma match_here_bound (r : list atom) :
  forall prev s n m,
    match_here r prev s n = Some m -> (n <= m <= n + List.length s)%nat.
Proof.
  induction r as [|a r IH]; intros prev s n m; cbn [match_here].
  - intros H. inversion H. lia.
  - destruct a as [c|c|c| |].
    + destruct s as [|x s]; [discriminate|].
      destruct (c x); [|discriminate].
      intros H. apply IH in H. cbn. lia.
    + apply star_bound. exact IH.
    + destruct s as [|x s]; [discriminate|].
      destruct (c x); [|discriminate].
      intros H. apply (star_bound c _ IH) in H. cbn. lia.
    + destruct prev as [p|]; [destruct (is_newline p); [|discriminate]|];
        apply IH.
    + destruct s as [|x s]; [|destruct (is_newline x); [|discriminate]];
        apply IH.
Qed.

Lemma finditer_from_bound (r : list atom) (s : list ascii) :
  forall prev pos skip,
    Forall (fun ab => (pos <= fst ab < snd ab)%nat
                      /\ (snd ab <= pos + List.length s)%nat)
           (finditer_from r prev s pos skip).
Proof.
  induction s as [|x s IH]; intros prev pos skip; [constructor|].
  assert (Hweak : forall prev' skip',
            Forall (fun ab => (pos <= fst ab < snd ab)%nat
                              /\ (snd ab <= pos + List.length (x :: s))%nat)
                   (finditer_from r prev' s (S pos) skip')).
  { intros prev' skip'. eapply Forall_impl; [|apply (IH prev' (S pos) skip')].
    cbn. intros ab H. lia. }
  cbn [finditer_from]. destruct skip as [|k]; [|apply Hweak].
  destruct (match_here r prev (x :: s) 0) as [[|e]|] eqn:E; try apply Hweak.
  constructor; [|apply Hweak].
  apply match_here_bound in E. cbn in *. lia.
Qed.

(** The matches [finditer] returns lie inside the text. *)
Lemma finditer_bound (r : list atom) (text : string) :
  Forall (fun ab => (fst ab < snd ab)%nat
                    /\ (snd ab <= String.length text)%nat)
         (finditer r text).
Proof.
  unfold finditer.
  eapply Forall_impl; [|apply finditer_from_bound].
  cbn. intros ab H.
  assert (List.length (list_ascii_of_string text) = String.length text).
  { clear. induction text as [|c t IH]; cbn; [reflexivity | f_equal; exact IH]. }
  lia.
Qed.

Lemma insert_sorted_In x y l : In y (insert_sorted x l) <-> y = x \/ In y l.
Proof.
  induction l as [|z l IH]; cbn.
  - intuition.
  - destruct (x <? z) eqn:E1; [cbn; intuition|].
    destruct (x =? z) eqn:E2.
    + apply Z.eqb_eq in E2. subst. cbn. intuition.
    + cbn. rewrite IH. intuition.
Qed.

Lemma sorted_set_In y l : In y (sorted_set l) <-> In y l.
Proof.
  induction l as [|x l IH]; cbn; [reflexivity|].
  rewrite insert_sorted_In, IH. intuition.
Qed.

Lemma insert_sorted_sorted x l :
  StronglySorted Z.lt l -> StronglySorted Z.lt (insert_sorted x l).
Proof.
  induction l as [|z l IH]; cbn; intros Hs.
  - constructor; constructor.
  - apply StronglySorted_inv in Hs. destruct Hs as [Hs Hall].
    destruct (x <? z) eqn:E1.
    + apply Z.ltb_lt in E1. constructor; [constructor; assumption|].
      constructor; [exact E1|].
      eapply Forall_impl; [|exact Hall]. cbn. intros; lia.
    + destruct (x =? z) eqn:E2; [constructor; assumption|].
      apply Z.ltb_ge in E1. apply Z.eqb_neq in E2.
      constructor; [apply IH; exact Hs|].
      apply Forall_forall. intros y Hy.
      apply (proj1 (insert_sorted_In _ _ _)) in Hy.
      rewrite Forall_forall in Hall.
      destruct Hy as [->|Hy]; [lia | apply Hall; exact Hy].
Qed.

Lemma sorted_set_sorted l : StronglySorted Z.lt (sorted_set l).
Proof.
  induction l as [|x l IH]; cbn; [constructor|].
  apply insert_sorted_sorted. exact IH.
Qed.

(** X6.  For every text, the list [_find_break_points] returns starts
    with 0 and ends with [len(text)]; the break points between them are
    in strictly ascending order without repetition, and every break point
    lies in [[0, len(text)]], so the whole list is in ascending order. *)
Theorem find_break_points_shape (text : string) :
  exists middle,
    _find_break_points text = [0] ++ middle ++ [len text]
    /\ StronglySorted Z.lt middle
    /\ Forall (fun bp => 0 <= bp <= len text) (_find_break_points text)
    /\ StronglySorted Z.le (_find_break_points text).
Proof.
  unfold _find_break_points.
  set (pattern_starts :=
         flat_map (fun pattern => map fst (finditer pattern text))
                  section_patterns).
  set (sentence_endings :=
         map snd (finditer [Plus is_sentence_end; Plus isspace] text)).
  set (paragraph_breaks :=
         map fst (finditer [One is_newline; Star isspace; One is_newline] text)).
  set (found := pattern_starts ++ sentence_endings ++ paragraph_breaks).
  assert (Hfound : Forall (fun p => (p <= String.length text)%nat) found).
  { subst found. apply Forall_app. split; [|apply Forall_app; split].
    - subst pattern_starts. apply Forall_forall. intros p Hp.
      apply in_flat_map in Hp. destruct Hp as (r & _ & Hp).
      apply in_map_iff in Hp. destruct Hp as (ab & <- & Hab).
      pose proof (finditer_bound r text) as Hb. rewrite Forall_forall in Hb.
      specialize (Hb ab Hab). lia.
    - subst sentence_endings. apply Forall_forall. intros p Hp.
      apply in_map_iff in Hp. destruct Hp as (ab & <- & Hab).
      pose proof (finditer_bound [Plus is_sentence_end; Plus isspace] text)
        as Hb.
      rewrite Forall_forall in Hb. specialize (Hb ab Hab). lia.
    - subst paragraph_breaks. apply Forall_forall. intros p Hp.
      apply in_map_iff in Hp. destruct Hp as (ab & <- & Hab).
      pose proof (finditer_bound
                    [One is_newline; Star isspace; One is_newline] text) as Hb.
      rewrite Forall_forall in Hb. specialize (Hb ab Hab). lia. }
  set (middle := sorted_set (map Z.of_nat found)).
  assert (Hmid : Forall (fun bp => 0 <= bp <= len text) middle).
  { apply Forall_forall. intros bp Hbp. subst middle.
    apply (proj1 (sorted_set_In _ _)) in Hbp. apply in_map_iff in Hbp.
    destruct Hbp as (p & <- & Hp). rewrite Forall_forall in Hfound.
    specialize (Hfound p Hp). unfold len. lia. }
  assert (Hlen : 0 <= len text) by (unfold len; lia).
  exists middle. split; [reflexivity|].
  split; [apply sorted_set_sorted|]. split.
  - cbn [app]. constructor; [lia|]. apply Forall_app. split; [exact Hmid|].
    constructor; [lia | constructor].
  - cbn [app]. constructor.
    + assert (Hs : StronglySorted Z.lt middle) by apply sorted_set_sorted.
      clear - Hs Hmid. induction middle as [|b m IH].
      * cbn. constructor; constructor.
      * apply StronglySorted_inv in Hs. destruct Hs as [Hs Hall].
        inversion Hmid; subst. cbn. constructor; [apply IH; assumption|].
        apply Forall_app. split.
        -- eapply Forall_impl; [|exact Hall]. cbn. intros; lia.
        -- constructor; [lia | constructor].
    + apply Forall_app. split.
      * eapply Forall_impl; [|exact Hmid]. cbn. intros; lia.
      * constructor; [lia | constructor].
Qed.

Lemma find_rev_last {A : Type} (f : A -> bool) (l : list A) (x : A) :
  find f (rev l) = Some x ->
  exists l1 l2, l = l1 ++ x :: l2 /\ f x = true
                /\ Forall (fun y => f y = false) l2.
Proof.
  induction l as [|a l IH] using rev_ind; [discriminate|].
  rewrite rev_app_distr. cbn [rev app find].
  destruct (f a) eqn:E.
  - intros H. inversion H; subst. exists l, []. repeat split; [exact E|].
    constructor.
  - intros H. destruct (IH H) as (l1 & l2 & -> & Hx & Hl2).
    exists l1, (l2 ++ [a]). rewrite <- app_assoc. repeat split; [exact Hx|].
    apply Forall_app. split; [exact Hl2|]. constructor; [exact E | constructor].
Qed.

(** X7.  [_find_best_break_point] returns [end] when no break point
    lies in the search window [[max(start, end - chunk_size // 5), end]];
    otherwise it returns a break point of the window, and when the break
    points are in ascending order it is the largest one of the window. *)
Theorem find_best_break_point_largest
    (self : ClaimsTextChunker) (text : string) (start end_ : Z)
    (break_points : list Z) :
  let search_start := Z.max start (end_ - chunk_size self / 5) in
  let best := _find_best_break_point self text start end_ break_points in
  (best = end_
   /\ forall bp, In bp break_points -> ~ search_start <= bp <= end_)
  \/ (In best break_points
      /\ search_start <= best <= end_
      /\ (StronglySorted Z.le break_points ->
          forall bp, In bp break_points -> search_start <= bp <= end_ ->
                     bp <= best)).
Proof.
  cbv zeta. unfold _find_best_break_point.
  set (search_start := Z.max start (end_ - chunk_size self / 5)).
  set (in_window := fun bp => (search_start <=? bp) && (bp <=? end_)).
  assert (Hwin : forall bp, in_window bp = true <-> search_start <= bp <= end_).
  { intros bp. unfold in_window. rewrite andb_true_iff, !Z.leb_le. tauto. }
  destruct (find in_window (rev break_points)) as [best|] eqn:Hfind.
  - right. destruct (find_rev_last _ _ _ Hfind) as (l1 & l2 & Heq & Hb & Hl2).
    split; [rewrite Heq; apply in_or_app; right; left; reflexivity|].
    split; [apply Hwin; exact Hb|].
    intros Hsorted bp Hin Hbp. rewrite Heq in Hin, Hsorted.
    apply in_app_or in Hin. destruct Hin as [Hin|[->|Hin]].
    + clear - Hsorted Hin. induction l1 as [|a l1 IH]; [contradiction|].
      cbn in Hsorted. apply StronglySorted_inv in Hsorted.
      destruct Hsorted as [Hs Hall]. destruct Hin as [->|Hin].
      * rewrite Forall_forall in Hall. apply Hall.
        apply in_or_app. right. left. reflexivity.
      * apply IH; assumption.
    + lia.
    + rewrite Forall_forall in Hl2. apply Hwin in Hbp.
      rewrite (Hl2 bp Hin) in Hbp. discriminate.
  - left. split; [reflexivity|]. intros bp Hin Hbp.
    apply Hwin in Hbp. apply (in_rev break_points) in Hin.
    rewrite (find_none _ _ Hfind bp Hin) in Hbp. discriminate.
Qed.

Lemma find_best_break_point_largest_witness :
  _find_best_break_point Samples.small_chunker
    (_clean_text Samples.sample_text) 20 44
    (_find_break_points (_clean_text Samples.sample_text)) = 44
  /\ _find_best_break_point Samples.small_chunker
       (_clean_text Samples.sample_text) 0 24
       (_find_break_points (_clean_text Samples.sample_text)) = 24
  /\ forall bp,
       In bp (_find_break_points (_clean_text Samples.sample_text)) ->
       20 <= bp <= 24 -> bp <= 24.
Proof.
  split; [reflexivity|]. split; [reflexivity|].
  destruct (find_best_break_point_largest Samples.small_chunker
              (_clean_text Samples.sample_text) 0 24
              (_find_break_points (_clean_text Samples.sample_text)))
    as [[_ Hnone]|(_ & _ & Hmax)].
  - exfalso. apply (Hnone 24).
    + vm_compute. tauto.
    + vm_compute. split; discriminate.
  - intros bp Hin Hbp.
    assert (Hbest : _find_best_break_point Samples.small_chunker
                      (_clean_text Samples.sample_text) 0 24
                      (_find_break_points (_clean_text Samples.sample_text))
                    = 24) by reflexivity.
    rewrite Hbest in Hmax. apply Hmax.
    + assert (Hbps : _find_break_points (_clean_text Samples.sample_text)
                     = [0; 24; 52; 75]) by reflexivity.
      rewrite Hbps.
      repeat first [ apply SSorted_nil | apply SSorted_cons
                   | apply Forall_nil | apply Forall_cons | lia ].
    + exact Hin.
    + assert (Hss : Z.max 0 (24 - chunk_size Samples.small_chunker / 5) = 20)
        by reflexivity.
      rewrite Hss. exact Hbp.
Defined.

End ChunkerExtra.


(* ===================================================================== *)
(** * Properties of [chunk_file], [chunk_directory], [_extract_keywords] *)
(* ===================================================================== *)

Module FilesExtra.
Import Py Regex TextChunker ChunkFiles Keywords ChunkerSpec.

Section Files.
Variable path_stem : string -> string.
Variable path_name : string -> string.
Variable path_suffix : string -> string.
Variable read_file : string -> exn + string.
Variable rglob : string -> list string.
Variable is_file : string -> bool.
Variable self : ClaimsTextChunker.

Abbreviation chunk_file_ :=
  (chunk_file path_stem path_name path_suffix read_file self).
Abbreviation chunk_paths_ :=
  (chunk_paths path_stem path_name path_suffix read_file is_file self).

(** The first chunk of every file has the index 0 and the id made of
    the stem of the file name. *)
Lemma chunk_file_first fuel file_path c cs :
  chunk_file_ fuel file_path = Some (c :: cs) ->
  chunk_id c = make_chunk_id path_stem (path_name file_path) 0.
Proof.
  unfold chunk_file. destruct (read_file file_path) as [e|text];
    [discriminate|].
  unfold chunk_text. destruct (_ || _); [discriminate|].
  unfold _create_chunks. intros Hrun.
  destruct (loop_indices _ _ _ _ _ _ _ _ _ _ Hrun) as (Hidx & Hids & _).
  inversion Hids as [|? ? Hid _]; subst.
  cbn [map List.length seq] in Hidx. injection Hidx as Hi _.
  rewrite Hid, Hi. reflexivity.
Qed.

(** The chunks of a selected file are part of the result of the loop. *)
Lemma chunk_paths_part fuel exts l1 file_path rest chunks cs :
  chunk_paths_ fuel exts (l1 ++ file_path :: rest) = Some chunks ->
  is_file file_path
  && existsb (String.eqb (lower (path_suffix file_path))) exts = true ->
  chunk_file_ fuel file_path = Some cs ->
  exists a b, chunks = a ++ cs ++ b
              /\ chunk_paths_ fuel exts rest = Some b.
Proof.
  revert chunks. induction l1 as [|p l1 IH]; intros chunks Hrun Hsel Hcs.
  - cbn [app chunk_paths] in Hrun. rewrite Hsel, Hcs in Hrun.
    destruct (chunk_paths_ fuel exts rest) as [b|]; [|discriminate].
    inversion Hrun. exists [], b. split; reflexivity.
  - cbn [app chunk_paths] in Hrun.
    destruct (is_file p && _).
    + destruct (chunk_file_ fuel p) as [cp|]; [|discriminate].
      destruct (chunk_paths_ fuel exts (l1 ++ file_path :: rest))
        as [tail|] eqn:Htail; [|discriminate].
      inversion Hrun. destruct (IH tail eq_refl Hsel Hcs) as (a & b & -> & Hb).
      exists (cp ++ a), b. rewrite <- app_assoc. split; [reflexivity | exact Hb].
    + apply (IH chunks Hrun Hsel Hcs).
Qed.

(** X8.  [chunk_directory] does not keep chunk ids apart across files:
    when two selected files of the directory have names with the same
    stem and each gives at least one chunk, the list it returns holds the
    same [chunk_id] twice. *)
Theorem chunk_directory_ids_collide
    fuel directory_path file_extensions chunks l1 p1 l2 p2 l3 :
  let exts := match file_extensions with
              | Some exts => exts
              | None => [".txt"%string]
              end in
  chunk_directory path_stem path_name path_suffix read_file rglob is_file
    self fuel directory_path file_extensions = Some chunks ->
  rglob directory_path = l1 ++ p1 :: l2 ++ p2 :: l3 ->
  is_file p1 && existsb (String.eqb (lower (path_suffix p1))) exts = true ->
  is_file p2 && existsb (String.eqb (lower (path_suffix p2))) exts = true ->
  path_stem (path_name p1) = path_stem (path_name p2) ->
  (exists c cs, chunk_file_ fuel p1 = Some (c :: cs)) ->
  (exists c cs, chunk_file_ fuel p2 = Some (c :: cs)) ->
  ~ NoDup (map chunk_id chunks).
Proof.
  cbv zeta. unfold chunk_directory.
  intros Hrun Hglob Hs1 Hs2 Hname (c1 & cs1 & H1) (c2 & cs2 & H2).
  rewrite Hglob in Hrun.
  destruct (chunk_paths_part _ _ _ _ _ _ _ Hrun Hs1 H1) as (a & b & -> & Hb).
  destruct (chunk_paths_part _ _ _ _ _ _ _ Hb Hs2 H2) as (a' & b' & -> & _).
  pose proof (chunk_file_first _ _ _ _ H1) as Hid1.
  pose proof (chunk_file_first _ _ _ _ H2) as Hid2.
  unfold make_chunk_id in Hid1, Hid2. rewrite <- Hname, <- Hid1 in Hid2.
  rewrite ?map_app. cbn [map app]. rewrite ?map_app. cbn [map app].
  rewrite Hid2. intros Hnd.
  apply NoDup_remove_2 in Hnd. apply Hnd.
  apply in_or_app. right. apply in_or_app. right.
  apply in_or_app. right. left. reflexivity.
Qed.
End Files.

Lemma chunk_directory_ids_collide_witness :
  exists chunks,
    chunk_directory posix_stem posix_name posix_suffix
      Samples.sample_read_file Samples.sample_rglob (fun _ => true)
      Samples.small_chunker 80 "claims" None = Some chunks
    /\ map chunk_id chunks
       = ["report_chunk_000"; "report_chunk_001"; "report_chunk_002";
          "report_chunk_003"; "report_chunk_000"; "report_chunk_001";
          "report_chunk_002"]%string
    /\ ~ NoDup (map chunk_id chunks).
Proof.
  destruct (chunk_directory posix_stem posix_name posix_suffix
              Samples.sample_read_file Samples.sample_rglob (fun _ => true)
              Samples.small_chunker 80 "claims" None) as [chunks|] eqn:Hrun;
    [|vm_compute in Hrun; discriminate].
  exists chunks. split; [reflexivity|]. split.
  - assert (Hopt : option_map (map chunk_id)
                     (chunk_directory posix_stem posix_name posix_suffix
                        Samples.sample_read_file Samples.sample_rglob
                        (fun _ => true) Samples.small_chunker 80 "claims" None)
                   = Some ["report_chunk_000"; "report_chunk_001";
                           "report_chunk_002"; "report_chunk_003";
                           "report_chunk_000"; "report_chunk_001";
                           "report_chunk_002"]%string)
      by (vm_compute; reflexivity).
    rewrite Hrun in Hopt. cbn in Hopt. congruence.
  - apply (chunk_directory_ids_collide posix_stem posix_name posix_suffix
             Samples.sample_read_file Samples.sample_rglob (fun _ => true)
             Samples.small_chunker 80 "claims" None chunks
             [] "claims/a/report.txt"%string ["claims/notes.md"%string]
             "claims/b/report.TXT"%string ["claims/broken.txt"%string]).
    + exact Hrun.
    + reflexivity.
    + reflexivity.
    + reflexivity.
    + reflexivity.
    + vm_compute. eexists. eexists. reflexivity.
    + vm_compute. eexists. eexists. reflexivity.
Defined.

(** ** Keywords *)

Lemma lower_char_idem (c : ascii) : lower_char (lower_char c) = lower_char c.
Proof. destruct c as [[] [] [] [] [] [] [] []]; reflexivity. Qed.

Lemma words_from_chars (Q : ascii -> Prop) (s : list ascii) :
  Forall Q s ->
  forall cur,
    Forall (fun c => is_word_char c = true /\ Q c) cur ->
    Forall (fun w => w <> ""%string
                     /\ Forall (fun c => is_word_char c = true /\ Q c)
                               (list_ascii_of_string w))
           (words_from cur s).
Proof.
  induction 1 as [|x s Hx Hs IH]; intros cur Hcur; cbn [words_from].
  - destruct cur as [|c cur]; constructor; [|constructor].
    rewrite list_ascii_of_string_of_list_ascii. split.
    + intros H. apply (f_equal list_ascii_of_string) in H.
      rewrite list_ascii_of_string_of_list_ascii in H. cbn in H.
      destruct (rev cur); discriminate.
    + apply Forall_rev. exact Hcur.
  - destruct (is_word_char x) eqn:E.
    + apply IH. constructor; [split; assumption | exact Hcur].
    + destruct cur as [|c cur]; [apply IH; constructor|].
      constructor; [|apply IH; constructor].
      rewrite list_ascii_of_string_of_list_ascii. split.
      * intros H. apply (f_equal list_ascii_of_string) in H.
        rewrite list_ascii_of_string_of_list_ascii in H. cbn in H.
        destruct (rev cur); discriminate.
      * apply Forall_rev. exact Hcur.
Qed.

(** X9.  Every keyword [_extract_keywords] returns has more than two
    characters, is not a stop word, consists of word characters only and
    is in lower case. *)
Theorem extract_keywords_properties (text : string) :
  Forall (fun word =>
            2 < len word
            /\ ~ In word stop_words
            /\ Forall (fun c => is_word_char c = true)
                      (list_ascii_of_string word)
            /\ lower word = word)
         (_extract_keywords text).
Proof.
  apply Forall_forall. intros word Hw. unfold _extract_keywords in Hw.
  apply filter_In in Hw. destruct Hw as [Hin Htest].
  apply andb_true_iff in Htest. destruct Htest as [Hlen Hstop].
  apply Z.ltb_lt in Hlen. split; [exact Hlen|]. split.
  - intros Hs. apply negb_true_iff in Hstop.
    assert (existsb (String.eqb word) stop_words = true).
    { apply existsb_exists. exists word. split; [exact Hs|].
      apply String.eqb_refl. }
    congruence.
  - unfold findall_words, lower in Hin.
    rewrite list_ascii_of_string_of_list_ascii in Hin.
    pose proof (words_from_chars (fun c => lower_char c = c)
                  (map lower_char (list_ascii_of_string text))) as Hwords.
    assert (Hlow : Forall (fun c => lower_char c = c)
                     (map lower_char (list_ascii_of_string text))).
    { apply Forall_forall. intros c Hc. apply in_map_iff in Hc.
      destruct Hc as (c0 & <- & _). apply lower_char_idem. }
    specialize (Hwords Hlow [] (Forall_nil _)).
    rewrite Forall_forall in Hwords. destruct (Hwords word Hin) as [_ Hchars].
    split.
    + eapply Forall_impl; [|exact Hchars]. cbn. tauto.
    + unfold lower. rewrite <- (string_of_list_ascii_of_string word) at 2.
      f_equal. clear - Hchars.
      induction (list_ascii_of_string word) as [|c l IH]; [reflexivity|].
      inversion Hchars as [|? ? [_ Hc] Hl]; subst. cbn. rewrite Hc.
      f_equal. apply IH. exact Hl.
Qed.

End FilesExtra.


(* ===================================================================== *)
(** * Further properties of the local vector store *)
(* ===================================================================== *)

Module StoreExtra.
Import Py PyFacts LocalVectorDB Props StoreSpec.

Lemma db_eta (self : LocalVectorDB) :
  {| index := index self; db_metadata := db_metadata self;
     dimension := dimension self; is_trained := is_trained self |} = self.
Proof. destruct self. reflexivity. Qed.

(** Fresh ids are appended in the order of the batch. *)
Lemma store_all_fresh batch :
  forall records,
    NoDup (map emb_chunk_id (records ++ batch)) ->
    store_all batch (map entry records) = map entry (records ++ batch).
Proof.
  induction batch as [|emb batch IH]; intros records Hnd.
  - rewrite app_nil_r. reflexivity.
  - cbn [store_all fold_left].
    rewrite dict_set_new.
    + change [(emb_chunk_id emb, stored_metadata emb)] with (map entry [emb]).
      rewrite <- map_app.
      change (fold_left _ batch (map entry (records ++ [emb])))
        with (store_all batch (map entry (records ++ [emb]))).
      rewrite IH; rewrite <- app_assoc; [reflexivity | exact Hnd].
    + destruct (dict_mem (emb_chunk_id emb) (map entry records)) eqn:E;
        [|reflexivity].
      apply dict_mem_In in E. unfold dict_keys in E. rewrite map_map in E.
      unfold entry in E. cbn [fst] in E. rewrite map_app in Hnd.
      cbn [map] in Hnd.
      apply NoDup_remove_2 in Hnd. exfalso. apply Hnd.
      apply in_or_app. left. exact E.
Qed.

Lemma dict_set_same {V : Type} (k : string) (v : V) (d : list (string * V)) :
  dict_get k d = Some v -> dict_set k v d = d.
Proof.
  induction d as [|[k' v'] d IH]; cbn; [discriminate|].
  destruct (String.eqb k k') eqn:E.
  - apply String.eqb_eq in E. intros H. inversion H. subst. reflexivity.
  - intros H. rewrite (IH H). reflexivity.
Qed.

Lemma dict_get_entry records emb :
  NoDup (map emb_chunk_id records) -> In emb records ->
  dict_get (emb_chunk_id emb) (map entry records) = Some (stored_metadata emb).
Proof.
  induction records as [|x records IH]; intros Hnd Hin; [contradiction|].
  cbn [map] in Hnd. inversion Hnd as [|? ? Hx Hnd']; subst.
  cbn [map]. unfold entry at 1. cbn [dict_get]. destruct Hin as [->|Hin].
  - rewrite String.eqb_refl. reflexivity.
  - destruct (String.eqb (emb_chunk_id emb) (emb_chunk_id x)) eqn:E.
    + apply String.eqb_eq in E. exfalso. apply Hx. rewrite <- E.
      apply in_map. exact Hin.
    + apply IH; assumption.
Qed.

(** Writing the same records again changes nothing. *)
Lemma store_all_same records batch :
  NoDup (map emb_chunk_id records) -> incl batch records ->
  store_all batch (map entry records) = map entry records.
Proof.
  intros Hnd. induction batch as [|emb batch IH]; intros Hincl;
    [reflexivity|].
  cbn [store_all fold_left].
  rewrite dict_set_same
    by (apply dict_get_entry; [exact Hnd | apply Hincl; left; reflexivity]).
  apply IH. intros x Hx. apply Hincl. right. exact Hx.
Qed.

Lemma vstack_same_length (d : Z) (batch : list EmbeddingResult) :
  batch <> [] ->
  Forall (fun emb => Z.of_nat (List.length (embedding emb)) = d) batch ->
  Faiss.vstack (map embedding batch) = inr (map embedding batch)
  /\ Faiss.columns (map embedding batch) = d.
Proof.
  destruct batch as [|e0 batch]; [congruence|]. intros _ Hall.
  inversion Hall as [|? ? H0 Hrest]; subst. cbn [map Faiss.vstack Faiss.columns].
  split; [|reflexivity].
  replace (forallb _ (map embedding batch)) with true; [reflexivity|].
  symmetry. apply forallb_forall. intros v Hv. apply Nat.eqb_eq.
  apply in_map_iff in Hv. destruct Hv as (e & <- & He).
  rewrite Forall_forall in Hrest. specialize (Hrest e He). lia.
Qed.

(** The upsert of a batch of new ids on a store that holds records. *)
Lemma upsert_fresh
    (self : LocalVectorDB) (d : Z) (records batch : list EmbeddingResult) :
  holds records d self ->
  batch <> [] ->
  Forall (fun emb => Z.of_nat (List.length (embedding emb)) = d) batch ->
  NoDup (map emb_chunk_id (records ++ batch)) ->
  fst (upsert_embeddings self batch) = true
  /\ holds (records ++ batch) d (snd (upsert_embeddings self batch)).
Proof.
  intros (Htr & Hix & Hmd & Hnd & Hdim) Hne Hbatch Hfresh.
  destruct (vstack_same_length d batch Hne Hbatch) as [Hstack Hcols].
  unfold upsert_embeddings. rewrite Htr.
  destruct batch as [|e0 batch']; [congruence|].
  rewrite Hstack. cbn [index with_metadata]. rewrite Hix.
  unfold Faiss.add. cbn [Faiss.d Faiss.xb]. rewrite Hcols, Z.eqb_refl.
  cbn [fst snd]. split; [reflexivity|].
  unfold holds. cbn [is_trained index db_metadata with_index with_metadata].
  rewrite Hmd, store_all_fresh by exact Hfresh.
  rewrite map_app. repeat split; try assumption.
  apply Forall_app. split; assumption.
Qed.

Lemma holds_stats records d self :
  holds records d self ->
  dict_get "total_vectors" (get_stats self)
  = Some (VInt (Z.of_nat (List.length records)))
  /\ dict_get "metadata_entries" (get_stats self)
     = Some (VInt (Z.of_nat (List.length records))).
Proof.
  intros (Htr & Hix & Hmd & _). unfold get_stats. rewrite Htr, Hix, Hmd.
  cbn [dict_get String.eqb Ascii.eqb Bool.eqb]. unfold Faiss.ntotal.
  cbn [Faiss.xb]. rewrite !length_map. split; reflexivity.
Qed.

(** X10.  On a store that holds a list of records, the upsert of a
    non-empty batch whose vectors have the dimension of the index and
    whose chunk ids are new and differ from each other succeeds, and the
    store then holds the old records followed by the batch: vectors and
    metadata keys stay aligned, and the statistics count as many vectors
    as metadata entries. *)
Theorem upsert_fresh_batch_extends
    (self : LocalVectorDB) (d : Z) (records batch : list EmbeddingResult) :
  holds records d self ->
  batch <> [] ->
  Forall (fun emb => Z.of_nat (List.length (embedding emb)) = d) batch ->
  NoDup (map emb_chunk_id (records ++ batch)) ->
  let after := snd (upsert_embeddings self batch) in
  fst (upsert_embeddings self batch) = true
  /\ holds (records ++ batch) d after
  /\ dict_get "total_vectors" (get_stats after)
     = Some (VInt (Z.of_nat (List.length records + List.length batch)))
  /\ dict_get "metadata_entries" (get_stats after)
     = Some (VInt (Z.of_nat (List.length records + List.length batch))).
Proof.
  intros Hholds Hne Hbatch Hfresh. cbv zeta.
  destruct (upsert_fresh self d records batch Hholds Hne Hbatch Hfresh)
    as [Hok Hafter].
  destruct (holds_stats _ _ _ Hafter) as [Hv Hm].
  rewrite length_app in Hv, Hm. repeat split; try assumption; apply Hafter.
Qed.

Lemma upsert_fresh_batch_extends_witness :
  holds [Samples.emb_a; Samples.emb_b] 2
    (snd (upsert_embeddings Samples.db_one [Samples.emb_b])).
Proof.
  apply (upsert_fresh_batch_extends Samples.db_one 2 [Samples.emb_a]
           [Samples.emb_b]).
  - unfold holds. repeat split; try reflexivity.
    + repeat constructor. intros [].
    + repeat constructor.
  - discriminate.
  - repeat constructor.
  - cbn. repeat constructor; cbn; intuition discriminate.
Defined.

(** ** Search on a store that holds records *)

Lemma nth_error_entry_key records p emb :
  nth_error records p = Some emb ->
  nth_error (dict_keys (map entry records)) p = Some (emb_chunk_id emb).
Proof.
  intros H. unfold dict_keys. rewrite map_map.
  apply (map_nth_error (fun e => fst (entry e)) _ _ H).
Qed.

(** The loop of [search] on hits that stand for stored records. *)
Lemma collect_results_records records query hits embs :
  NoDup (map emb_chunk_id records) ->
  Forall2 (hit_of records query) hits embs ->
  collect_results (map entry records) hits
  = Some (map (result_of query) embs).
Proof.
  intros Hnd. induction 1 as [|[s idx] emb hits embs (p & Hh & Hp) _ IH];
    [reflexivity|].
  inversion Hh. subst s idx. cbn [collect_results map].
  assert (Hlt : (p < List.length records)%nat)
    by (apply nth_error_Some; congruence).
  assert (Hneq : (Z.of_nat p =? -1) = false) by (apply Z.eqb_neq; lia).
  rewrite Hneq. unfold dict_keys at 1. rewrite !length_map.
  assert (Hin : (Z.of_nat p <? Z.of_nat (List.length records)) = true)
    by (apply Z.ltb_lt; lia).
  rewrite Hin.
  rewrite getitem_nth
    by (unfold dict_keys; rewrite !length_map; lia).
  rewrite Nat2Z.id, (nth_error_entry_key _ _ _ Hp).
  rewrite (dict_get_entry records emb Hnd (nth_error_In _ _ Hp)).
  rewrite IH. reflexivity.
Qed.

Lemma scored_inv (f : list Q -> Q) (rows : list (list Q)) :
  forall a s i,
    In (s, i) (combine (map f rows) (map Z.of_nat (seq a (List.length rows)))) ->
    exists p v, i = Z.of_nat (a + p) /\ nth_error rows p = Some v /\ s = f v.
Proof.
  induction rows as [|r rows IH]; intros a s i Hin; [contradiction|].
  cbn in Hin. destruct Hin as [Heq|Hin].
  - inversion Heq. exists 0%nat, r. repeat split. f_equal. lia.
  - destruct (IH (S a) s i Hin) as (p & v & -> & Hp & ->).
    exists (S p), v. repeat split; [f_equal; lia | exact Hp].
Qed.

Lemma scored_hit_of records d query h :
  In h (Faiss.scored (Faiss.mkIndex d (map embedding records)) query) ->
  exists emb, hit_of records query h emb.
Proof.
  destruct h as [s i]. unfold Faiss.scored. cbn [Faiss.xb]. intros Hin.
  destruct (scored_inv _ _ _ _ _ Hin) as (p & v & -> & Hp & ->).
  rewrite nth_error_map in Hp. unfold option_map in Hp.
  destruct (nth_error records p) as [emb|] eqn:Hemb; [|discriminate].
  injection Hp as <-.
  exists emb, p. split; [reflexivity | exact Hemb].
Qed.

Lemma Forall_exists_Forall2 {A B : Type} (R : A -> B -> Prop) (l : list A) :
  Forall (fun x => exists y, R x y) l -> exists l', Forall2 R l l'.
Proof.
  induction 1 as [|x l [y Hy] _ [l' IH]].
  - exists []. constructor.
  - exists (y :: l'). constructor; assumption.
Qed.

Lemma firstn_In {A : Type} (n : nat) (l : list A) (x : A) :
  In x (firstn n l) -> In x l.
Proof.
  intros H. rewrite <- (firstn_skipn n l). apply in_or_app. left. exact H.
Qed.

Lemma Forall2_in_l_exists {A B : Type} (R : A -> B -> Prop) l l' :
  Forall2 R l l' -> forall x, In x l -> exists y, In y l' /\ R x y.
Proof.
  induction 1 as [|a b l l' Hab _ IH]; intros x Hx; [contradiction|].
  destruct Hx as [->|Hx].
  - exists b. split; [left; reflexivity | exact Hab].
  - destruct (IH x Hx) as (y & Hy & Hxy). exists y. split; [right|]; assumption.
Qed.

Lemma Forall2_in_r_exists {A B : Type} (R : A -> B -> Prop) l l' :
  Forall2 R l l' -> forall y, In y l' -> exists x, In x l /\ R x y.
Proof.
  induction 1 as [|a b l l' Hab _ IH]; intros y Hy; [contradiction|].
  destruct Hy as [->|Hy].
  - exists a. split; [left; reflexivity | exact Hab].
  - destruct (IH y Hy) as (x & Hx & Hxy). exists x. split; [right|]; assumption.
Qed.

Lemma sorted_app_le {A : Type} (R : A -> A -> Prop) (l1 l2 : list A) :
  StronglySorted R (l1 ++ l2) ->
  forall x y, In x l1 -> In y l2 -> R x y.
Proof.
  induction l1 as [|a l1 IH]; intros Hs x y Hx Hy; [contradiction|].
  cbn in Hs. apply StronglySorted_inv in Hs. destruct Hs as [Hs Hall].
  destruct Hx as [->|Hx].
  - rewrite Forall_forall in Hall. apply Hall. apply in_or_app. right. exact Hy.
  - apply (IH Hs x y Hx Hy).
Qed.

(** The hits of a search with [0 < k <= ntotal]: the first [k] rows by
    descending score, without filling. *)
Lemma faiss_search_top ix query k :
  Z.of_nat (List.length query) = Faiss.d ix ->
  0 < k <= Faiss.ntotal ix ->
  Faiss.search ix query k
  = inr (firstn (Z.to_nat k) (sorted_desc fst (Faiss.scored ix query))).
Proof.
  intros Hd Hk. unfold Faiss.search.
  apply Z.eqb_eq in Hd. rewrite Hd. cbn [negb].
  assert (Hgt : (k >? 0) = true) by (apply Z.gtb_lt; lia).
  rewrite Hgt. cbn [negb].
  assert (Hlen : List.length (sorted_desc fst (Faiss.scored ix query))
                 = List.length (Faiss.xb ix)).
  { rewrite (Permutation_length (sorted_desc_perm fst _)).
    apply scored_length. }
  unfold Faiss.ntotal in Hk.
  rewrite length_firstn, Hlen.
  replace (Z.to_nat k - Nat.min (Z.to_nat k) (List.length (Faiss.xb ix)))%nat
    with 0%nat by lia.
  cbn [repeat]. rewrite app_nil_r. reflexivity.
Qed.

(** The results of a search on a store that holds records, as the
    results of a list of stored records. *)
Lemma search_holds_results
    (self : LocalVectorDB) (d : Z) (records : list EmbeddingResult)
    (query : list Q) (top_k : Z) :
  holds records d self ->
  Z.of_nat (List.length query) = d ->
  0 < top_k ->
  exists embs,
    search self query top_k = map (result_of query) embs
    /\ Z.of_nat (List.length embs)
       = Z.min top_k (Z.of_nat (List.length records))
    /\ incl embs records
    /\ (forall emb emb',
          In emb records -> ~ In emb embs -> In emb' embs ->
          (Faiss.inner query (embedding emb)
           <= Faiss.inner query (embedding emb'))%Q)
    /\ (Z.of_nat (List.length records) <= top_k -> incl records embs).
Proof.
  intros (Htr & Hix & Hmd & Hnd & Hdim) Hq Hk.
  unfold search. rewrite Htr, Hix, Hmd.
  destruct (Nat.eq_dec (List.length records) 0) as [Hz|Hnz].
  { (* an empty index *)
    apply length_zero_iff_nil in Hz. subst records. exists [].
    unfold Faiss.search. cbn. rewrite Z.min_r by lia.
    destruct (negb _); cbn; repeat split; try lia; intros; try contradiction;
      apply incl_refl. }
  assert (Hsorted_len :
            List.length (sorted_desc fst
                           (Faiss.scored (Faiss.mkIndex d (map embedding records))
                              query))
            = List.length records).
  { rewrite (Permutation_length (sorted_desc_perm fst _)), scored_length.
    cbn [Faiss.xb]. apply length_map. }
  set (ix := Faiss.mkIndex d (map embedding records)).
  assert (Hn : Faiss.ntotal ix = Z.of_nat (List.length records)).
  { unfold Faiss.ntotal, ix. cbn [Faiss.xb]. rewrite length_map. reflexivity. }
  assert (Hpos : 0 < Faiss.ntotal ix) by lia.
  set (k := Z.min top_k (Faiss.ntotal ix)).
  assert (Hk' : 0 < k <= Faiss.ntotal ix) by (subst k; lia).
  rewrite (faiss_search_top ix query k Hq Hk').
  set (sorted := sorted_desc fst (Faiss.scored ix query)).
  set (hits := firstn (Z.to_nat k) sorted).
  assert (Hsl : List.length sorted = List.length records)
    by exact Hsorted_len.
  assert (Hperm : Permutation sorted (Faiss.scored ix query))
    by apply sorted_desc_perm.
  assert (Hhits : Forall (fun h => exists emb, hit_of records query h emb) hits).
  { apply Forall_forall. intros h Hh. apply (scored_hit_of records d).
    apply (Permutation_in _ Hperm). apply (firstn_In _ _ _ Hh). }
  destruct (Forall_exists_Forall2 _ _ Hhits) as [embs Hembs].
  rewrite (collect_results_records records query hits embs Hnd Hembs).
  exists embs.
  assert (Hlen : List.length hits = Z.to_nat k)
    by (subst hits; rewrite length_firstn; lia).
  assert (Hreturned : forall emb p,
            nth_error records p = Some emb ->
            In (Faiss.inner query (embedding emb), Z.of_nat p) hits ->
            In emb embs).
  { intros emb p Hp Hin.
    destruct (Forall2_in_l_exists _ _ _ Hembs _ Hin)
      as (emb2 & Hemb2 & p2 & Hh2 & Hp2).
    inversion Hh2 as [[Hs Hpp]]. apply Nat2Z.inj in Hpp. subst p2.
    rewrite Hp in Hp2. inversion Hp2. subst emb2. exact Hemb2. }
  assert (Hstored : forall emb p,
            nth_error records p = Some emb ->
            In (Faiss.inner query (embedding emb), Z.of_nat p) sorted).
  { intros emb p Hp.
    apply (Permutation_in _ (Permutation_sym Hperm)).
    apply scored_In. unfold ix. cbn [Faiss.xb].
    apply (map_nth_error embedding _ _ Hp). }
  split; [reflexivity|]. split; [|split; [|split]].
  - rewrite <- (Forall2_length Hembs), Hlen. subst k. lia.
  - intros emb Hemb.
    destruct (Forall2_in_r_exists _ _ _ Hembs emb Hemb)
      as (h & _ & p & _ & Hp).
    apply (nth_error_In _ _ Hp).
  - intros emb emb' Hemb Hout Hemb'.
    destruct (Forall2_in_r_exists _ _ _ Hembs emb' Hemb')
      as (h' & Hh' & p' & -> & Hp').
    apply In_nth_error in Hemb. destruct Hemb as [p Hp].
    set (h := (Faiss.inner query (embedding emb), Z.of_nat p)).
    assert (Hin : In h sorted) by apply (Hstored emb p Hp).
    rewrite <- (firstn_skipn (Z.to_nat k) sorted) in Hin.
    apply in_app_or in Hin. destruct Hin as [Hin|Hin].
    + (* the record is among the hits: its result is returned *)
      exfalso. apply Hout. apply (Hreturned emb p Hp Hin).
    + assert (Hs : StronglySorted (desc fst)
                     (firstn (Z.to_nat k) sorted ++ skipn (Z.to_nat k) sorted)).
      { rewrite firstn_skipn. apply sorted_desc_sorted. }
      apply (sorted_app_le _ _ _ Hs _ h Hh' Hin).
  - intros Hall emb Hemb.
    apply In_nth_error in Hemb. destruct Hemb as [p Hp].
    apply (Hreturned emb p Hp). unfold hits.
    rewrite firstn_all2 by (subst k; lia).
    apply (Hstored emb p Hp).
Qed.

(** X11.  On a store that holds a list of records, a search with a
    query of the dimension of the index and [top_k > 0] returns
    [min(top_k, n)] results; every result is the result of a stored
    record, with the chunk id and metadata of that record and the inner
    product of the query and the vector of that record as score; no
    record is left out in favour of a result with a lower score; and
    when [top_k] is at least the number of records, every record is
    returned. *)
Theorem search_returns_best_records
    (self : LocalVectorDB) (d : Z) (records : list EmbeddingResult)
    (query : list Q) (top_k : Z) :
  holds records d self ->
  Z.of_nat (List.length query) = d ->
  0 < top_k ->
  let results := search self query top_k in
  Z.of_nat (List.length results)
  = Z.min top_k (Z.of_nat (List.length records))
  /\ (forall r, In r results ->
                exists emb, In emb records /\ r = result_of query emb)
  /\ (forall emb r,
        In emb records -> ~ In (result_of query emb) results ->
        In r results ->
        (Faiss.inner query (embedding emb) <= score r)%Q)
  /\ (Z.of_nat (List.length records) <= top_k ->
      forall emb, In emb records -> In (result_of query emb) results).
Proof.
  intros Hholds Hq Hk. cbv zeta.
  destruct (search_holds_results self d records query top_k Hholds Hq Hk)
    as (embs & -> & Hlen & Hincl & Hbest & Hall).
  split; [|split; [|split]].
  - rewrite length_map. exact Hlen.
  - intros r Hr. apply in_map_iff in Hr. destruct Hr as (emb & <- & Hemb).
    exists emb. split; [apply Hincl; exact Hemb | reflexivity].
  - intros emb r Hemb Hout Hr.
    apply in_map_iff in Hr. destruct Hr as (emb' & <- & Hemb').
    apply (Hbest emb emb' Hemb); [|exact Hemb'].
    intros Hin. apply Hout. apply in_map. exact Hin.
  - intros Hn emb Hemb. apply in_map. apply (Hall Hn). exact Hemb.
Qed.

Lemma search_returns_best_records_witness :
  let results := search Samples.db_two [0%Q; 1%Q] 1 in
  Z.of_nat (List.length results) = 1
  /\ (forall r, In r results ->
        exists emb, In emb [Samples.emb_a; Samples.emb_b]
                    /\ r = result_of [0%Q; 1%Q] emb).
Proof.
  assert (H : holds [Samples.emb_a; Samples.emb_b] 2 Samples.db_two).
  { unfold holds. repeat split; try reflexivity.
    - repeat constructor; cbn; intuition discriminate.
    - repeat constructor. }
  destruct (search_returns_best_records Samples.db_two 2
              [Samples.emb_a; Samples.emb_b] [0%Q; 1%Q] 1 H eq_refl eq_refl)
    as (Hlen & Hres & _ & _).
  split; [exact Hlen | exact Hres].
Defined.

(** ** The order of the results *)

Lemma sorted_firstn {A : Type} (R : A -> A -> Prop) (n : nat) (l : list A) :
  StronglySorted R l -> StronglySorted R (firstn n l).
Proof.
  intros Hs. revert n. induction Hs as [|a l Hs IH Hall]; intros [|n]; cbn;
    try constructor.
  - apply IH.
  - apply Forall_forall. intros x Hx. rewrite Forall_forall in Hall.
    apply Hall. apply (firstn_In _ _ _ Hx).
Qed.

(** The results keep the order of the hits, and every score is the score
    of a hit. *)
Lemma collect_results_sorted m hits :
  StronglySorted (desc fst) hits ->
  forall results,
    collect_results m hits = Some results ->
    StronglySorted (desc score) results
    /\ Forall (fun r => exists h, In h hits /\ score r = fst h) results.
Proof.
  induction 1 as [|[s idx] hits Hs IH Hall]; intros results Hrun.
  - inversion Hrun. split; constructor.
  - cbn [collect_results] in Hrun.
    destruct (idx =? -1); [inversion Hrun; split; constructor|].
    assert (Hweak : forall rs,
               collect_results m hits = Some rs ->
               StronglySorted (desc score) rs
               /\ Forall (fun r => exists h, In h ((s, idx) :: hits)
                                             /\ score r = fst h) rs).
    { intros rs Hrs. destruct (IH rs Hrs) as [H1 H2]. split; [exact H1|].
      eapply Forall_impl; [|exact H2]. cbn. intros r (h & Hh & Hr).
      exists h. split; [right; exact Hh | exact Hr]. }
    destruct (idx <? _); [|apply Hweak; exact Hrun].
    destruct (getitem _ idx) as [cid|]; [|discriminate].
    destruct (dict_get cid m) as [md|]; [|discriminate].
    destruct (collect_results m hits) as [rs|] eqn:Hrs; [|discriminate].
    cbn [option_map] in Hrun. inversion Hrun. subst results.
    destruct (Hweak rs eq_refl) as [H1 H2]. split.
    + constructor; [exact H1|].
      destruct (IH rs eq_refl) as [_ H3].
      apply Forall_forall. intros r Hr. rewrite Forall_forall in H3.
      destruct (H3 r Hr) as (h & Hh & Hscore).
      rewrite Forall_forall in Hall. specialize (Hall h Hh).
      unfold desc in *. cbn [score fst] in *. rewrite Hscore. exact Hall.
    + constructor; [|exact H2].
      exists (s, idx). split; [left; reflexivity | reflexivity].
Qed.

(** The chunk id of a result is the key at the position of its hit. *)
Lemma collect_results_positions m (n : nat) hits :
  Forall (fun h => exists p, snd h = Z.of_nat p /\ (p < n)%nat) hits ->
  forall results,
    collect_results m hits = Some results ->
    Forall (fun r => exists p, (p < n)%nat
                               /\ nth_error (dict_keys m) p = Some (chunk_id r))
           results.
Proof.
  induction 1 as [|[s idx] hits (p & Hp & Hlt) _ IH]; intros results Hrun.
  - inversion Hrun. constructor.
  - cbn [collect_results] in Hrun. cbn [snd] in Hp. subst idx.
    destruct (Z.of_nat p =? -1); [inversion Hrun; constructor|].
    destruct (Z.of_nat p <? Z.of_nat (List.length (dict_keys m))) eqn:Hin;
      [|apply IH; exact Hrun].
    apply Z.ltb_lt in Hin.
    rewrite getitem_nth in Hrun by lia. rewrite Nat2Z.id in Hrun.
    destruct (nth_error (dict_keys m) p) as [cid|] eqn:Hcid; [|discriminate].
    destruct (dict_get cid m) as [md|]; [|discriminate].
    destruct (collect_results m hits) as [rs|]; [|discriminate].
    cbn [option_map] in Hrun. inversion Hrun. subst results.
    constructor; [|apply IH; reflexivity].
    exists p. split; [exact Hlt | exact Hcid].
Qed.

Lemma search_positions (self : LocalVectorDB) (query : list Q) (top_k : Z) r :
  In r (search self query top_k) ->
  exists ix p,
    index self = Some ix
    /\ (p < List.length (Faiss.xb ix))%nat
    /\ nth_error (dict_keys (db_metadata self)) p = Some (chunk_id r).
Proof.
  unfold search.
  destruct (is_trained self); [|contradiction].
  destruct (index self) as [ix|]; [|contradiction].
  unfold Faiss.search.
  destruct (negb _); [contradiction|].
  destruct (negb _) eqn:Hk; [contradiction|].
  set (k := Z.to_nat (Z.min top_k (Faiss.ntotal ix))).
  set (sorted := sorted_desc fst (Faiss.scored ix query)).
  assert (Hlen : List.length sorted = List.length (Faiss.xb ix)).
  { unfold sorted. rewrite (Permutation_length (sorted_desc_perm fst _)).
    apply scored_length. }
  assert (Hfill : (k - List.length (firstn k sorted) = 0)%nat).
  { rewrite length_firstn, Hlen. unfold k, Faiss.ntotal. lia. }
  rewrite Hfill. cbn [repeat]. rewrite app_nil_r.
  destruct (collect_results (db_metadata self) (firstn k sorted))
    as [results|] eqn:Hrun; [|contradiction].
  intros Hr.
  assert (Hhits : Forall (fun h => exists p, snd h = Z.of_nat p
                                   /\ (p < List.length (Faiss.xb ix))%nat)
                         (firstn k sorted)).
  { apply Forall_forall. intros [s i] Hh. apply firstn_In in Hh.
    apply (Permutation_in _ (sorted_desc_perm fst _)) in Hh.
    unfold Faiss.scored in Hh.
    destruct (scored_inv _ _ _ _ _ Hh) as (p & v & -> & Hp & _).
    exists p. split; [reflexivity|]. apply nth_error_Some. congruence. }
  pose proof (collect_results_positions _ _ _ Hhits _ Hrun) as Hall.
  rewrite Forall_forall in Hall. destruct (Hall r Hr) as (p & Hp & Hkey).
  exists ix, p. repeat split; assumption.
Qed.

Lemma search_sorted (self : LocalVectorDB) (query : list Q) (top_k : Z) :
  StronglySorted (desc score) (search self query top_k).
Proof.
  unfold search.
  destruct (is_trained self); [|constructor].
  destruct (index self) as [ix|]; [|constructor].
  unfold Faiss.search.
  destruct (negb _); [constructor|].
  destruct (negb _) eqn:Hk; [constructor|].
  apply negb_false_iff, Z.gtb_lt in Hk.
  set (k := Z.to_nat (Z.min top_k (Faiss.ntotal ix))).
  set (sorted := sorted_desc fst (Faiss.scored ix query)).
  assert (Hlen : List.length sorted = List.length (Faiss.xb ix)).
  { unfold sorted. rewrite (Permutation_length (sorted_desc_perm fst _)).
    apply scored_length. }
  assert (Hfill : (k - List.length (firstn k sorted) = 0)%nat).
  { rewrite length_firstn, Hlen. unfold k, Faiss.ntotal. lia. }
  rewrite Hfill. cbn [repeat]. rewrite app_nil_r.
  destruct (collect_results (db_metadata self) (firstn k sorted))
    as [results|] eqn:Hrun; [|constructor].
  apply (collect_results_sorted _ _
           (sorted_firstn _ k _ (sorted_desc_sorted fst _)) _ Hrun).
Qed.

(** X12.  Whatever the store holds, aligned or not, the results of a
    search come in descending order of their scores, and the chunk id
    of every result is the key of the metadata at a position below the
    number of vectors of the index. *)
Theorem search_scores_descending
    (self : LocalVectorDB) (query : list Q) (top_k : Z) :
  StronglySorted (desc score) (search self query top_k)
  /\ (forall r, In r (search self query top_k) ->
        exists ix p,
          index self = Some ix
          /\ Z.of_nat p < Faiss.ntotal ix
          /\ nth_error (dict_keys (db_metadata self)) p = Some (chunk_id r)).
Proof.
  split; [apply search_sorted|].
  intros r Hr. destruct (search_positions self query top_k r Hr)
    as (ix & p & Hix & Hp & Hkey).
  exists ix, p. unfold Faiss.ntotal. repeat split; try assumption. lia.
Qed.

(** ** Searches without results *)

(** X13.  A search returns no result, and raises nothing, when the
    store is not trained, has no index, or has an empty index, when
    [top_k] is not positive, or when the query has not the dimension of
    the index. *)
Theorem search_without_results
    (self : LocalVectorDB) (query : list Q) (top_k : Z) :
  is_trained self = false
  \/ index self = None
  \/ top_k <= 0
  \/ (exists ix, index self = Some ix
                 /\ (Faiss.ntotal ix = 0
                     \/ Z.of_nat (List.length query) <> Faiss.d ix)) ->
  search self query top_k = [].
Proof.
  intros H. unfold search.
  destruct (is_trained self); [|reflexivity].
  destruct (index self) as [ix|] eqn:Hix; [|reflexivity].
  unfold Faiss.search.
  destruct (Z.of_nat (List.length query) =? Faiss.d ix) eqn:Hd;
    [|reflexivity].
  cbn [negb].
  destruct (Z.min top_k (Faiss.ntotal ix) >? 0) eqn:Hk; [|reflexivity].
  exfalso. apply Z.eqb_eq in Hd. apply Z.gtb_lt in Hk.
  destruct H as [H|[H|[H|(ix' & Hix' & [H|H])]]]; try discriminate;
    try lia; inversion Hix'; subst ix'; try lia.
Qed.

Lemma search_without_results_witness :
  search Samples.db_one [1%Q] 5 = [].
Proof.
  apply search_without_results. right. right. right.
  exists (Faiss.mkIndex 2 [[1%Q; 0%Q]]). split; [reflexivity|].
  right. cbn. lia.
Defined.

(** ** The first upsert and [delete_index] *)

(** The first upsert into a store that is not trained and has no
    metadata. *)
Lemma first_upsert_holds (self : LocalVectorDB) (e0 : EmbeddingResult)
    (rest : list EmbeddingResult) :
  is_trained self = false ->
  db_metadata self = [] ->
  Forall (fun emb => Z.of_nat (List.length (embedding emb)) = embedding_dim e0)
         (e0 :: rest) ->
  NoDup (map emb_chunk_id (e0 :: rest)) ->
  fst (upsert_embeddings self (e0 :: rest)) = true
  /\ holds (e0 :: rest) (embedding_dim e0)
           (snd (upsert_embeddings self (e0 :: rest)))
  /\ dimension (snd (upsert_embeddings self (e0 :: rest)))
     = Some (embedding_dim e0).
Proof.
  intros Htr Hmd Hall Hnd.
  assert (Hne : e0 :: rest <> []) by discriminate.
  destruct (vstack_same_length _ _ Hne Hall) as [Hstack Hcols].
  unfold upsert_embeddings. rewrite Htr, Hstack.
  unfold create_index. cbn [Faiss.new_IndexFlatIP snd index with_metadata].
  unfold Faiss.add. cbn [Faiss.d Faiss.xb]. rewrite Hcols, Z.eqb_refl.
  cbn [fst snd app]. split; [reflexivity|]. split; [|reflexivity].
  unfold holds. cbn [is_trained index db_metadata with_index with_metadata].
  rewrite Hmd.
  change (@nil (string * list (string * pyval))) with (map entry []).
  rewrite store_all_fresh by exact Hnd.
  cbn [app]. repeat split; assumption.
Qed.

(** X14.  The first upsert into a store that is not trained and has no
    metadata creates the index with the dimension its first record
    declares: when every vector of the batch has that length and the
    chunk ids differ, the upsert succeeds and the store holds exactly
    the batch, in the order of the batch. *)
Theorem first_upsert_creates_index (self : LocalVectorDB)
    (e0 : EmbeddingResult) (rest : list EmbeddingResult) :
  is_trained self = false ->
  db_metadata self = [] ->
  Forall (fun emb => Z.of_nat (List.length (embedding emb)) = embedding_dim e0)
         (e0 :: rest) ->
  NoDup (map emb_chunk_id (e0 :: rest)) ->
  let after := upsert_embeddings self (e0 :: rest) in
  fst after = true
  /\ holds (e0 :: rest) (embedding_dim e0) (snd after)
  /\ dimension (snd after) = Some (embedding_dim e0)
  /\ dict_get "total_vectors" (get_stats (snd after))
     = Some (VInt (Z.of_nat (List.length (e0 :: rest)))).
Proof.
  intros Htr Hmd Hall Hnd. cbv zeta.
  destruct (first_upsert_holds self e0 rest Htr Hmd Hall Hnd)
    as (Hok & Hholds & Hdim).
  repeat split; try assumption; try apply Hholds.
  destruct Hholds as (Ht & Hix & _).
  unfold get_stats. rewrite Ht, Hix. cbn [dict_get String.eqb Ascii.eqb].
  unfold Faiss.ntotal. cbn [Faiss.xb]. rewrite length_map. reflexivity.
Qed.

Lemma first_upsert_creates_index_witness :
  holds [Samples.emb_a; Samples.emb_b] 2
    (snd (upsert_embeddings empty_db [Samples.emb_a; Samples.emb_b])).
Proof.
  apply (first_upsert_creates_index empty_db Samples.emb_a [Samples.emb_b]).
  - reflexivity.
  - reflexivity.
  - repeat constructor.
  - cbn. repeat constructor; cbn; intuition discriminate.
Defined.



(** An untrained store creates its index first. *)
Lemma upsert_untrained (self : LocalVectorDB) (e0 : EmbeddingResult)
    (rest : list EmbeddingResult) :
  is_trained self = false ->
  upsert_embeddings self (e0 :: rest)
  = upsert_embeddings (snd (create_index self (Some (embedding_dim e0))))
      (e0 :: rest).
Proof.
  intros Htr. unfold upsert_embeddings. rewrite Htr. reflexivity.
Qed.

(** A batch whose first vector has not the dimension of the index. *)
Lemma upsert_wrong_width (self : LocalVectorDB) (ix : Faiss.IndexFlatIP)
    (e0 : EmbeddingResult) (rest : list EmbeddingResult) :
  is_trained self = true ->
  index self = Some ix ->
  Z.of_nat (List.length (embedding e0)) <> Faiss.d ix ->
  upsert_embeddings self (e0 :: rest)
  = (false, with_metadata self (store_all (e0 :: rest) (db_metadata self))).
Proof.
  intros Htr Hix Hlen. apply Z.eqb_neq in Hlen.
  unfold upsert_embeddings. rewrite Htr. cbn [map Faiss.vstack].
  destruct (forallb _ (map embedding rest)); [|reflexivity].
  cbn [index with_metadata]. rewrite Hix. unfold Faiss.add.
  cbn [Faiss.columns]. rewrite Hlen. reflexivity.
Qed.

(** X16.  When the first record of the first upsert declares a
    dimension that is not the length of its vector, the upsert fails,
    but the store is left trained, with an empty index of the declared
    dimension and with the metadata of the whole batch; the same batch
    fails again on a retry and the index stays empty. *)
Theorem first_upsert_wrong_declared_dimension (self : LocalVectorDB)
    (e0 : EmbeddingResult) (rest : list EmbeddingResult) :
  is_trained self = false ->
  Z.of_nat (List.length (embedding e0)) <> embedding_dim e0 ->
  let after := upsert_embeddings self (e0 :: rest) in
  fst after = false
  /\ is_trained (snd after) = true
  /\ index (snd after) = Some (Faiss.mkIndex (embedding_dim e0) [])
  /\ db_metadata (snd after) = store_all (e0 :: rest) (db_metadata self)
  /\ fst (upsert_embeddings (snd after) (e0 :: rest)) = false
  /\ index (snd (upsert_embeddings (snd after) (e0 :: rest)))
     = Some (Faiss.mkIndex (embedding_dim e0) []).
Proof.
  intros Htr Hlen. cbv zeta.
  set (ix := Faiss.mkIndex (embedding_dim e0) []).
  set (created := snd (create_index self (Some (embedding_dim e0)))).
  set (m := store_all (e0 :: rest) (db_metadata self)).
  assert (Hfirst : upsert_embeddings self (e0 :: rest)
                   = (false, with_metadata created m)).
  { rewrite (upsert_untrained self e0 rest Htr).
    apply (upsert_wrong_width created ix); [reflexivity | reflexivity | exact Hlen]. }
  assert (Hretry : upsert_embeddings (with_metadata created m) (e0 :: rest)
                   = (false, with_metadata (with_metadata created m)
                               (store_all (e0 :: rest) m))).
  { exact (upsert_wrong_width (with_metadata created m) ix e0 rest
             eq_refl eq_refl Hlen). }
  rewrite Hfirst. cbn [fst snd]. rewrite Hretry. repeat split.
Qed.

Lemma first_upsert_wrong_declared_dimension_witness :
  fst (upsert_embeddings empty_db [Samples.emb_declared_wrong]) = false
  /\ is_trained (snd (upsert_embeddings empty_db [Samples.emb_declared_wrong]))
     = true.
Proof.
  destruct (first_upsert_wrong_declared_dimension empty_db
              Samples.emb_declared_wrong [] eq_refl)
    as (H1 & H2 & _).
  - cbn. lia.
  - split; [exact H1 | exact H2].
Defined.

(** X17.  An upsert of no records reports failure and leaves the store
    as it is, whether the store is trained (where [np.vstack] raises) or
    not (where the method returns early). *)
Theorem upsert_nothing_fails (self : LocalVectorDB) :
  upsert_embeddings self [] = (false, self).
Proof.
  destruct self as [ix m dim [|]]; reflexivity.
Qed.

(** X18.  On a store that holds a non-empty list of records,
    [create_index] with the dimension of the index followed by an upsert
    of those same records leaves the store holding the same records;
    without the [create_index] the same upsert succeeds too, but
    doubles the vectors while the metadata stays as it is. *)
Theorem upsert_again_after_create_index
    (self : LocalVectorDB) (d : Z) (records : list EmbeddingResult) :
  holds records d self ->
  records <> [] ->
  let fresh := snd (create_index self (Some d)) in
  fst (upsert_embeddings fresh records) = true
  /\ holds records d (snd (upsert_embeddings fresh records))
  /\ fst (upsert_embeddings self records) = true
  /\ index (snd (upsert_embeddings self records))
     = Some (Faiss.mkIndex d (map embedding (records ++ records)))
  /\ db_metadata (snd (upsert_embeddings self records)) = map entry records.
Proof.
  intros (Htr & Hix & Hmd & Hnd & Hdim) Hne. cbv zeta.
  destruct (vstack_same_length d records Hne Hdim) as [Hstack Hcols].
  assert (Hsame : store_all records (map entry records) = map entry records)
    by (apply store_all_same; [exact Hnd | apply incl_refl]).
  unfold upsert_embeddings, create_index.
  cbn [Faiss.new_IndexFlatIP snd is_trained db_metadata]. rewrite Htr.
  destruct records as [|e0 records']; [congruence|].
  rewrite Hstack. cbn [index with_metadata]. rewrite Hix.
  unfold Faiss.add. cbn [Faiss.d Faiss.xb]. rewrite Hcols, Z.eqb_refl.
  cbn [fst snd app]. unfold holds.
  cbn [is_trained index db_metadata with_index with_metadata].
  rewrite Hmd, Hsame, <- map_app.
  repeat split; assumption.
Qed.

Lemma upsert_again_after_create_index_witness :
  holds [Samples.emb_a; Samples.emb_b] 2
    (snd (upsert_embeddings (snd (create_index Samples.db_two (Some 2)))
            [Samples.emb_a; Samples.emb_b])).
Proof.
  apply (upsert_again_after_create_index Samples.db_two 2
           [Samples.emb_a; Samples.emb_b]).
  - unfold holds. repeat split; try reflexivity.
    + repeat constructor; cbn; intuition discriminate.
    + repeat constructor.
  - discriminate.
Defined.

End StoreExtra.


(* ===================================================================== *)
(** * Further properties of the search API *)
(* ===================================================================== *)

Module SearchExtra.
Import Py PyFacts LocalVectorDB SearchAPI Props SearchSpec.

(** ** Filters *)

Lemma filter_filter {A : Type} (f g : A -> bool) (l : list A) :
  filter g (filter f l) = filter (fun x => f x && g x) l.
Proof.
  induction l as [|x l IH]; [reflexivity|].
  cbn [filter]. destruct (f x); cbn [filter andb].
  - destruct (g x); rewrite IH; reflexivity.
  - exact IH.
Qed.

(** X19.  Filtering twice is filtering by both filter maps at once,
    whatever the order, and filtering again by the same map changes
    nothing. *)
Theorem apply_filters_compose
    (results : list SearchResult) (f1 f2 : list (string * pyval)) :
  _apply_filters (_apply_filters results f1) f2
  = _apply_filters results (f1 ++ f2)
  /\ _apply_filters (_apply_filters results f1) f2
     = _apply_filters (_apply_filters results f2) f1
  /\ _apply_filters (_apply_filters results f1) f1
     = _apply_filters results f1.
Proof.
  rewrite !apply_filters_filter, !filter_filter. repeat split.
  - apply filter_ext. intros r. rewrite forallb_app. reflexivity.
  - apply filter_ext. intros r. apply andb_comm.
  - apply filter_ext. intros r. apply andb_diag.
Qed.

(** ** [_combine_search_results] on any input *)

Lemma dict_set_In_inv {V : Type} (k : string) (v : V) (d : list (string * V)) kv :
  In kv (dict_set k v d) -> kv = (k, v) \/ In kv d.
Proof.
  induction d as [|[k' v'] d IH]; cbn.
  - intros [<-|[]]. left. reflexivity.
  - destruct (String.eqb k k'); cbn; intros [<-|H]; try tauto.
Qed.

Lemma dict_set_keys_In {V : Type} (k : string) (v : V) (d : list (string * V)) k' :
  In k' (dict_keys (dict_set k v d)) <-> k' = k \/ In k' (dict_keys d).
Proof.
  rewrite dict_keys_set. destruct (dict_mem k d) eqn:E.
  - apply dict_mem_In in E. split; [tauto|]. intros [->|H]; assumption.
  - rewrite in_app_iff. cbn. split; [intros [H|[<-|[]]]; tauto|].
    intros [->|H]; tauto.
Qed.

Lemma dict_set_NoDup {V : Type} (k : string) (v : V) (d : list (string * V)) :
  NoDup (dict_keys d) -> NoDup (dict_keys (dict_set k v d)).
Proof.
  intros Hnd. rewrite dict_keys_set. destruct (dict_mem k d) eqn:E;
    [exact Hnd|].
  apply NoDup_app; [exact Hnd | repeat constructor; intros [] |].
  intros x Hx [<-|[]].
  apply dict_mem_In in Hx. congruence.
Qed.

Lemma dict_get_Some_In {V : Type} (k : string) (v : V) (d : list (string * V)) :
  dict_get k d = Some v -> In (k, v) d.
Proof.
  induction d as [|[k' v'] d IH]; cbn; [discriminate|].
  destruct (String.eqb k k') eqn:E.
  - apply String.eqb_eq in E. intros H. inversion H. subst. left. reflexivity.
  - intros H. right. apply IH. exact H.
Qed.

Lemma entries_ok_set P acc k c :
  entries_ok P acc -> chunk_id (result c) = k -> P (result c) ->
  entries_ok P (dict_set k c acc).
Proof.
  intros [Hnd Hall] Hk HP. split; [apply dict_set_NoDup; exact Hnd|].
  apply Forall_forall. intros kv Hin.
  apply dict_set_In_inv in Hin. destruct Hin as [->|Hin].
  - split; assumption.
  - rewrite Forall_forall in Hall. apply Hall. exact Hin.
Qed.

Lemma add_vector_result_ok P acc r :
  entries_ok P acc -> P r -> entries_ok P (add_vector_result acc r).
Proof.
  intros Hok HP. unfold add_vector_result.
  apply entries_ok_set; [exact Hok | reflexivity | exact HP].
Qed.

Lemma add_keyword_result_ok P acc r :
  entries_ok P acc -> P r -> entries_ok P (add_keyword_result acc r).
Proof.
  intros Hok HP. unfold add_keyword_result.
  destruct (dict_get (chunk_id r) acc) as [item|] eqn:E.
  - apply dict_get_Some_In in E. destruct Hok as [Hnd Hall].
    rewrite Forall_forall in Hall. destruct (Hall _ E) as [Hid Hitem].
    apply entries_ok_set;
      [split; [exact Hnd | apply Forall_forall; exact Hall]
      | exact Hid | exact Hitem].
  - apply entries_ok_set; [exact Hok | reflexivity | exact HP].
Qed.

Lemma add_vector_result_keys acc r cid :
  In cid (dict_keys (add_vector_result acc r))
  <-> cid = chunk_id r \/ In cid (dict_keys acc).
Proof. unfold add_vector_result. apply dict_set_keys_In. Qed.

Lemma add_keyword_result_keys acc r cid :
  In cid (dict_keys (add_keyword_result acc r))
  <-> cid = chunk_id r \/ In cid (dict_keys acc).
Proof.
  unfold add_keyword_result.
  destruct (dict_get (chunk_id r) acc); apply dict_set_keys_In.
Qed.

Lemma fold_entries_ok P
    (step : list (string * combined) -> SearchResult -> list (string * combined))
    (rs : list SearchResult) :
  (forall acc r, entries_ok P acc -> P r -> entries_ok P (step acc r)) ->
  (forall acc r cid,
      In cid (dict_keys (step acc r))
      <-> cid = chunk_id r \/ In cid (dict_keys acc)) ->
  Forall P rs ->
  forall acc,
    entries_ok P acc ->
    entries_ok P (fold_left step rs acc)
    /\ (forall cid, In cid (dict_keys (fold_left step rs acc))
                    <-> In cid (dict_keys acc) \/ In cid (ids rs)).
Proof.
  intros Hstep Hkeys. induction 1 as [|r rs Hr _ IH]; intros acc Hok.
  - split; [exact Hok|]. intros cid. cbn. tauto.
  - cbn [fold_left].
    destruct (IH (step acc r) (Hstep acc r Hok Hr)) as [Hok' Hk].
    split; [exact Hok'|]. intros cid. rewrite Hk, Hkeys. cbn. 
    split; intros H; intuition (subst; auto).
Qed.

Lemma entries_ok_keys P acc :
  entries_ok P acc ->
  map (fun item => chunk_id (result item)) (dict_values acc) = dict_keys acc.
Proof.
  intros [_ Hall]. unfold dict_values, dict_keys. rewrite map_map.
  apply map_ext_in. intros kv Hin. rewrite Forall_forall in Hall.
  apply (Hall kv Hin).
Qed.

(** The dictionary after the two loops, and the chunk ids of the
    combined results. *)
Lemma combine_final (V K : list SearchResult) :
  let final := fold_left add_keyword_result K
                 (fold_left add_vector_result V []) in
  entries_ok (fun x => In x V \/ In x K) final
  /\ (forall cid, In cid (dict_keys final)
                  <-> In cid (ids V) \/ In cid (ids K))
  /\ Permutation (ids (_combine_search_results V K)) (dict_keys final).
Proof.
  cbv zeta.
  set (P := fun x : SearchResult => In x V \/ In x K).
  assert (HV : Forall P V)
    by (apply Forall_forall; intros x Hx; left; exact Hx).
  assert (HK : Forall P K)
    by (apply Forall_forall; intros x Hx; right; exact Hx).
  assert (H0 : entries_ok P []) by (split; constructor).
  destruct (fold_entries_ok P add_vector_result V
              (add_vector_result_ok P) add_vector_result_keys HV [] H0)
    as [Hok1 Hkeys1].
  destruct (fold_entries_ok P add_keyword_result K
              (add_keyword_result_ok P) add_keyword_result_keys HK _ Hok1)
    as [Hok2 Hkeys2].
  split; [exact Hok2|]. split.
  - intros cid. rewrite Hkeys2, Hkeys1. cbn. tauto.
  - unfold _combine_search_results, ids. rewrite map_map.
    cbn [set_score chunk_id].
    rewrite <- (entries_ok_keys P _ Hok2).
    apply Permutation_map. apply sorted_desc_perm.
Qed.

Lemma combine_ids (V K : list SearchResult) (cid : string) :
  In cid (ids (_combine_search_results V K))
  <-> In cid (ids V) \/ In cid (ids K).
Proof.
  destruct (combine_final V K) as (_ & Hkeys & Hperm).
  rewrite <- Hkeys. split; intros H.
  - apply (Permutation_in _ Hperm). exact H.
  - apply (Permutation_in _ (Permutation_sym Hperm)). exact H.
Qed.

(** X20.  Whatever the two input lists are, also when a chunk id occurs
    more than once in them: the combined results hold every chunk id of
    the inputs exactly once, there are at most as many of them as there
    are inputs, and every combined result is an input result in which
    only the score has been replaced. *)
Theorem combine_search_results_one_per_id (V K : list SearchResult) :
  let out := _combine_search_results V K in
  NoDup (ids out)
  /\ (forall cid, In cid (ids out) <-> In cid (ids V) \/ In cid (ids K))
  /\ (forall r, In r out ->
        exists x, (In x V \/ In x K) /\ r = set_score x (score r))
  /\ (List.length out <= List.length V + List.length K)%nat.
Proof.
  cbv zeta. destruct (combine_final V K) as (Hok2 & Hkeys & Hids).
  unfold _combine_search_results in *.
  set (final := fold_left add_keyword_result K
                  (fold_left add_vector_result V [])) in *.
  set (sorted := sorted_desc combined_score (dict_values final)) in *.
  assert (Hperm : Permutation sorted (dict_values final))
    by apply sorted_desc_perm.
  split; [|split; [|split]].
  - apply (Permutation_NoDup (Permutation_sym Hids)). apply Hok2.
  - apply combine_ids.
  - intros r Hr. apply in_map_iff in Hr. destruct Hr as (item & <- & Hitem).
    apply (Permutation_in _ Hperm) in Hitem.
    unfold dict_values in Hitem. apply in_map_iff in Hitem.
    destruct Hitem as (kv & <- & Hkv).
    destruct Hok2 as [_ Hall]. rewrite Forall_forall in Hall.
    destruct (Hall kv Hkv) as [_ HP].
    exists (result (snd kv)). split; [exact HP | reflexivity].
  - rewrite length_map, (Permutation_length Hperm).
    unfold dict_values. rewrite length_map.
    unfold final. clear.
    assert (Hv : forall rs acc,
               (List.length (fold_left add_vector_result rs acc)
                <= List.length acc + List.length rs)%nat).
    { induction rs as [|r rs IH]; intros acc; cbn [fold_left List.length];
        [lia|].
      specialize (IH (add_vector_result acc r)).
      assert (List.length (add_vector_result acc r) <= S (List.length acc))%nat.
      { unfold add_vector_result. rewrite dict_set_length.
        destruct (dict_mem _ acc); lia. }
      lia. }
    assert (Hk : forall rs acc,
               (List.length (fold_left add_keyword_result rs acc)
                <= List.length acc + List.length rs)%nat).
    { induction rs as [|r rs IH]; intros acc; cbn [fold_left List.length];
        [lia|].
      specialize (IH (add_keyword_result acc r)).
      assert (List.length (add_keyword_result acc r) <= S (List.length acc))%nat.
      { unfold add_keyword_result.
        destruct (dict_get (chunk_id r) acc); rewrite dict_set_length;
          destruct (dict_mem _ acc); lia. }
      lia. }
    specialize (Hk K (fold_left add_vector_result V [])).
    specialize (Hv V []). cbn [List.length] in Hv. lia.
Qed.

(** ** Hybrid search *)

Lemma vector_loop_entries (V0 V : list SearchResult) :
  incl V V0 ->
  forall acc,
    Forall (vector_only V0) acc ->
    Forall (vector_only V0) (fold_left add_vector_result V acc).
Proof.
  induction V as [|r V IH]; intros Hincl acc Hacc; [exact Hacc|].
  cbn [fold_left]. apply IH.
  - intros x Hx. apply Hincl. right. exact Hx.
  - apply Forall_forall. intros kv Hin. unfold add_vector_result in Hin.
    apply dict_set_In_inv in Hin. destruct Hin as [->|Hin].
    + split; [reflexivity | apply Hincl; left; reflexivity].
    + rewrite Forall_forall in Hacc. apply Hacc. exact Hin.
Qed.

Lemma combine_without_keywords (V : list SearchResult) r :
  In r (_combine_search_results V []) ->
  exists v, In v V /\ r = set_score v (score v * (7 # 10)).
Proof.
  unfold _combine_search_results. cbn [fold_left]. intros Hr.
  apply in_map_iff in Hr. destruct Hr as (item & <- & Hitem).
  apply (Permutation_in _ (sorted_desc_perm combined_score _)) in Hitem.
  unfold dict_values in Hitem. apply in_map_iff in Hitem.
  destruct Hitem as (kv & <- & Hkv).
  pose proof (vector_loop_entries V V (incl_refl V) [] (Forall_nil _)) as Hall.
  rewrite Forall_forall in Hall. destruct (Hall kv Hkv) as [Hscore Hin].
  exists (result (snd kv)). split; [exact Hin|]. rewrite Hscore. reflexivity.
Qed.

Lemma filter_none {A : Type} (f : A -> bool) (l : list A) :
  (forall x, In x l -> f x = false) -> filter f l = [].
Proof.
  induction l as [|x l IH]; intros H; [reflexivity|].
  cbn [filter]. rewrite (H x (or_introl eq_refl)).
  apply IH. intros y Hy. apply H. right. exact Hy.
Qed.

Lemma slice_In {A : Type} (l : list A) (i j : Z) (x : A) :
  In x (slice l i j) -> In x l.
Proof.
  unfold slice. intros H. apply StoreExtra.firstn_In in H.
  rewrite <- (firstn_skipn (Z.to_nat (slice_index (Z.of_nat (List.length l)) i)) l).
  apply in_or_app. right. exact H.
Qed.

Lemma sorted_skipn {A : Type} (R : A -> A -> Prop) (n : nat) (l : list A) :
  StronglySorted R l -> StronglySorted R (skipn n l).
Proof.
  intros Hs. revert n. induction Hs as [|a l Hs IH Hall]; intros [|n]; cbn;
    try constructor; try assumption.
  apply IH.
Qed.

Lemma sorted_filter {A : Type} (R : A -> A -> Prop) (f : A -> bool) (l : list A) :
  StronglySorted R l -> StronglySorted R (filter f l).
Proof.
  induction 1 as [|a l Hs IH Hall]; cbn [filter]; [constructor|].
  destruct (f a); [|exact IH]. constructor; [exact IH|].
  apply Forall_forall. intros x Hx. apply filter_In in Hx.
  rewrite Forall_forall in Hall. apply Hall. apply Hx.
Qed.

Lemma sorted_slice {A : Type} (R : A -> A -> Prop) (l : list A) (i j : Z) :
  StronglySorted R l -> StronglySorted R (slice l i j).
Proof.
  intros Hs. unfold slice. apply StoreExtra.sorted_firstn.
  apply sorted_skipn. exact Hs.
Qed.

(** What [post_process] keeps, and in which order. *)
Lemma post_process_In q raw r :
  In r (post_process q raw) ->
  In r raw
  /\ (min_score q <= score r)%Q
  /\ (forall fs, filters q = Some fs -> include_result (metadata r) fs = true).
Proof.
  unfold post_process. intros Hr. apply slice_In in Hr.
  assert (Hscore : forall x,
             In x (filter (fun r => Qle_bool (min_score q) (score r)) raw) ->
             In x raw /\ (min_score q <= score x)%Q).
  { intros x Hx. apply filter_In in Hx. destruct Hx as [Hx Hle].
    split; [exact Hx | apply Qle_bool_iff; exact Hle]. }
  destruct (filters q) as [[|f fs]|].
  - destruct (Hscore r Hr) as [H1 H2]. repeat split; try assumption.
    intros fs Hfs. inversion Hfs. reflexivity.
  - rewrite apply_filters_filter in Hr. apply filter_In in Hr.
    destruct Hr as [Hr Hpass]. destruct (Hscore r Hr) as [H1 H2].
    repeat split; try assumption.
    intros fs' Hfs. inversion Hfs. subst fs'.
    rewrite include_result_spec. exact Hpass.
  - destruct (Hscore r Hr) as [H1 H2]. repeat split; try assumption.
    intros fs Hfs. discriminate.
Qed.

Lemma post_process_sorted (R : SearchResult -> SearchResult -> Prop) q raw :
  StronglySorted R raw -> StronglySorted R (post_process q raw).
Proof.
  intros Hs. unfold post_process. apply sorted_slice.
  destruct (filters q) as [[|f fs]|]; try (apply sorted_filter; exact Hs).
  rewrite apply_filters_filter. apply sorted_filter, sorted_filter. exact Hs.
Qed.

(** When nothing is cut off, [post_process] keeps every result that
    has the minimum score and passes the filters. *)
Lemma post_process_keeps q raw r :
  Z.of_nat (List.length raw) <= top_k q ->
  In r raw ->
  (min_score q <= score r)%Q ->
  (forall fs, filters q = Some fs -> include_result (metadata r) fs = true) ->
  In r (post_process q raw).
Proof.
  intros Hlen Hr Hscore Hpass. unfold post_process.
  set (by_score := filter (fun r => Qle_bool (min_score q) (score r)) raw).
  assert (Hin : In r by_score).
  { apply filter_In. split; [exact Hr | apply Qle_bool_iff; exact Hscore]. }
  assert (Hbound : forall l : list SearchResult,
             (List.length l <= List.length raw)%nat ->
             slice l 0 (top_k q) = l).
  { intros l Hl. unfold slice, slice_index.
    assert (H0 : (0 <? 0) = false) by reflexivity. rewrite H0.
    assert (Hk : (top_k q <? 0) = false) by (apply Z.ltb_ge; lia).
    rewrite Hk. rewrite (Z.min_l 0) by lia. cbn [Z.to_nat skipn].
    apply firstn_all2. lia. }
  assert (Hlen1 : (List.length by_score <= List.length raw)%nat)
    by apply filter_length_le.
  destruct (filters q) as [[|f fs]|] eqn:Hf.
  - rewrite (Hbound _ Hlen1). exact Hin.
  - rewrite apply_filters_filter.
    rewrite Hbound.
    + apply filter_In. split; [exact Hin|].
      rewrite <- include_result_spec. apply Hpass. reflexivity.
    + etransitivity; [apply filter_length_le | exact Hlen1].
  - rewrite (Hbound _ Hlen1). exact Hin.
Qed.

Section API.
Variable generate_embedding : string -> exn + EmbeddingResult.
Variable vector_db_search : list Q -> string -> Z -> exn + list SearchResult.
Variable model_name : string.
Variable index_name : string.
Variable elapsed_ms : Q.
Variable timestamp : string.

Abbreviation search_ :=
  (search generate_embedding vector_db_search model_name index_name
     elapsed_ms timestamp).
Abbreviation search_path_ :=
  (search_path generate_embedding vector_db_search index_name).
Abbreviation vector_search_ :=
  (_vector_search generate_embedding vector_db_search index_name).
Abbreviation hybrid_search_ :=
  (_hybrid_search generate_embedding vector_db_search index_name).

Lemma hybrid_search_In q r :
  In r (hybrid_search_ q) ->
  exists v, In v (vector_search_ q) /\ r = set_score v (score v * (7 # 10)).
Proof. unfold _hybrid_search, _keyword_search. apply combine_without_keywords. Qed.

Lemma hybrid_search_sorted q : StronglySorted (desc score) (hybrid_search_ q).
Proof.
  unfold _hybrid_search, _combine_search_results.
  apply sorted_map_score, sorted_desc_sorted.
Qed.

(** X21.  The keyword search contributes nothing, so a hybrid search
    returns vector results only: its results are in descending order of
    score, every one of them is a result of the vector search whose
    score has been multiplied by 0.7, and a keyword search returns no
    result at all. *)
Theorem hybrid_search_rescales_vector_results (q : SearchQuery) :
  StronglySorted (desc score) (hybrid_search_ q)
  /\ (forall r, In r (hybrid_search_ q) ->
        exists v, In v (vector_search_ q)
                  /\ r = set_score v (score v * (7 # 10)))
  /\ (forall cid, In cid (ids (hybrid_search_ q))
                  <-> In cid (ids (vector_search_ q)))
  /\ (search_type q = "keyword"%string -> results (search_ q) = []).
Proof.
  split; [apply hybrid_search_sorted|]. split; [apply hybrid_search_In|].
  split.
  - intros cid. unfold _hybrid_search, _keyword_search.
    destruct (combine_ids (vector_search_ q) [] cid) as [H1 H2].
    split; [intros H; destruct (H1 H) as [H'|[]]; exact H' | intros H; apply H2; left; exact H].
  - intros Hk. unfold search, search_try, search_path. rewrite Hk.
    cbn [String.eqb Ascii.eqb Bool.eqb]. unfold _keyword_search.
    rewrite post_process_nil. reflexivity.
Qed.

(** X22.  A hybrid search whose minimum score lies above 0.7 times
    every score of the vector search returns no result: for scores of
    at most 1, any [min_score] above 0.7 empties a hybrid response. *)
Theorem hybrid_search_score_cap (q : SearchQuery) (bound : Q) :
  search_type q = "hybrid"%string ->
  (forall v, In v (vector_search_ q) -> (score v <= bound)%Q) ->
  (bound * (7 # 10) < min_score q)%Q ->
  results (search_ q) = [] /\ total_results (search_ q) = 0.
Proof.
  intros Hh Hbound Hmin.
  assert (Hpath : search_path_ q = inr (hybrid_search_ q)).
  { unfold search_path. rewrite Hh. reflexivity. }
  rewrite (search_supported _ _ _ _ _ _ q _ Hpath).
  cbn [results total_results].
  assert (Hnone : post_process q (hybrid_search_ q) = []).
  { unfold post_process. rewrite filter_none.
    - destruct (filters q) as [[|f fs]|]; cbn [_apply_filters];
        apply slice_nil.
    - intros r Hr. destruct (hybrid_search_In q r Hr) as (v & Hv & ->).
      cbn [score set_score].
      destruct (Qle_bool (min_score q) (score v * (7 # 10))) eqn:E;
        [|reflexivity].
      apply Qle_bool_iff in E. exfalso.
      apply (Qlt_not_le _ _ Hmin). eapply Qle_trans; [exact E|].
      apply Qmult_le_compat_r; [apply Hbound; exact Hv | discriminate]. }
  rewrite Hnone. split; reflexivity.
Qed.

(** X23.  Every result of a response comes from the results of the
    selected search path, has at least the minimum score of the query
    and passes the filters of the query; the results keep the order of
    the path, so the results of a hybrid search are in descending order
    of score. *)
Theorem response_results_pass (q : SearchQuery) (r : SearchResult) :
  In r (results (search_ q)) ->
  (exists raw, search_path_ q = inr raw /\ In r raw)
  /\ (min_score q <= score r)%Q
  /\ (forall fs, filters q = Some fs -> include_result (metadata r) fs = true)
  /\ (forall (R : SearchResult -> SearchResult -> Prop) raw,
        search_path_ q = inr raw -> StronglySorted R raw ->
        StronglySorted R (results (search_ q)))
  /\ (search_type q = "hybrid"%string ->
      StronglySorted (desc score) (results (search_ q))).
Proof.
  intros Hr.
  destruct (search_path_ q) as [e|raw] eqn:Hpath.
  { unfold search, search_try in Hr. rewrite Hpath in Hr. contradiction. }
  rewrite (search_supported _ _ _ _ _ _ q _ Hpath) in *.
  cbn [results] in *.
  destruct (post_process_In q raw r Hr) as (Hraw & Hscore & Hpass).
  split; [exists raw; split; [reflexivity | exact Hraw]|].
  split; [exact Hscore|]. split; [exact Hpass|]. split.
  - intros R raw' Heq Hs. inversion Heq. subst raw'.
    apply post_process_sorted. exact Hs.
  - intros Hh. apply post_process_sorted.
    unfold search_path in Hpath. rewrite Hh in Hpath.
    cbn [String.eqb Ascii.eqb Bool.eqb] in Hpath. inversion Hpath.
    apply hybrid_search_sorted.
Qed.

End API.

Lemma hybrid_search_score_cap_witness :
  results (search Samples.working_embedder Samples.two_results "bge-large"
             "claims-embeddings" 3 "2025-04-07T22:45:00"
             (mkQuery "water damage" "hybrid" 5 (3 # 4) None)) = [].
Proof.
  destruct (hybrid_search_score_cap Samples.working_embedder
              Samples.two_results "bge-large" "claims-embeddings" 3
              "2025-04-07T22:45:00"
              (mkQuery "water damage" "hybrid" 5 (3 # 4) None) 1%Q)
    as [H _].
  - reflexivity.
  - intros v Hv. vm_compute in Hv.
    destruct Hv as [<-|[<-|[]]]; unfold Qle; cbn; lia.
  - reflexivity.
  - exact H.
Defined.

Lemma response_results_pass_witness :
  ((1 # 2) <= score (set_score Samples.vector_A (63 # 100)))%Q.
Proof.
  destruct (response_results_pass Samples.working_embedder
              Samples.two_results "bge-large" "claims-embeddings" 3
              "2025-04-07T22:45:00"
              (mkQuery "water damage" "hybrid" 5 (1 # 2) None)
              (set_score Samples.vector_A (63 # 100)))
    as (_ & H & _).
  - left. reflexivity.
  - exact H.
Defined.

(** ** The search API over the local store *)

Lemma vector_search_local generate_embedding index_name db q emb :
  generate_embedding (query_text q) = inr emb ->
  _vector_search generate_embedding (Manager.search db) index_name q
  = LocalVectorDB.search db (embedding emb) (top_k q).
Proof. intros H. unfold _vector_search. rewrite H. reflexivity. Qed.

(** X24.  The search API over the manager of a local store that holds
    records, for a query whose embedding has the dimension of the index
    and [top_k > 0].  The results of a response come in descending
    order of score.  In a vector search every result is the result of a
    stored record, scored with the inner product of the two vectors,
    and when [top_k] is at least the number of records, every stored
    record that has the minimum score and passes the filters is
    returned.  In a hybrid search every result is the result of a
    stored record with 0.7 times that inner product as its score. *)
Theorem search_api_over_local_store
    (generate_embedding : string -> exn + EmbeddingResult)
    (model_name index_name : string) (elapsed_ms : Q) (timestamp : string)
    (db : LocalVectorDB) (d : Z) (records : list EmbeddingResult)
    (q : SearchQuery) (emb : EmbeddingResult) :
  holds records d db ->
  generate_embedding (query_text q) = inr emb ->
  Z.of_nat (List.length (embedding emb)) = d ->
  0 < top_k q ->
  let response :=
    search generate_embedding (Manager.search db) model_name index_name
      elapsed_ms timestamp q in
  let inner e := Faiss.inner (embedding emb) (embedding e) in
  (search_type q = "vector"%string ->
   StronglySorted (desc score) (results response)
   /\ (forall r, In r (results response) ->
         exists e, In e records /\ r = result_of (embedding emb) e
                   /\ (min_score q <= inner e)%Q)
   /\ (Z.of_nat (List.length records) <= top_k q ->
       forall e,
         In e records -> (min_score q <= inner e)%Q ->
         (forall fs, filters q = Some fs ->
                     include_result (stored_metadata e) fs = true) ->
         In (result_of (embedding emb) e) (results response)))
  /\ (search_type q = "hybrid"%string ->
      StronglySorted (desc score) (results response)
      /\ (forall r, In r (results response) ->
            exists e, In e records
                      /\ r = set_score (result_of (embedding emb) e)
                               (inner e * (7 # 10))
                      /\ (min_score q <= inner e * (7 # 10))%Q)).
Proof.
  intros Hholds Hemb Hdim Hk. cbv zeta.
  destruct (StoreExtra.search_holds_results db d records (embedding emb)
              (top_k q) Hholds Hdim Hk)
    as (embs & Hsearch & Hlen & Hincl & _ & Hall).
  pose proof (vector_search_local generate_embedding index_name db q emb Hemb)
    as Hvec.
  split.
  - intros Htype.
    assert (Hpath : search_path generate_embedding (Manager.search db)
                      index_name q
                    = inr (LocalVectorDB.search db (embedding emb) (top_k q))).
    { unfold search_path. rewrite Htype, Hvec. reflexivity. }
    rewrite (search_supported _ _ _ _ _ _ q _ Hpath). cbn [results].
    split; [|split].
    + apply post_process_sorted. apply StoreExtra.search_sorted.
    + intros r Hr. destruct (post_process_In q _ r Hr) as (Hraw & Hscore & _).
      rewrite Hsearch in Hraw. apply in_map_iff in Hraw.
      destruct Hraw as (e & <- & He).
      exists e. split; [apply Hincl; exact He|]. split; [reflexivity|].
      exact Hscore.
    + intros Hn e He Hscore Hpass. apply post_process_keeps.
      * rewrite Hsearch, length_map. lia.
      * rewrite Hsearch. apply in_map. apply (Hall Hn). exact He.
      * exact Hscore.
      * exact Hpass.
  - intros Htype.
    assert (Hpath : search_path generate_embedding (Manager.search db)
                      index_name q
                    = inr (_hybrid_search generate_embedding
                             (Manager.search db) index_name q)).
    { unfold search_path. rewrite Htype. reflexivity. }
    rewrite (search_supported _ _ _ _ _ _ q _ Hpath). cbn [results].
    split.
    + apply post_process_sorted. apply hybrid_search_sorted.
    + intros r Hr. destruct (post_process_In q _ r Hr) as (Hraw & Hscore & _).
      destruct (hybrid_search_In _ _ _ q r Hraw) as (v & Hv & ->).
      rewrite Hvec, Hsearch in Hv. apply in_map_iff in Hv.
      destruct Hv as (e & <- & He).
      exists e. split; [apply Hincl; exact He|]. split; [reflexivity|].
      exact Hscore.
Qed.

Lemma search_api_over_local_store_witness :
  let response :=
    search Samples.working_embedder (Manager.search Samples.db_two)
      "bge-large" "claims-embeddings" 3 "2025-04-07T22:45:00"
      (mkQuery "policy number" "vector" 5 (1 # 2) None) in
  In (result_of [1%Q; 0%Q] Samples.emb_a) (results response).
Proof.
  assert (H : holds [Samples.emb_a; Samples.emb_b] 2 Samples.db_two).
  { unfold holds. repeat split; try reflexivity.
    - repeat constructor; cbn; intuition discriminate.
    - repeat constructor. }
  destruct (search_api_over_local_store Samples.working_embedder
              "bge-large" "claims-embeddings" 3 "2025-04-07T22:45:00"
              Samples.db_two 2 [Samples.emb_a; Samples.emb_b]
              (mkQuery "policy number" "vector" 5 (1 # 2) None)
              (LocalVectorDB.mkEmbedding "query" [1%Q; 0%Q] "unknown"
                 "policy number" [("query", VBool true)] "bge-large" 2)
              H eq_refl eq_refl eq_refl)
    as [Hvector _].
  destruct (Hvector eq_refl) as (_ & _ & Hall).
  apply Hall.
  - cbn. lia.
  - left. reflexivity.
  - unfold Qle. cbn. lia.
  - intros fs Hfs. discriminate.
Defined.

End SearchExtra.


(* ===================================================================== *)
(** * From chunks to stored records *)
(* ===================================================================== *)

Module PipelineExtra.
Import Py PyFacts TextChunker Props.
#[local] Open Scope list_scope.

(** ** The chunk ids of one text *)

Lemma parse_zeros k s : parse_index (zeros k ++ s) = parse_index s.
Proof.
  induction k as [|k IH]; [reflexivity|].
  rewrite <- IH. unfold parse_index, zeros.
  cbn [repeat string_of_list_ascii append NilEmpty.uint_of_string].
  destruct (NilEmpty.uint_of_string _) as [u|]; reflexivity.
Qed.

Lemma parse_digits (a : N) :
  parse_index (NilZero.string_of_uint (N.to_uint a)) = Some a.
Proof.
  unfold parse_index, NilZero.string_of_uint.
  destruct (N.to_uint a) eqn:E;
    try (rewrite <- E, NilEmpty.usu; cbn; rewrite DecimalN.Unsigned.of_to;
         reflexivity).
  cbn. f_equal. rewrite <- (DecimalN.Unsigned.of_to a), E. reflexivity.
Qed.

Lemma parse_fmt_03d (n : Z) :
  0 <= n -> parse_index (fmt_03d n) = Some (Z.to_N n).
Proof.
  intros Hn. unfold fmt_03d.
  assert (Hneg : (n <? 0) = false) by (apply Z.ltb_ge; exact Hn).
  rewrite Hneg, parse_zeros, Z.abs_eq by exact Hn. apply parse_digits.
Qed.

Lemma fmt_03d_inj (a b : Z) :
  0 <= a -> 0 <= b -> fmt_03d a = fmt_03d b -> a = b.
Proof.
  intros Ha Hb Heq. apply (f_equal parse_index) in Heq.
  rewrite !parse_fmt_03d in Heq by assumption. inversion Heq. lia.
Qed.

Lemma append_inv_head (s a b : string) :
  (s ++ a)%string = (s ++ b)%string -> a = b.
Proof.
  induction s as [|c s IH]; cbn; intros H; [exact H|].
  inversion H. auto.
Qed.

Section Loop.
Variable path_stem : string -> string.
Variable self : ClaimsTextChunker.
Variable text : string.
Variable break_points : list Z.
Variable source_file : string.
Variable file_metadata : option (list (string * pyval)).

Abbreviation loop :=
  (create_chunks_loop path_stem self text break_points source_file
     file_metadata).

Lemma loop_metadata_keys (fuel : nat) :
  forall start idx chunks,
    loop fuel start idx = Some chunks ->
    Forall (fun c => dict_keys (metadata c) = chunk_metadata_keys) chunks.
Proof.
  induction fuel as [|fuel IH]; intros start idx chunks Hrun.
  - destruct (Z.lt_ge_cases start (len text)) as [Hlt|Hge].
    + apply Z.ltb_lt in Hlt. cbn [create_chunks_loop] in Hrun.
      rewrite Hlt in Hrun. discriminate.
    + rewrite (ChunkerSpec.loop_done _ _ _ _ _ _ _ _ _ Hge) in Hrun.
      inversion Hrun. constructor.
  - destruct (Z.lt_ge_cases start (len text)) as [Hlt|Hge].
    + rewrite (ChunkerSpec.loop_step _ _ _ _ _ _ _ _ _ Hlt) in Hrun.
      destruct (skipped _ _ _ _).
      * apply (IH _ _ _ Hrun).
      * destruct (loop fuel _ (idx + 1)) as [rest|] eqn:Hrest;
          [|discriminate].
        inversion Hrun. subst chunks.
        constructor; [reflexivity | apply (IH _ _ _ Hrest)].
    + rewrite (ChunkerSpec.loop_done _ _ _ _ _ _ _ _ _ Hge) in Hrun.
      inversion Hrun. constructor.
Qed.
End Loop.

Lemma chunk_text_metadata_keys path_stem self fuel text source_file
    file_metadata chunks :
  chunk_text path_stem self fuel text source_file file_metadata = Some chunks ->
  Forall (fun c => dict_keys (metadata c) = chunk_metadata_keys) chunks.
Proof.
  intros Hrun. unfold chunk_text in Hrun. destruct (_ || _).
  - inversion Hrun. constructor.
  - apply (loop_metadata_keys _ _ _ _ _ _ _ _ _ _ Hrun).
Qed.

Lemma chunk_text_ids path_stem self fuel text source_file file_metadata
    chunks :
  chunk_text path_stem self fuel text source_file file_metadata = Some chunks ->
  map chunk_id chunks
  = map (fun i => make_chunk_id path_stem source_file (Z.of_nat i))
      (seq 0 (List.length chunks))
  /\ Forall (fun c => TextChunker.source_file c = source_file) chunks.
Proof.
  intros Hrun. unfold chunk_text in Hrun. destruct (_ || _).
  - inversion Hrun. split; [reflexivity | constructor].
  - destruct (ChunkerSpec.loop_indices _ _ _ _ _ _ _ _ _ _ Hrun)
      as (Hidx & Hids & Hsrc).
    split; [|exact Hsrc].
    assert (Hmap : map chunk_id chunks
                   = map (fun n => make_chunk_id path_stem source_file n)
                       (map chunk_index chunks)).
    { rewrite map_map. apply map_ext_in. intros c Hc.
      rewrite Forall_forall in Hids. apply (Hids c Hc). }
    rewrite Hmap, Hidx, map_map. apply map_ext. intros i.
    f_equal.
Qed.

Lemma chunk_ids_NoDup path_stem source_file (n : nat) :
  NoDup (map (fun i => make_chunk_id path_stem source_file (Z.of_nat i))
           (seq 0 n)).
Proof.
  apply NoDup_map_NoDup_ForallPairs; [|apply seq_NoDup].
  intros i j _ _ Heq. unfold make_chunk_id in Heq.
  apply append_inv_head, append_inv_head in Heq.
  apply fmt_03d_inj in Heq; lia.
Qed.

(** X25.  The chunks [chunk_text] returns for one text have pairwise
    different chunk ids, and all of them carry the given source file:
    the index is written in decimal with at least three digits, which
    tells any two indices apart. *)
Theorem chunk_text_ids_distinct path_stem self fuel text source_file
    file_metadata chunks :
  chunk_text path_stem self fuel text source_file file_metadata = Some chunks ->
  NoDup (map chunk_id chunks)
  /\ Forall (fun c => TextChunker.source_file c = source_file) chunks
  /\ (forall a b, 0 <= a -> 0 <= b ->
        make_chunk_id path_stem source_file a
        = make_chunk_id path_stem source_file b -> a = b).
Proof.
  intros Hrun.
  destruct (chunk_text_ids _ _ _ _ _ _ _ Hrun) as [Hids Hsrc].
  split; [|split; [exact Hsrc|]].
  - rewrite Hids. apply chunk_ids_NoDup.
  - intros a b Ha Hb Heq. unfold make_chunk_id in Heq.
    apply append_inv_head, append_inv_head in Heq.
    apply fmt_03d_inj in Heq; assumption.
Qed.

Lemma chunk_text_ids_distinct_witness :
  exists chunks,
    chunk_text posix_stem Samples.small_chunker 80 Samples.sample_text
      "claims/report.txt" None = Some chunks
    /\ List.length chunks = 4%nat
    /\ NoDup (map chunk_id chunks).
Proof.
  destruct (chunk_text posix_stem Samples.small_chunker 80 Samples.sample_text
              "claims/report.txt" None) as [chunks|] eqn:Hrun;
    [|vm_compute in Hrun; discriminate].
  exists chunks. split; [reflexivity|]. split.
  - assert (Hopt : option_map (@List.length TextChunk)
                     (chunk_text posix_stem Samples.small_chunker 80
                        Samples.sample_text "claims/report.txt" None)
                   = Some 4%nat) by (vm_compute; reflexivity).
    rewrite Hrun in Hopt. inversion Hopt. reflexivity.
  - apply (chunk_text_ids_distinct posix_stem Samples.small_chunker 80
             Samples.sample_text "claims/report.txt" None chunks Hrun).
Defined.

(** ** Records from chunks *)

Lemma dict_update_get_other {V : Type} (k : string) (e : list (string * V)) :
  ~ In k (dict_keys e) ->
  forall d, dict_get k (dict_update d e) = dict_get k d.
Proof.
  unfold dict_update.
  induction e as [|[k' v] e IH]; intros Hk d; [reflexivity|].
  cbn [fold_left fst snd]. rewrite IH.
  - apply dict_get_set_ne. intros ->. apply Hk. left. reflexivity.
  - intros H. apply Hk. right. exact H.
Qed.

Lemma dict_update_keys_In {V : Type} (k : string) (e : list (string * V)) :
  forall d, In k (dict_keys (dict_update d e)) ->
            In k (dict_keys d) \/ In k (dict_keys e).
Proof.
  unfold dict_update.
  induction e as [|[k' v] e IH]; intros d H; [left; exact H|].
  cbn [fold_left fst snd] in H. apply IH in H. destruct H as [H|H].
  - apply SearchExtra.dict_set_keys_In in H. destruct H as [->|H].
    + right. left. reflexivity.
    + left. exact H.
  - right. right. exact H.
Qed.

Section Generator.
Variable encode : list string -> exn + list (list Q).
Variable model_name : string.
Variable embedding_dim : Z.

Abbreviation record := (record_of model_name embedding_dim).

Lemma batch_source_file_chunk (c : TextChunk) :
  ~ In "source_file"%string (dict_keys (metadata c)) ->
  Generator.batch_source_file (Generator.chunk_metadata c)
  = Some (TextChunker.source_file c).
Proof.
  intros Hk. unfold Generator.batch_source_file, Generator.chunk_metadata.
  rewrite (dict_update_get_other _ _ Hk). reflexivity.
Qed.

Lemma batch_results_chunks (all : list TextChunk) :
  forall suf pre rows,
    all = pre ++ suf ->
    List.length rows = List.length suf ->
    Forall (fun c => ~ In "source_file"%string (dict_keys (metadata c))) suf ->
    Generator.batch_results model_name embedding_dim
      (Some (map chunk_id all)) (Some (map Generator.chunk_metadata all))
      (List.length pre) (combine (map content suf) rows)
    = Some (map record (combine suf rows)).
Proof.
  induction suf as [|c suf IH]; intros pre rows Hall Hlen Hok;
    [reflexivity|].
  destruct rows as [|row rows]; [discriminate|].
  inversion Hok as [|? ? Hc Hrest]; subst.
  cbn [map combine Generator.batch_results].
  unfold Generator.batch_chunk_id, Generator.batch_metadata.
  rewrite !map_app. cbn [map].
  rewrite !nth_error_app2 by (rewrite length_map; lia).
  rewrite !length_map, Nat.sub_diag. cbn [nth_error].
  rewrite (batch_source_file_chunk c Hc).
  specialize (IH (pre ++ [c]) rows).
  rewrite length_app in IH. cbn [List.length] in IH.
  replace (List.length pre + 1)%nat with (S (List.length pre)) in IH by lia.
  rewrite <- app_assoc in IH. cbn [app] in IH.
  rewrite !map_app in IH. cbn [map] in IH.
  rewrite IH; [reflexivity | reflexivity | | exact Hrest].
  cbn [List.length] in Hlen. lia.
Qed.

Lemma from_chunks_records (chunks : list TextChunk) (rows : list (list Q)) :
  encode (map content chunks) = inr rows ->
  List.length rows = List.length chunks ->
  Forall (fun c => ~ In "source_file"%string (dict_keys (metadata c))) chunks ->
  Generator.generate_embeddings_from_chunks encode model_name embedding_dim
    chunks
  = Some (inr (map record (combine chunks rows))).
Proof.
  intros Henc Hlen Hok.
  unfold Generator.generate_embeddings_from_chunks,
    Generator.generate_embeddings_batch.
  rewrite Henc.
  pose proof (batch_results_chunks chunks chunks [] rows eq_refl Hlen Hok)
    as Hloop.
  cbn [List.length] in Hloop. rewrite Hloop. reflexivity.
Qed.

Lemma records_chunk_ids (chunks : list TextChunk) (rows : list (list Q)) :
  List.length rows = List.length chunks ->
  map LocalVectorDB.emb_chunk_id (map record (combine chunks rows))
  = map chunk_id chunks
  /\ map LocalVectorDB.embedding (map record (combine chunks rows)) = rows.
Proof.
  revert rows. induction chunks as [|c chunks IH]; intros [|row rows] Hlen;
    try discriminate; [split; reflexivity|].
  cbn [List.length] in Hlen.
  destruct (IH rows ltac:(lia)) as [H1 H2].
  cbn [combine map]. rewrite H1, H2. split; reflexivity.
Qed.

(** X26.  When the model returns one row per text and no chunk has a
    [source_file] entry in its metadata, [generate_embeddings_from_chunks]
    returns one record per chunk, in the order of the chunks: the record
    has the chunk id, the content and the source file of its chunk, the
    row of its chunk as vector, the model name and the dimension of the
    generator, whatever the length of the row is; an exception of the
    model is raised again. *)
Theorem generate_embeddings_from_chunks_aligned
    (chunks : list TextChunk) (rows : list (list Q)) :
  List.length rows = List.length chunks ->
  Forall (fun c => ~ In "source_file"%string (dict_keys (metadata c))) chunks ->
  (encode (map content chunks) = inr rows ->
   exists embs,
     Generator.generate_embeddings_from_chunks encode model_name embedding_dim
       chunks = Some (inr embs)
     /\ map LocalVectorDB.emb_chunk_id embs = map chunk_id chunks
     /\ map LocalVectorDB.emb_content embs = map content chunks
     /\ map LocalVectorDB.emb_source_file embs
        = map TextChunker.source_file chunks
     /\ map LocalVectorDB.embedding embs = rows
     /\ Forall (fun emb =>
                  LocalVectorDB.embedding_dim emb = embedding_dim
                  /\ LocalVectorDB.model_name emb = model_name) embs)
  /\ (forall e, encode (map content chunks) = inl e ->
        Generator.generate_embeddings_from_chunks encode model_name
          embedding_dim chunks = Some (inl e)).
Proof.
  intros Hlen Hok. split.
  - intros Henc. exists (map record (combine chunks rows)).
    split; [apply from_chunks_records; assumption|].
    destruct (records_chunk_ids chunks rows Hlen) as [Hids Hrows].
    split; [exact Hids|]. split; [|split; [|split; [exact Hrows|]]].
    + clear - Hlen. revert rows Hlen.
      induction chunks as [|c chunks IH]; intros [|row rows] Hlen;
        try discriminate; [reflexivity|].
      cbn [combine map]. rewrite IH by (cbn in Hlen; lia). reflexivity.
    + clear - Hlen. revert rows Hlen.
      induction chunks as [|c chunks IH]; intros [|row rows] Hlen;
        try discriminate; [reflexivity|].
      cbn [combine map]. rewrite IH by (cbn in Hlen; lia). reflexivity.
    + apply Forall_forall. intros emb Hemb. apply in_map_iff in Hemb.
      destruct Hemb as (cr & <- & _). split; reflexivity.
  - intros e Henc.
    unfold Generator.generate_embeddings_from_chunks,
      Generator.generate_embeddings_batch.
    rewrite Henc. reflexivity.
Qed.

End Generator.

Lemma generate_embeddings_from_chunks_aligned_witness :
  exists embs,
    Generator.generate_embeddings_from_chunks Samples.constant_encode
      "bge-large" 1024
      [mkTextChunk "Policy number CPP-456" "doc_chunk_000" "doc.txt" 0 0 21
         [("chunk_size", VInt 21)]]
    = Some (inr embs)
    /\ map LocalVectorDB.emb_chunk_id embs = ["doc_chunk_000"%string].
Proof.
  destruct (generate_embeddings_from_chunks_aligned Samples.constant_encode
              "bge-large" 1024
              [mkTextChunk "Policy number CPP-456" "doc_chunk_000" "doc.txt"
                 0 0 21 [("chunk_size", VInt 21)]]
              [[1%Q; 0%Q]] eq_refl) as [H _].
  - repeat constructor. cbn. intuition discriminate.
  - destruct (H eq_refl) as (embs & Hrun & Hids & _).
    exists embs. split; [exact Hrun | exact Hids].
Defined.

(** ** Storing the records of a text *)

Lemma store_steps_fresh (index_name : string) (db : LocalVectorDB.LocalVectorDB)
    (d : Z) (embs : list LocalVectorDB.EmbeddingResult) :
  LocalVectorDB.db_metadata db = [] ->
  embs <> [] ->
  Forall (fun emb => LocalVectorDB.embedding_dim emb = d) embs ->
  Forall (fun emb => Z.of_nat (List.length (LocalVectorDB.embedding emb)) = d)
         embs ->
  NoDup (map LocalVectorDB.emb_chunk_id embs) ->
  fst (Pipeline.store_steps index_name db embs) = inr tt
  /\ holds embs d (snd (Pipeline.store_steps index_name db embs)).
Proof.
  intros Hmd Hne Hdecl Hdim Hnd.
  destruct embs as [|e0 rest]; [congruence|].
  assert (Hd0 : LocalVectorDB.embedding_dim e0 = d)
    by (inversion Hdecl; assumption).
  set (created := snd (LocalVectorDB.create_index db (Some d))).
  assert (Hcreated : holds [] d created).
  { unfold holds, created. cbn. rewrite Hmd.
    repeat split; constructor. }
  destruct (StoreExtra.upsert_fresh created d [] (e0 :: rest) Hcreated Hne
              Hdim Hnd) as [Hok Hafter].
  cbn [app] in Hafter.
  unfold Pipeline.store_steps, Pipeline._setup_vector_database,
    Pipeline._store_embeddings, Manager.create_index,
    Manager.upsert_embeddings.
  rewrite Hd0. cbn [LocalVectorDB.create_index Faiss.new_IndexFlatIP].
  change (LocalVectorDB.upsert_embeddings _ (e0 :: rest))
    with (LocalVectorDB.upsert_embeddings created (e0 :: rest)).
  revert Hok Hafter.
  destruct (LocalVectorDB.upsert_embeddings created (e0 :: rest))
    as [ok after].
  cbn [fst snd]. intros -> Hafter. split; [reflexivity | exact Hafter].
Qed.

Lemma stored_content (query : list Q) (emb : LocalVectorDB.EmbeddingResult) :
  ~ In "content"%string (dict_keys (LocalVectorDB.emb_metadata emb)) ->
  LocalVectorDB.content (result_of query emb)
  = VStr (LocalVectorDB.emb_content emb).
Proof.
  intros Hk. unfold result_of, LocalVectorDB.stored_metadata.
  cbn [LocalVectorDB.content].
  rewrite (dict_update_get_other _ _ Hk). reflexivity.
Qed.

Lemma chunk_metadata_no_content (c : TextChunk) :
  dict_keys (metadata c) = chunk_metadata_keys ->
  ~ In "content"%string (dict_keys (Generator.chunk_metadata c)).
Proof.
  intros Hkeys Hin. unfold Generator.chunk_metadata in Hin.
  apply dict_update_keys_In in Hin. rewrite Hkeys in Hin.
  cbn in Hin. intuition discriminate.
Qed.

(** X27.  From a text to the answers of the store.  When [chunk_text]
    returns chunks for a text, the model returns one row of the
    dimension of the generator per chunk, and the store has no metadata:
    [generate_embeddings_from_chunks] returns one record per chunk, the
    storage steps of the pipeline succeed, and the store then holds these
    records, aligned; a search with a query of that dimension and
    [top_k > 0] returns [min(top_k, number of chunks)] results, each
    with the chunk id and the content of one of the chunks. *)
Theorem pipeline_stores_chunks
    (path_stem : string -> string) (chunker : ClaimsTextChunker) (fuel : nat)
    (text source_file : string) (file_metadata : option (list (string * pyval)))
    (chunks : list TextChunk)
    (encode : list string -> exn + list (list Q))
    (model_name : string) (embedding_dim : Z) (rows : list (list Q))
    (index_name : string) (db : LocalVectorDB.LocalVectorDB)
    (query : list Q) (top_k : Z) :
  chunk_text path_stem chunker fuel text source_file file_metadata
    = Some chunks ->
  chunks <> [] ->
  encode (map content chunks) = inr rows ->
  List.length rows = List.length chunks ->
  Forall (fun row => Z.of_nat (List.length row) = embedding_dim) rows ->
  LocalVectorDB.db_metadata db = [] ->
  Z.of_nat (List.length query) = embedding_dim ->
  0 < top_k ->
  exists embs,
    Generator.generate_embeddings_from_chunks encode model_name embedding_dim
      chunks = Some (inr embs)
    /\ map LocalVectorDB.emb_chunk_id embs = map chunk_id chunks
    /\ map LocalVectorDB.embedding embs = rows
    /\ fst (Pipeline.store_steps index_name db embs) = inr tt
    /\ holds embs embedding_dim (snd (Pipeline.store_steps index_name db embs))
    /\ let results :=
         LocalVectorDB.search (snd (Pipeline.store_steps index_name db embs))
           query top_k in
       Z.of_nat (List.length results)
       = Z.min top_k (Z.of_nat (List.length chunks))
       /\ forall r, In r results ->
            exists c, In c chunks
                      /\ LocalVectorDB.chunk_id r = chunk_id c
                      /\ LocalVectorDB.content r = VStr (content c).
Proof.
  intros Hrun Hne Henc Hlen Hrows Hmd Hq Hk.
  pose proof (chunk_text_metadata_keys _ _ _ _ _ _ _ Hrun) as Hkeys.
  destruct (chunk_text_ids _ _ _ _ _ _ _ Hrun) as [Hcids _].
  assert (Hok : Forall (fun c => ~ In "source_file"%string
                                     (dict_keys (metadata c))) chunks).
  { eapply Forall_impl; [|exact Hkeys]. cbn. intros c Hc. rewrite Hc.
    cbn. intuition discriminate. }
  set (embs := map (record_of model_name embedding_dim) (combine chunks rows)).
  destruct (records_chunk_ids model_name embedding_dim chunks rows Hlen)
    as [Hids Hvecs].
  fold embs in Hids, Hvecs.
  assert (Hembs_ne : embs <> []).
  { intros Hnil. apply (f_equal (@List.length _)) in Hnil.
    unfold embs in Hnil. rewrite length_map, length_combine in Hnil.
    cbn [List.length] in Hnil.
    assert (List.length chunks <> 0%nat)
      by (intros H0; apply length_zero_iff_nil in H0; congruence).
    lia. }
  assert (Hdecl : Forall (fun emb => LocalVectorDB.embedding_dim emb
                                     = embedding_dim) embs).
  { apply Forall_forall. intros emb Hemb. apply in_map_iff in Hemb.
    destruct Hemb as (cr & <- & _). reflexivity. }
  assert (Hdim : Forall (fun emb =>
                           Z.of_nat (List.length (LocalVectorDB.embedding emb))
                           = embedding_dim) embs).
  { rewrite <- Hvecs in Hrows. rewrite Forall_map in Hrows. exact Hrows. }
  assert (Hnd : NoDup (map LocalVectorDB.emb_chunk_id embs)).
  { rewrite Hids, Hcids. apply chunk_ids_NoDup. }
  destruct (store_steps_fresh index_name db embedding_dim embs Hmd Hembs_ne
              Hdecl Hdim Hnd) as [Hsteps Hholds].
  exists embs.
  split; [apply from_chunks_records; assumption|].
  split; [exact Hids|]. split; [exact Hvecs|]. split; [exact Hsteps|].
  split; [exact Hholds|]. cbv zeta.
  destruct (StoreExtra.search_holds_results _ _ _ query top_k Hholds Hq Hk)
    as (found & -> & Hcount & Hincl & _).
  split.
  - rewrite length_map, Hcount. unfold embs.
    rewrite length_map, length_combine. lia.
  - intros r Hr. apply in_map_iff in Hr. destruct Hr as (emb & <- & Hemb).
    apply Hincl in Hemb. unfold embs in Hemb. apply in_map_iff in Hemb.
    destruct Hemb as ([c row] & <- & Hcr).
    apply in_combine_l in Hcr. exists c. split; [exact Hcr|].
    split; [reflexivity|].
    rewrite stored_content; [reflexivity|].
    cbn [record_of LocalVectorDB.emb_metadata fst].
    apply chunk_metadata_no_content.
    rewrite Forall_forall in Hkeys. apply Hkeys. exact Hcr.
Qed.

Lemma pipeline_stores_chunks_witness :
  exists chunks embs,
    chunk_text posix_stem Samples.small_chunker 80 Samples.sample_text
      "claims/report.txt" None = Some chunks
    /\ Generator.generate_embeddings_from_chunks Samples.constant_encode
         "bge-large" 2 chunks = Some (inr embs)
    /\ holds embs 2
         (snd (Pipeline.store_steps "claims-embeddings-local"
                 LocalVectorDB.empty_db embs)).
Proof.
  destruct (chunk_text posix_stem Samples.small_chunker 80 Samples.sample_text
              "claims/report.txt" None) as [chunks|] eqn:Hrun;
    [|vm_compute in Hrun; discriminate].
  assert (Hne : chunks <> []).
  { assert (Hopt : option_map (@List.length TextChunk)
                     (chunk_text posix_stem Samples.small_chunker 80
                        Samples.sample_text "claims/report.txt" None)
                   = Some 4%nat) by (vm_compute; reflexivity).
    rewrite Hrun in Hopt. intros Hnil. rewrite Hnil in Hopt.
    discriminate Hopt. }
  destruct (pipeline_stores_chunks posix_stem Samples.small_chunker 80
              Samples.sample_text "claims/report.txt" None chunks
              Samples.constant_encode "bge-large" 2
              (map (fun _ => [1%Q; 0%Q]) (map content chunks))
              "claims-embeddings-local" LocalVectorDB.empty_db
              [1%Q; 0%Q] 3 Hrun Hne eq_refl)
    as (embs & Hgen & _ & _ & _ & Hholds & _).
  - rewrite !length_map. reflexivity.
  - apply Forall_forall. intros row Hrow. apply in_map_iff in Hrow.
    destruct Hrow as (t & <- & _). reflexivity.
  - reflexivity.
  - reflexivity.
  - reflexivity.
  - exists chunks, embs. split; [reflexivity|]. split; assumption.
Defined.

(** ** The storage steps on a store that holds other records *)

Lemma entry_keys (records : list LocalVectorDB.EmbeddingResult) :
  dict_keys (map entry records) = map LocalVectorDB.emb_chunk_id records.
Proof. unfold dict_keys. rewrite map_map. reflexivity. Qed.

(** X28.  The storage steps of the pipeline on a store that already
    holds other records: [create_index] empties the index and keeps the
    metadata, so after the upsert of a batch of new chunk ids the steps
    report success, the index holds the vectors of the batch only, and
    the metadata holds the old entries followed by those of the batch.
    When the batch is not longer than the old records, every result of
    a later search carries the chunk id of an old record. *)
Theorem pipeline_over_old_records
    (index_name : string) (db : LocalVectorDB.LocalVectorDB) (d : Z)
    (old : list LocalVectorDB.EmbeddingResult)
    (b0 : LocalVectorDB.EmbeddingResult)
    (rest : list LocalVectorDB.EmbeddingResult)
    (query : list Q) (top_k : Z) :
  holds old d db ->
  Forall (fun emb => Z.of_nat (List.length (LocalVectorDB.embedding emb))
                     = LocalVectorDB.embedding_dim b0) (b0 :: rest) ->
  NoDup (map LocalVectorDB.emb_chunk_id (old ++ b0 :: rest)) ->
  let after := snd (Pipeline.store_steps index_name db (b0 :: rest)) in
  fst (Pipeline.store_steps index_name db (b0 :: rest)) = inr tt
  /\ LocalVectorDB.index after
     = Some (Faiss.mkIndex (LocalVectorDB.embedding_dim b0)
               (map LocalVectorDB.embedding (b0 :: rest)))
  /\ LocalVectorDB.db_metadata after = map entry (old ++ b0 :: rest)
  /\ ((List.length (b0 :: rest) <= List.length old)%nat ->
      forall r, In r (LocalVectorDB.search after query top_k) ->
                In (LocalVectorDB.chunk_id r)
                   (map LocalVectorDB.emb_chunk_id old)).
Proof.
  intros (Htr & Hix & Hmd & Hnd & Hdim) Hbatch Hfresh. cbv zeta.
  assert (Hne : b0 :: rest <> []) by discriminate.
  destruct (StoreExtra.vstack_same_length _ _ Hne Hbatch) as [Hstack Hcols].
  assert (Hsteps :
            Pipeline.store_steps index_name db (b0 :: rest)
            = (inr tt,
               {| LocalVectorDB.index :=
                    Some (Faiss.mkIndex (LocalVectorDB.embedding_dim b0)
                            (map LocalVectorDB.embedding (b0 :: rest)));
                  LocalVectorDB.db_metadata := map entry (old ++ b0 :: rest);
                  LocalVectorDB.dimension :=
                    Some (LocalVectorDB.embedding_dim b0);
                  LocalVectorDB.is_trained := true |})).
  { unfold Pipeline.store_steps, Pipeline._setup_vector_database,
      Pipeline._store_embeddings, Manager.create_index,
      Manager.upsert_embeddings.
    cbn [LocalVectorDB.create_index Faiss.new_IndexFlatIP].
    unfold LocalVectorDB.upsert_embeddings.
    cbn [LocalVectorDB.is_trained LocalVectorDB.db_metadata].
    rewrite Hstack.
    cbn [LocalVectorDB.index LocalVectorDB.with_metadata].
    unfold Faiss.add. cbn [Faiss.d Faiss.xb]. rewrite Hcols, Z.eqb_refl.
    cbn [LocalVectorDB.with_index LocalVectorDB.index
           LocalVectorDB.db_metadata LocalVectorDB.dimension
           LocalVectorDB.is_trained app].
    rewrite Hmd, StoreExtra.store_all_fresh by exact Hfresh. reflexivity. }
  rewrite Hsteps. cbn [fst snd LocalVectorDB.index LocalVectorDB.db_metadata].
  repeat split.
  intros Hshort r Hr.
  destruct (StoreExtra.search_positions _ _ _ _ Hr)
    as (ix & p & Hix' & Hp & Hkey).
  cbn [LocalVectorDB.index LocalVectorDB.db_metadata] in Hix', Hkey.
  inversion Hix'. subst ix. cbn [Faiss.xb map List.length] in Hp.
  rewrite ?length_map in Hp. cbn [List.length] in Hshort.
  rewrite entry_keys, map_app in Hkey.
  rewrite nth_error_app1 in Hkey by (rewrite length_map; lia).
  apply (nth_error_In _ _ Hkey).
Qed.

Lemma pipeline_over_old_records_witness :
  let after :=
    snd (Pipeline.store_steps "claims-embeddings-local" Samples.db_two
           [Samples.emb_wide]) in
  fst (Pipeline.store_steps "claims-embeddings-local" Samples.db_two
         [Samples.emb_wide]) = inr tt
  /\ forall r,
       In r (LocalVectorDB.search after [1%Q; 0%Q; 0%Q] 1) ->
       In (LocalVectorDB.chunk_id r) ["doc_chunk_000"; "doc_chunk_001"]%string.
Proof.
  assert (H : holds [Samples.emb_a; Samples.emb_b] 2 Samples.db_two).
  { unfold holds. repeat split; try reflexivity.
    - repeat constructor; cbn; intuition discriminate.
    - repeat constructor. }
  destruct (pipeline_over_old_records "claims-embeddings-local"
              Samples.db_two 2 [Samples.emb_a; Samples.emb_b]
              Samples.emb_wide [] [1%Q; 0%Q; 0%Q] 1 H)
    as (Hok & _ & _ & Hids).
  - repeat constructor.
  - cbn. repeat constructor; cbn; intuition discriminate.
  - cbv zeta. split; [exact Hok|]. apply Hids. cbn. lia.
Defined.

End PipelineExtra.
